(** * labelcorrection: a shallow embedding of [labelcorrection.py]

    The development follows the layout of the Python module: the Python
    run-time notions the code relies on (exceptions, list indexing, ordered
    dictionaries), the s-expression objects, the command inverter, the
    code generators, the raw label operations, the evaluator, the
    tokenizer / parser / serializer and finally the [CorrectionStack]. *)

From Stdlib Require Import List String Ascii ZArith QArith Bool Lia DecimalString DecimalPos.
Import ListNotations.
Set Warnings "-register-all".
Set Default Proof Using "Type".
Open Scope string_scope.
Open Scope Z_scope.

(** ** Python run-time model *)

Module Py.

(** The exception classes the module can raise. *)
Inductive exn : Set :=
| IndexError | KeyError | ValueError | TypeError | SyntaxError | AttributeError.

(** A Python call either returns or raises. *)
Inductive result (A : Type) : Type :=
| Ok (a : A)
| Raise (e : exn).
Arguments Ok {A} a.
Arguments Raise {A} e.

Definition bind {A B} (r : result A) (k : A -> result B) : result B :=
  match r with
  | Ok a => k a
  | Raise e => Raise e
  end.

Definition of_option {A} (e : exn) (o : option A) : result A :=
  match o with
  | Some a => Ok a
  | None => Raise e
  end.

(** [l[i]] position: a negative index counts from the end. *)
Definition norm_index (len : nat) (i : Z) : option nat :=
  let j := if i <? 0 then i + Z.of_nat len else i in
  if (0 <=? j) && (j <? Z.of_nat len) then Some (Z.to_nat j) else None.

(** Overwrite position [n] of a list (nothing happens out of range; the
    callers below check the range first, as Python does). *)
Fixpoint set_nth {A} (l : list A) (n : nat) (x : A) : list A :=
  match l, n with
  | [], _ => []
  | _ :: t, O => x :: t
  | h :: t, S n' => h :: set_nth t n' x
  end.

Fixpoint remove_nth {A} (l : list A) (n : nat) : list A :=
  match l, n with
  | [], _ => []
  | _ :: t, O => t
  | h :: t, S n' => h :: remove_nth t n'
  end.

(** [l[i]] *)
Definition getitem {A} (l : list A) (i : Z) : result A :=
  match norm_index (List.length l) i with
  | Some n => of_option IndexError (nth_error l n)
  | None => Raise IndexError
  end.

(** [l[i] = x] *)
Definition setitem {A} (l : list A) (i : Z) (x : A) : result (list A) :=
  match norm_index (List.length l) i with
  | Some n => Ok (set_nth l n x)
  | None => Raise IndexError
  end.

(** [l.pop(i)]: the removed element and the remaining list. *)
Definition pop {A} (l : list A) (i : Z) : result (A * list A) :=
  match norm_index (List.length l) i with
  | Some n =>
      match nth_error l n with
      | Some x => Ok (x, remove_nth l n)
      | None => Raise IndexError
      end
  | None => Raise IndexError
  end.

(** [l.insert(i, x)]: never raises, the position is clamped to the list. *)
Definition insert {A} (l : list A) (i : Z) (x : A) : list A :=
  let len := Z.of_nat (List.length l) in
  let j := if i <? 0 then Z.max 0 (i + len) else Z.min i len in
  firstn (Z.to_nat j) l ++ x :: skipn (Z.to_nat j) l.

(** [deque.pop()]: removes and returns the rightmost element. *)
Fixpoint pop_right {A} (l : list A) : option (A * list A) :=
  match l with
  | [] => None
  | x :: t =>
      match pop_right t with
      | None => Some (x, [])
      | Some (y, t') => Some (y, x :: t')
      end
  end.

(** Ordered dictionaries with string keys ([dict] keeps insertion order). *)
Section Dict.
Context {V : Type}.

Definition dict := list (string * V).

Fixpoint dict_get (d : dict) (k : string) : option V :=
  match d with
  | [] => None
  | (k', v) :: t => if String.eqb k' k then Some v else dict_get t k
  end.

(** [d[k] = v]: an existing key keeps its position, a new key goes last. *)
Fixpoint dict_set (d : dict) (k : string) (v : V) : dict :=
  match d with
  | [] => [(k, v)]
  | (k', v') :: t =>
      if String.eqb k' k then (k', v) :: t else (k', v') :: dict_set t k v
  end.

(** [del d[k]] (the callers look the key up first). *)
Fixpoint dict_del (d : dict) (k : string) : dict :=
  match d with
  | [] => []
  | (k', v') :: t =>
      if String.eqb k' k then t else (k', v') :: dict_del t k
  end.

(** [d.update(e)] *)
Definition dict_update (d e : dict) : dict :=
  fold_left (fun acc kv => dict_set acc (fst kv) (snd kv)) e d.

Definition dict_keys (d : dict) : list string := map fst d.
End Dict.
Arguments dict V : clear implicits.

(** [s[n:]] and [s[:n]] *)
Definition drop (n : nat) (s : string) : string :=
  substring n (String.length s - n) s.
Definition take (n : nat) (s : string) : string :=
  substring 0 n s.

End Py.
Import Py.

Notation "x <- e ;; k" := (Py.bind e (fun x => k))
  (at level 61, e at next level, right associativity).
Notation "' pat <- e ;; k" := (Py.bind e (fun x => match x with pat => k end))
  (at level 61, pat pattern, e at next level, right associativity).

(** ** Objects

    One type for the Python objects the module handles: the atoms of a
    command, nested command lists, the dictionaries built by the evaluator
    and the entries of the evaluation environment.  A finite float is
    modelled by the rational number it denotes (the code only copies and
    compares floats; the rounding of a literal to the nearest double is
    outside the model); the three floats that denote no rational, NaN and
    the two infinities, are values of their own.  The commands
    built by the code generators and by the parser hold atoms and nested
    lists only; dictionaries, the label list, the primitives and [dict]
    arise as values during evaluation. *)

Inductive proc : Set :=
| PSetValue (column : string)   (* ft.partial(_set_value, labels=labels, column=...) *)
| PMergeNext                    (* ft.partial(_merge_next, labels=labels) *)
| PSplit
| PDelete
| PCreate.

Inductive special : Set := NaN | PosInf | NegInf.

Inductive obj : Type :=
| ONone
| OInt (z : Z)
| OFloat (q : Q)
| OStr (s : string)               (* plain str *)
| OSym (s : string)               (* Symbol(str) *)
| OKey (s : string)               (* KeyArg(Symbol) *)
| OList (l : list obj)            (* a nested command list *)
| ODict (d : list (string * obj)) (* a dict built by the evaluator *)
| OLabels                         (* the engine's label list (by reference) *)
| OProc (p : proc)                (* a primitive bound in the environment *)
| ODictClass                      (* the builtin [dict] *)
| OSpecial (x : special).         (* float('nan'), float('inf'), float('-inf') *)

(** A label record is a [dict]; the label sequence is a list of records. *)
Definition record := Py.dict obj.
Definition labels := list record.

(** [Symbol] and [KeyArg] subclass [str] and compare equal to a plain
    string with the same characters. *)
Definition str_of (o : obj) : option string :=
  match o with
  | OStr s | OSym s | OKey s => Some s
  | _ => None
  end.

Definition eq_str (o : obj) (s : string) : bool :=
  match str_of o with
  | Some s' => String.eqb s' s
  | None => false
  end.

(** [l.index(s)] for a string [s]: position of the first element equal to
    it, [ValueError] when there is none. *)
Fixpoint index_str (l : list obj) (s : string) : result nat :=
  match l with
  | [] => Raise ValueError
  | x :: t => if eq_str x s then Ok O else n <- index_str t s ;; Ok (S n)
  end.

(** ** Inverting a command *)

Definition INVERSE_TABLE : Py.dict string :=
  [ ("set_name", "set_name"); ("set_start", "set_start");
    ("set_stop", "set_stop"); ("merge_next", "split");
    ("split", "merge_next"); ("delete", "create"); ("create", "delete") ].

(** [INVERSE_TABLE[op]]: a string-like key is looked up by its characters;
    a list or dict is unhashable. *)
Definition inverse_of (op : obj) : result string :=
  match op with
  | OList _ | ODict _ | OLabels => Raise TypeError
  | _ =>
      match str_of op with
      | Some s => of_option KeyError (dict_get INVERSE_TABLE s)
      | None => Raise KeyError
      end
  end.

(** [isinstance(curr, KeyArg) and len(curr) >= 4 and curr[:4] == 'new_'] *)
Definition is_new_key (curr : obj) : option string :=
  match curr with
  | OKey k =>
      if (4 <=? String.length k)%nat && String.eqb (take 4 k) "new_"
      then Some (drop 4 k) else None
  | _ => None
  end.

(** State of the loop of [invert].  [s_expr] is updated in place by the
    source and so is [target], which is the very object held in slot
    [tpos] of [s_expr]: the model keeps the current contents of that object
    in [ist_target] and remembers in [ist_attached] whether slot [tpos]
    still holds it. *)
Record inv_state : Type := mk_inv_state {
  ist_target : obj;
  ist_sexpr : list obj;
  ist_attached : bool
}.

Definition ist_read (tpos : nat) (st : inv_state) (j : nat) : result obj :=
  if ist_attached st && Nat.eqb j tpos then Ok (ist_target st)
  else of_option IndexError (nth_error (ist_sexpr st) j).

Definition ist_contents (tpos : nat) (st : inv_state) : list obj :=
  if ist_attached st then set_nth (ist_sexpr st) tpos (ist_target st)
  else ist_sexpr st.

(** One iteration of [for i in range(len(s_expr))]. *)
Definition invert_step (tpos : nat) (st : inv_state) (i : nat)
  : result inv_state :=
  curr <- ist_read tpos st i ;;
  match is_new_key curr with
  | None => Ok st
  | Some oldname =>
      match ist_target st with
      | OList t =>
          p <- index_str t oldname ;;
          oldval <- of_option IndexError (nth_error t (S p)) ;;
          newval <- ist_read tpos st (S i) ;;
          Ok {| ist_target := OList (set_nth t (S p) newval);
                ist_sexpr := set_nth (ist_sexpr st) (S i) oldval;
                ist_attached := ist_attached st && negb (Nat.eqb (S i) tpos) |}
      | OStr s | OSym s | OKey s =>
          (* [str.index] searches for a substring; a character can be
             read but not assigned *)
          match String.index 0 oldname s with
          | None => Raise ValueError
          | Some p =>
              if (S p <? String.length s)%nat then Raise TypeError
              else Raise IndexError
          end
      | OLabels => Raise TypeError
      | _ => Raise AttributeError     (* no [index] method *)
      end
  end.

Fixpoint invert_loop (tpos : nat) (n i : nat) (st : inv_state)
  : result inv_state :=
  match n with
  | O => Ok st
  | S n' => st' <- invert_step tpos st i ;; invert_loop tpos n' (S i) st'
  end.

(** [invert(s_expr)] on the contents of the list object [s_expr].  The
    result is the pair of the returned list and of the contents of
    [s_expr] itself after the call: the source swaps the values in place.
    The elements after the head of the returned list are the very objects
    of [s_expr] (the [target] sub-list is shared, not copied). *)
Definition invert (s_expr : list obj) : result (list obj * list obj) :=
  op <- of_option IndexError (nth_error s_expr 0) ;;
  inverse <- inverse_of op ;;
  k <- index_str s_expr "target" ;;
  target <- of_option IndexError (nth_error s_expr (S k)) ;;
  st <- invert_loop (S k) (List.length s_expr) 0
          {| ist_target := target; ist_sexpr := s_expr; ist_attached := true |} ;;
  let s_expr' := ist_contents (S k) st in
  Ok (OSym inverse :: tl s_expr', s_expr').

(** The value returned by [invert]. *)
Definition invert_value (s_expr : list obj) : result (list obj) :=
  ' (r, _) <- invert s_expr ;; Ok r.

(** ** Code generators *)

(** [d[k]] on a record or keyword dictionary. *)
Definition field {V} (d : Py.dict V) (k : string) : result V :=
  of_option KeyError (dict_get d k).

(** [a + b] as used on names.  Strings are concatenated and integers
    added; names are strings, the addition of floats (which rounds) is
    outside the model and reported as [TypeError]. *)
Definition py_add (a b : obj) : result obj :=
  match a, b with
  | OStr x, OStr y => Ok (OStr (x ++ y))
  | OInt x, OInt y => Ok (OInt (x + y))
  | _, _ => Raise TypeError
  end.

Definition flatten_items (d : Py.dict obj) : list obj :=
  flat_map (fun kv => [OKey (fst kv); snd kv]) d.

Definition _gen_code (op target_name : string) (target other_args : Py.dict obj)
  : list obj :=
  [OSym op; OKey "labels"; OSym "labels"; OKey "target";
   OList (OSym target_name :: flatten_items target)]
  ++ flatten_items other_args.

Definition codegen_rename (L : labels) (index : Z) (new_name : obj)
  : result (list obj) :=
  r <- getitem L index ;;
  name <- field r "name" ;;
  Ok (_gen_code "set_name" "interval"
        [("index", OInt index); ("name", name)] [("new_name", new_name)]).

Definition codegen_set_start (L : labels) (index : Z) (new_start : obj)
  : result (list obj) :=
  r <- getitem L index ;;
  start <- field r "start" ;;
  Ok (_gen_code "set_start" "interval"
        [("index", OInt index); ("start", start)] [("new_start", new_start)]).

Definition codegen_set_stop (L : labels) (index : Z) (new_stop : obj)
  : result (list obj) :=
  r <- getitem L index ;;
  stop <- field r "stop" ;;
  Ok (_gen_code "set_stop" "interval"
        [("index", OInt index); ("stop", stop)] [("new_stop", new_stop)]).

(** [[c for c in record.keys() if c not in ('start', 'stop', 'name')]] *)
Definition extra_columns (r : record) : list string :=
  filter (fun c => negb (String.eqb c "start" || String.eqb c "stop"
                         || String.eqb c "name")) (dict_keys r).

(** The [for c in columns] loop of [codegen_merge_next]. *)
Fixpoint merge_columns (r rnext : record) (columns : list string)
    (target other_args : Py.dict obj)
  : result (Py.dict obj * Py.dict obj) :=
  match columns with
  | [] => Ok (target, other_args)
  | c :: cs =>
      v <- field r c ;;
      let target := dict_set target c v in
      vn <- field rnext c ;;
      let target := dict_set target ("next_" ++ c) vn in
      let other_args := dict_set other_args ("new_" ++ c) ONone in
      let other_args := dict_set other_args ("new_next_" ++ c) ONone in
      merge_columns r rnext cs target other_args
  end.

Definition codegen_merge_next (L : labels) (index : Z) (new_name : obj)
  : result (list obj) :=
  r <- getitem L index ;;
  name <- field r "name" ;;
  stop <- field r "stop" ;;
  rnext <- getitem L (index + 1) ;;
  next_start <- field rnext "start" ;;
  next_name <- field rnext "name" ;;
  let target := [("index", OInt index); ("name", name); ("stop", stop);
                 ("next_start", next_start); ("next_name", next_name)] in
  new_name <- match new_name with
              | ONone => py_add name next_name
              | _ => Ok new_name
              end ;;
  let other_args := [("new_name", new_name); ("new_stop", ONone);
                     ("new_next_start", ONone); ("new_next_name", ONone)] in
  ' (target, other_args) <-
      merge_columns r rnext (extra_columns r) target other_args ;;
  Ok (_gen_code "merge_next" "interval_pair" target other_args).

(** The [for c in columns] loop of [codegen_split]. *)
Fixpoint split_columns (r : record) (kwargs : Py.dict obj)
    (columns : list string) (target other_args : Py.dict obj)
  : result (Py.dict obj * Py.dict obj) :=
  match columns with
  | [] => Ok (target, other_args)
  | c :: cs =>
      v <- field r c ;;
      let target := dict_set target c v in
      let target := dict_set target ("next_" ++ c) ONone in
      nv <- field kwargs ("new_" ++ c) ;;
      let other_args := dict_set other_args ("new_" ++ c) nv in
      nnv <- field kwargs ("new_next_" ++ c) ;;
      let other_args := dict_set other_args ("new_next_" ++ c) nnv in
      split_columns r kwargs cs target other_args
  end.

Definition codegen_split (L : labels) (index : Z) (new_sep : obj)
    (new_name new_next_name : obj) (kwargs : Py.dict obj)
  : result (list obj) :=
  r <- getitem L index ;;
  name <- field r "name" ;;
  stop <- field r "stop" ;;
  let target := [("index", OInt index); ("name", name); ("stop", stop);
                 ("next_name", ONone); ("next_start", ONone)] in
  let new_name := match new_name with ONone => name | _ => new_name end in
  let new_next_name :=
    match new_next_name with ONone => OStr EmptyString | _ => new_next_name end in
  let other_args := [("new_name", new_name); ("new_stop", new_sep);
                     ("new_next_start", new_sep);
                     ("new_next_name", new_next_name)] in
  ' (target, other_args) <-
      split_columns r kwargs (extra_columns r) target other_args ;;
  Ok (_gen_code "split" "interval_pair" target other_args).

Definition codegen_delete (L : labels) (index : Z) : result (list obj) :=
  r <- getitem L index ;;
  let target := dict_update [("index", OInt index)] r in
  Ok (_gen_code "delete" "interval" target []).

(** [codegen_create(index, start, **kwargs)]: Python refuses a keyword
    that repeats a named parameter. *)
Definition codegen_create (index : Z) (start : obj) (kwargs : Py.dict obj)
  : result (list obj) :=
  match dict_get kwargs "index", dict_get kwargs "start" with
  | None, None =>
      let target := dict_update [("index", OInt index); ("start", start)] kwargs in
      Ok (_gen_code "create" "interval" target [])
  | _, _ => Raise TypeError
  end.

(** ** Raw operations on the label sequence

    The operations update the label list in place: each takes the current
    labels and returns the outcome of the call together with the labels as
    the call leaves them, also when it raises. *)

Definition eff (A : Type) : Type := labels -> result A * labels.

(** [target[k]]: [target] is the dict built by the evaluator. *)
Definition subscript (o : obj) (k : string) : result obj :=
  match o with
  | ODict d => field d k
  | _ => Raise TypeError
  end.

(** A list position must be an integer. *)
Definition as_index (o : obj) : result Z :=
  match o with
  | OInt z => Ok z
  | _ => Raise TypeError
  end.

(** A record key: the records of the model have string keys; an unhashable
    key is a [TypeError], any other object is simply absent. *)
Definition as_key (o : obj) : result string :=
  match o with
  | OList _ | ODict _ | OLabels => Raise TypeError
  | _ => of_option KeyError (str_of o)
  end.

Definition num_of (o : obj) : option Q :=
  match o with
  | OInt z => Some (inject_Z z)
  | OFloat q => Some q
  | _ => None
  end.

(** The numbers: the finite ones and the three special floats. *)
Inductive number : Type :=
| Finite (q : Q)
| NonFinite (x : special).

Definition number_of (o : obj) : option number :=
  match o with
  | OInt z => Some (Finite (inject_Z z))
  | OFloat q => Some (Finite q)
  | OSpecial x => Some (NonFinite x)
  | _ => None
  end.

(** [a < b] and [a <= b] on numbers: every comparison with NaN is false. *)
Definition number_lt (a b : number) : bool :=
  match a, b with
  | NonFinite NaN, _ | _, NonFinite NaN => false
  | Finite x, Finite y => negb (Qle_bool y x)
  | _, NonFinite NegInf => false
  | NonFinite NegInf, _ => true
  | NonFinite PosInf, _ => false
  | _, NonFinite PosInf => true
  end.

Definition number_le (a b : number) : bool :=
  match a, b with
  | NonFinite NaN, _ | _, NonFinite NaN => false
  | Finite x, Finite y => Qle_bool x y
  | NonFinite NegInf, _ => true
  | _, NonFinite PosInf => true
  | _, NonFinite NegInf => false
  | NonFinite PosInf, _ => false
  end.

(** [a < b]: numbers compare by value, strings (of any kind)
    lexicographically; any other pair of operands is a [TypeError]. *)
Definition py_lt (a b : obj) : result bool :=
  match number_of a, number_of b with
  | Some x, Some y => Ok (number_lt x y)
  | _, _ =>
      match str_of a, str_of b with
      | Some x, Some y => Ok (String.ltb x y)
      | _, _ => Raise TypeError
      end
  end.

Definition py_gt (a b : obj) : result bool := py_lt b a.

(** [labels[index][k] = v] *)
Definition set_field (L : labels) (index : Z) (k : string) (v : obj)
  : result labels :=
  r <- getitem L index ;;
  setitem L index (dict_set r k v).

Definition _set_value (target column : obj) (kwargs : Py.dict obj) : eff obj :=
  fun L =>
  let check :=
    i <- subscript target "index" ;;
    i <- as_index i ;;
    r <- getitem L i ;;
    c <- as_key column ;;
    _ <- field r c ;;
    Ok c in
  match check with
  | Raise e => (Raise e, L)
  | Ok c =>
      let upd :=
        v <- field kwargs ("new_" ++ c) ;;
        i <- subscript target "index" ;;
        i <- as_index i ;;
        set_field L i c v in
      match upd with
      | Raise e => (Raise e, L)
      | Ok L' => (Ok ONone, L')
      end
  end.

Definition _merge_next (target : obj) (kwargs : Py.dict obj) : eff obj :=
  fun L =>
  let line2 :=
    i <- subscript target "index" ;;
    i <- as_index i ;;
    rnext <- getitem L (i + 1) ;;
    stop <- field rnext "stop" ;;
    L1 <- set_field L i "stop" stop ;;
    Ok (i, L1) in
  match line2 with
  | Raise e => (Raise e, L)
  | Ok (i, L1) =>
      match field kwargs "new_name" with
      | Raise e => (Raise e, L1)
      | Ok name =>
          match set_field L1 i "name" name with
          | Raise e => (Raise e, L1)
          | Ok L2 =>
              match pop L2 (i + 1) with
              | Raise e => (Raise e, L2)
              | Ok (_, L3) => (Ok ONone, L3)
              end
          end
      end
  end.

(** The [for key in kwargs] loop of [_split], on the record being split
    and on its clone. *)
Fixpoint split_loop (items : Py.dict obj) (orig new_point : record)
  : record * record :=
  match items with
  | [] => (orig, new_point)
  | (key, v) :: rest =>
      if String.eqb (take 9 key) "new_next_"
      then split_loop rest orig (dict_set new_point (drop 9 key) v)
      else if String.eqb (take 4 key) "new_"
      then split_loop rest (dict_set orig (drop 4 key) v) new_point
      else split_loop rest orig new_point
  end.

Definition _split (target : obj) (kwargs : Py.dict obj) : eff obj :=
  fun L =>
  let guard :=
    new_stop <- field kwargs "new_stop" ;;
    i <- subscript target "index" ;;
    i <- as_index i ;;
    r <- getitem L i ;;
    start <- field r "start" ;;
    c1 <- py_gt new_stop start ;;
    if c1 then
      new_next_start <- field kwargs "new_next_start" ;;
      i <- subscript target "index" ;;
      i <- as_index i ;;
      r <- getitem L i ;;
      stop <- field r "stop" ;;
      py_lt new_next_start stop
    else Ok false in
  match guard with
  | Raise e => (Raise e, L)
  | Ok false => (Raise ValueError, L)
  | Ok true =>
      let body :=
        i <- subscript target "index" ;;
        i <- as_index i ;;
        r <- getitem L i ;;
        let '(orig, new_point) := split_loop kwargs r r in
        L1 <- setitem L i orig ;;
        Ok (insert L1 (i + 1) new_point) in
      match body with
      | Raise e => (Raise e, L)
      | Ok L' => (Ok ONone, L')
      end
  end.

Definition _delete (target : obj) (kwargs : Py.dict obj) : eff obj :=
  fun L =>
  let r :=
    i <- subscript target "index" ;;
    i <- as_index i ;;
    pop L i in
  match r with
  | Raise e => (Raise e, L)
  | Ok (_, L') => (Ok ONone, L')
  end.

Definition _create (target : obj) (kwargs : Py.dict obj) : eff obj :=
  fun L =>
  let r :=
    index <- subscript target "index" ;;
    start <- subscript target "start" ;;
    stop <- subscript target "stop" ;;
    name <- subscript target "name" ;;
    match target with
    | ODict d =>
        let new_point := [("start", start); ("stop", stop); ("name", name)] in
        let d := dict_del (dict_del (dict_del (dict_del d "start") "stop")
                             "name") "index" in
        let new_point := dict_update new_point d in
        i <- as_index index ;;
        Ok (insert L i new_point)
    | _ => Raise TypeError
    end in
  match r with
  | Raise e => (Raise e, L)
  | Ok L' => (Ok ONone, L')
  end.

(** ** Evaluator *)

(** [make_env(labels=self.labels)]: the name bound to each primitive, the
    two record constructors and the label list. *)
Definition make_env : Py.dict obj :=
  [ ("set_name", OProc (PSetValue "name"));
    ("set_start", OProc (PSetValue "start"));
    ("set_stop", OProc (PSetValue "stop"));
    ("merge_next", OProc PMergeNext);
    ("split", OProc PSplit);
    ("delete", OProc PDelete);
    ("create", OProc PCreate);
    ("interval", ODictClass);
    ("interval_pair", ODictClass);
    ("labels", OLabels) ].

(** The keywords frozen by [ft.partial]. *)
Definition partial_keywords (p : proc) : Py.dict obj :=
  match p with
  | PSetValue column => [("labels", OLabels); ("column", OStr column)]
  | _ => [("labels", OLabels)]
  end.

Definition without (names : list string) (kw : Py.dict obj) : Py.dict obj :=
  filter (fun kv => negb (existsb (String.eqb (fst kv)) names)) kw.

(** Calling a primitive with keyword arguments: the keywords of the call
    override the frozen ones; [labels], [target] (and [column]) bind the
    named parameters, the others are the [**kwargs] of the primitive.  The
    primitives are modelled on the engine's own label list: another object
    passed as [labels] is reported as a [TypeError]. *)
Definition call_proc (p : proc) (kw : Py.dict obj) : eff obj :=
  fun L =>
  let all := dict_update (partial_keywords p) kw in
  match dict_get all "labels", dict_get all "target" with
  | Some OLabels, Some target =>
      match p with
      | PSetValue _ =>
          match dict_get all "column" with
          | Some column =>
              _set_value target column
                (without ["labels"; "target"; "column"] all) L
          | None => (Raise TypeError, L)
          end
      | PMergeNext => _merge_next target (without ["labels"; "target"] all) L
      | PSplit => _split target (without ["labels"; "target"] all) L
      | PDelete => _delete target (without ["labels"; "target"] all) L
      | PCreate => _create target (without ["labels"; "target"] all) L
      end
  | _, _ => (Raise TypeError, L)
  end.

(** [proc] applied to the keyword dictionary *)
Definition call (f : obj) (kw : Py.dict obj) : eff obj :=
  fun L =>
  match f with
  | OProc p => call_proc p kw L
  | ODictClass => (Ok (ODict kw), L)
  | _ => (Raise TypeError, L)
  end.

(** Keys collected by the dict comprehension of [evaluate]: the string
    keys in order, and whether some hashable key was not a string (which
    [proc] applied to the keyword dictionary then refuses). *)
Record kwargs_acc : Type := mk_acc {
  acc_items : Py.dict obj;
  acc_bad : bool
}.

Definition add_kwarg (acc : kwargs_acc) (k v : obj) : result kwargs_acc :=
  match k with
  | OList _ | ODict _ | OLabels => Raise TypeError   (* unhashable *)
  | _ =>
      match str_of k with
      | Some s => Ok {| acc_items := dict_set (acc_items acc) s v;
                        acc_bad := acc_bad acc |}
      | None => Ok {| acc_items := acc_items acc; acc_bad := true |}
      end
  end.

Fixpoint evaluate (expr : obj) (L : labels) {struct expr} : result obj * labels :=
  match expr with
  | OSym s | OKey s => (field make_env s, L)
  | OList l =>
      match l with
      | [] => (Raise IndexError, L)
      | head :: args =>
          match evaluate head L with
          | (Raise e, L1) => (Raise e, L1)
          | (Ok f, L1) =>
              let fix pairs (ps : list obj) (acc : kwargs_acc) (L : labels)
                  {struct ps} : result kwargs_acc * labels :=
                match ps with
                | [] => (Ok acc, L)
                | [k] =>                      (* zip_longest pads with None *)
                    match add_kwarg acc k ONone with
                    | Raise e => (Raise e, L)
                    | Ok acc' => (Ok acc', L)
                    end
                | k :: v :: rest =>
                    match evaluate v L with
                    | (Raise e, L') => (Raise e, L')
                    | (Ok x, L') =>
                        match add_kwarg acc k x with
                        | Raise e => (Raise e, L')
                        | Ok acc' => pairs rest acc' L'
                        end
                    end
                end in
              match pairs args {| acc_items := []; acc_bad := false |} L1 with
              | (Raise e, L2) => (Raise e, L2)
              | (Ok acc, L2) =>
                  if acc_bad acc then (Raise TypeError, L2)
                  else call f (acc_items acc) L2
              end
          end
      end
  | OLabels =>
      (* the label list is a list too: its first record would be taken
         as the head of a form, and a record is not callable *)
      match L with
      | [] => (Raise IndexError, L)
      | _ => (Raise TypeError, L)
      end
  | _ => (Ok expr, L)
  end.

(** ** The correction stack *)

(** The two deques are lists of command values, rightmost entry last.  Two
    entries that are one and the same list object in the program (a
    command pushed twice, say) are two equal values here: what [invert]
    does to the object it is given shows in the command it returns, not
    in the other entries of a stack. *)
Record CorrectionStack : Type := mk_stack {
  cs_labels : labels;           (* self.labels *)
  undo_stack : list obj;        (* deque, rightmost entry last *)
  redo_stack : list obj;
  cs_file : string;             (* self.file *)
  cs_uuid : string;
  label_hash : string
}.

Definition with_labels (cs : CorrectionStack) (L : labels) : CorrectionStack :=
  mk_stack L (undo_stack cs) (redo_stack cs) (cs_file cs) (cs_uuid cs)
           (label_hash cs).

Definition with_stacks (cs : CorrectionStack) (u r : list obj)
  : CorrectionStack :=
  mk_stack (cs_labels cs) u r (cs_file cs) (cs_uuid cs) (label_hash cs).

(** A method either returns or raises, and leaves the object in some state
    in both cases. *)
Definition method (A : Type) : Type :=
  CorrectionStack -> result A * CorrectionStack.

(** [self._apply(s_expr)] *)
Definition _apply (s_expr : obj) : method obj :=
  fun cs =>
  let '(r, L) := evaluate s_expr (cs_labels cs) in (r, with_labels cs L).

(** [invert] applied to a stored entry.  Entries are command lists; on a
    string [s_expr[0]] is its first character, which is no operation name,
    and the other objects cannot be subscripted. *)
Definition invert_entry (e : obj) : result obj :=
  match e with
  | OList l => r <- invert_value l ;; Ok (OList r)
  | OStr s | OSym s | OKey s =>
      match s with
      | EmptyString => Raise IndexError
      | _ => Raise KeyError
      end
  | _ => Raise TypeError
  end.

Definition undo : method obj :=
  fun cs =>
  match pop_right (undo_stack cs) with
  | None => (Raise IndexError, cs)
  | Some (top, rest) =>
      let cs1 := with_stacks cs rest (redo_stack cs) in
      match invert_entry top with
      | Raise e => (Raise e, cs1)
      | Ok inv =>
          let cs2 := with_stacks cs1 (undo_stack cs1) (redo_stack cs1 ++ [inv]) in
          match _apply inv cs2 with
          | (Raise e, cs3) => (Raise e, cs3)
          | (Ok _, cs3) => (Ok ONone, cs3)
          end
      end
  end.

Definition redo : method obj :=
  fun cs =>
  match pop_right (redo_stack cs) with
  | None => (Raise IndexError, cs)
  | Some (top, rest) =>
      let cs1 := with_stacks cs (undo_stack cs) rest in
      match invert_entry top with
      | Raise e => (Raise e, cs1)
      | Ok inv =>
          let cs2 := with_stacks cs1 (undo_stack cs1 ++ [inv]) (redo_stack cs1) in
          match _apply inv cs2 with
          | (Raise e, cs3) => (Raise e, cs3)
          | (Ok _, cs3) => (Ok ONone, cs3)
          end
      end
  end.

Definition push (cmd : obj) : method obj :=
  fun cs =>
  let cs1 := with_stacks cs (undo_stack cs ++ [cmd]) [] in
  match _apply cmd cs1 with
  | (Raise e, cs2) => (Raise e, cs2)
  | (Ok _, cs2) => (Ok ONone, cs2)
  end.

(** [self.undo_stack[index]] *)
Definition peek (index : Z) : method obj :=
  fun cs => (getitem (undo_stack cs) index, cs).

(** ** Strings

    Command text is a [string] of ASCII characters. *)

Definition char_eqb (a b : ascii) : bool := Ascii.eqb a b.

(** The characters [str.split()] treats as separators. *)
Definition is_space (c : ascii) : bool :=
  let n := nat_of_ascii c in
  ((9 <=? n) && (n <=? 13) || (28 <=? n) && (n <=? 32))%nat.

(** [s.count(c)] *)
Fixpoint count_char (c : ascii) (s : string) : nat :=
  match s with
  | EmptyString => O
  | String x s' => ((if char_eqb x c then 1 else 0) + count_char c s')%nat
  end.

(** [s.replace(a, b)] for single characters. *)
Fixpoint replace_char (a b : ascii) (s : string) : string :=
  match s with
  | EmptyString => EmptyString
  | String x s' => String (if char_eqb x a then b else x) (replace_char a b s')
  end.

(** [s[-1]] *)
Fixpoint last_char (s : string) : option ascii :=
  match s with
  | EmptyString => None
  | String x EmptyString => Some x
  | String _ s' => last_char s'
  end.

(** [cmd.split()]: the maximal runs of non-separator characters; [cur]
    is the word being read. *)
Fixpoint split_from (cur : string) (s : string) : list string :=
  match s with
  | EmptyString => match cur with EmptyString => [] | _ => [cur] end
  | String c s' =>
      if is_space c
      then match cur with
           | EmptyString => split_from EmptyString s'
           | _ => cur :: split_from EmptyString s'
           end
      else split_from (cur ++ String c EmptyString) s'
  end.

Definition split (cmd : string) : list string := split_from EmptyString cmd.

Definition quote : ascii := ascii_of_nat 34.
Definition lparen : ascii := "("%char.
Definition rparen : ascii := ")"%char.

(** ** Tokenizer *)

(** [second_pass[-1] += ' ' + token] *)
Fixpoint extend_last (l : list string) (token : string) : result (list string) :=
  match l with
  | [] => Raise IndexError
  | [x] => Ok [x ++ " " ++ token]
  | x :: t => t' <- extend_last t token ;; Ok (x :: t')
  end.

(** The first loop of [tokenize]: rejoins the words of a quoted region. *)
Fixpoint second_pass_loop (tokens : list string) (second_pass : list string)
    (in_string : bool) : result (list string * bool) :=
  match tokens with
  | [] => Ok (second_pass, in_string)
  | token :: rest =>
      let num_quotes := count_char quote token in
      if Nat.odd num_quotes && negb in_string then            (* open quote *)
        second_pass_loop rest (second_pass ++ [token])%list true
      else if Nat.odd num_quotes && in_string then            (* close quote *)
        sp <- extend_last second_pass token ;;
        second_pass_loop rest sp false
      else if Nat.eqb num_quotes 0 && in_string then          (* middle words *)
        sp <- extend_last second_pass token ;;
        second_pass_loop rest sp in_string
      else
        second_pass_loop rest (second_pass ++ [token])%list in_string
  end.

(** The second loop of [tokenize]: detaches parentheses. *)
Fixpoint third_pass_loop (tokens : list string) : result (list string) :=
  match tokens with
  | [] => Ok []
  | token :: rest =>
      match token with
      | EmptyString => Raise IndexError                       (* token[0] *)
      | String c0 after =>
          these <-
            (if char_eqb c0 lparen then
               Ok ("(" :: match after with
                          | EmptyString => []
                          | _ => [after]
                          end)
             else if match last_char token with
                     | Some c => char_eqb c rparen
                     | None => false
                     end then
               let ct := count_char rparen token in
               Ok (take (String.length token - ct) token :: repeat ")" ct)
             else Ok [token]) ;;
          more <- third_pass_loop rest ;;
          Ok (these ++ more)%list
      end
  end.

Definition tokenize (cmd : string) : result (list string) :=
  ' (second_pass, _) <- second_pass_loop (split cmd) [] false ;;
  third_pass_loop second_pass.

(** ** Atom codec

    [int(token)] and [float(token)] on ASCII text, as Python 3 reads
    decimal literals: an optional sign and digits, for floats an optional
    fraction and exponent and the spellings of the infinities and of NaN,
    with single underscores allowed between digits.  White space around
    a literal, which [int] and [float] would strip, is not read: a token
    of [tokenize] holds white space only behind a double quote, and is
    then no number.  The value of a finite
    float literal is kept exactly: the rounding to the nearest double, and
    with it the overflow of a large literal to an infinity, is outside the
    model.  So is the limit that CPython from version 3.11 on puts on the
    conversion between [int] and [str] (4300 digits unless configured
    otherwise): integers are converted whatever their size. *)

Definition digit_of (c : ascii) : option Z :=
  let n := nat_of_ascii c in
  if ((48 <=? n) && (n <=? 57))%nat then Some (Z.of_nat (n - 48)) else None.

Fixpoint digits_value (s : string) (acc : Z) : option Z :=
  match s with
  | EmptyString => Some acc
  | String c s' =>
      match digit_of c with
      | Some d => digits_value s' (10 * acc + d)
      | None => None
      end
  end.

Definition strip_sign (s : string) : bool * string :=
  match s with
  | String "-" r => (true, r)
  | String "+" r => (false, r)
  | _ => (false, s)
  end.

Definition is_digit (c : ascii) : bool :=
  match digit_of c with
  | Some _ => true
  | None => false
  end.

Definition after_digit (prev : option ascii) : bool :=
  match prev with
  | Some p => is_digit p
  | None => false
  end.

Definition after_underscore (prev : option ascii) : bool :=
  match prev with
  | Some p => char_eqb p "_"
  | None => false
  end.

(** Digit grouping: an underscore is accepted after a digit and before a
    digit only, and is dropped; [prev] is the character before [s]. *)
Fixpoint strip_underscores_from (prev : option ascii) (s : string)
  : option string :=
  match s with
  | EmptyString =>
      if after_underscore prev then None else Some EmptyString
  | String c s' =>
      if char_eqb c "_" then
        if after_digit prev then strip_underscores_from (Some c) s' else None
      else if after_underscore prev && negb (is_digit c) then None
      else option_map (String c) (strip_underscores_from (Some c) s')
  end.

Definition strip_underscores (s : string) : option string :=
  strip_underscores_from None s.

(** An integer literal without underscores. *)
Definition int_literal (s : string) : option Z :=
  let '(neg, body) := strip_sign s in
  match body with
  | EmptyString => None
  | _ => option_map (fun v => if neg then - v else v) (digits_value body 0)
  end.

(** [int(s)], [None] standing for its [ValueError]. *)
Definition int_of_string (s : string) : option Z :=
  match strip_underscores s with
  | Some s' => int_literal s'
  | None => None
  end.

(** Cuts a string at the first character satisfying [p]. *)
Fixpoint break_at (p : ascii -> bool) (s : string) : string * option string :=
  match s with
  | EmptyString => (EmptyString, None)
  | String c s' =>
      if p c then (EmptyString, Some s')
      else let '(a, b) := break_at p s' in (String c a, b)
  end.

(** A finite float literal without underscores. *)
Definition float_literal (s : string) : option Q :=
  let '(neg, body) := strip_sign s in
  let '(mant, exp) :=
    break_at (fun c => char_eqb c "e" || char_eqb c "E") body in
  let '(ip, fp) := break_at (fun c => char_eqb c ".") mant in
  let fp := match fp with Some f => f | None => EmptyString end in
  match (ip ++ fp)%string with
  | EmptyString => None
  | ds =>
      match digits_value ds 0,
            match exp with
            | None => Some 0
            | Some e => int_literal e
            end with
      | Some m, Some e =>
          let m := if neg then - m else m in
          let scale := e - Z.of_nat (String.length fp) in
          Some (if 0 <=? scale then Qmake (m * 10 ^ scale) 1
                else Qmake m (Z.to_pos (10 ^ (- scale))))
      | _, _ => None
      end
  end.

(** [float(s)] when the result is finite, [None] otherwise. *)
Definition float_of_string (s : string) : option Q :=
  match strip_underscores s with
  | Some s' => float_literal s'
  | None => None
  end.

Definition lower_char (c : ascii) : ascii :=
  let n := nat_of_ascii c in
  if ((65 <=? n) && (n <=? 90))%nat then ascii_of_nat (n + 32) else c.

Fixpoint lower (s : string) : string :=
  match s with
  | EmptyString => EmptyString
  | String c s' => String (lower_char c) (lower s')
  end.

(** [float(s)] when [s] spells an infinity or NaN: [inf], [infinity] or
    [nan] in any case, behind an optional sign. *)
Definition special_of_string (s : string) : option special :=
  let '(neg, body) := strip_sign s in
  let l := lower body in
  if String.eqb l "inf" || String.eqb l "infinity"
  then Some (if neg then NegInf else PosInf)
  else if String.eqb l "nan" then Some NaN
  else None.

(** [str(x)] for the floats that denote no rational. *)
Definition special_repr (x : special) : string :=
  match x with
  | NaN => "nan"
  | PosInf => "inf"
  | NegInf => "-inf"
  end.

(** [a[0] + a[1:].replace(x, y)] *)
Definition replace_after_first (x y : ascii) (a : string) : result string :=
  match a with
  | EmptyString => Raise IndexError
  | String c r => Ok (String c (replace_char x y r))
  end.

(** [atomize(token)], on Python 3 (where [str] has no [decode]). *)
Definition atomize (token : string) : result obj :=
  match token with
  | EmptyString => Raise IndexError
  | String c0 r =>
      if char_eqb c0 quote
      then Ok (OStr (take (String.length r - 1) r))            (* token[1:-1] *)
      else if String.eqb token "null" then Ok ONone
      else
        match int_of_string token with
        | Some z => Ok (OInt z)
        | None =>
            match float_of_string token with
            | Some q => Ok (OFloat q)
            | None =>
                match special_of_string token with
                | Some x => Ok (OSpecial x)
                | None =>
                    token <- replace_after_first "-" "_" token ;;
                    if String.eqb (take 2 token) "#:"
                    then Ok (OKey (drop 2 token))
                    else Ok (OSym token)
                end
            end
        end
  end.

(** ** Parser *)

(** [read_from_tokens] consumes the token list from the front and returns
    the expression read with the tokens left.  [read_items] is its [while]
    loop.  Every call consumes a token; [fuel] bounds the recursion and
    [None] is returned only when it runs out. *)
Fixpoint read_from_tokens (fuel : nat) (token_list : list string)
  : option (result (obj * list string)) :=
  match fuel with
  | O => None
  | S fuel' =>
      match token_list with
      | [] => Some (Raise SyntaxError)           (* unexpected EOF *)
      | token :: rest =>
          if String.eqb token "(" then read_items fuel' rest []
          else if String.eqb token ")" then Some (Raise SyntaxError)
          else Some (a <- atomize token ;; Ok (a, rest))
      end
  end
with read_items (fuel : nat) (token_list : list string) (nested_list : list obj)
  : option (result (obj * list string)) :=
  match fuel with
  | O => None
  | S fuel' =>
      match token_list with
      | [] => Some (Raise IndexError)            (* token_list[0] *)
      | token :: rest =>
          if String.eqb token ")" then Some (Ok (OList nested_list, rest))
          else
            match read_from_tokens fuel' token_list with
            | None => None
            | Some (Raise e) => Some (Raise e)
            | Some (Ok (x, token_list')) =>
                read_items fuel' token_list' (nested_list ++ [x])
            end
      end
  end.

(** Enough fuel for any token list of that length. *)
Definition parse_fuel (token_list : list string) : nat :=
  (2 * List.length token_list + 2)%nat.

Definition parse (cmd : string) : option (result obj) :=
  match tokenize cmd with
  | Raise e => Some (Raise e)
  | Ok token_list =>
      match read_from_tokens (parse_fuel token_list) token_list with
      | None => None
      | Some r => Some (' (x, _) <- r ;; Ok x)
      end
  end.

(** ** Serializer *)

Section Serializer.

(** [str(x)] for a float [x]: the formatting of floats belongs to the
    Python run time and is taken as given. *)
Variable float_repr : Q -> string.

(** [str(z)] for an integer [z], whatever its size. *)
Definition string_of_Z (z : Z) : string :=
  DecimalString.NilZero.string_of_int (Z.to_int z).

Definition deatomize (a : obj) : result string :=
  match a with
  | ONone => Ok "null"
  | OSym s => replace_after_first "_" "-" s
  | OKey s => ret <- replace_after_first "_" "-" s ;; Ok ("#:" ++ ret)
  | OStr s => Ok (String quote s ++ String quote EmptyString)
  | OInt z => Ok (string_of_Z z)
  | OFloat q => Ok (float_repr q)
  | OSpecial x => Ok (special_repr x)
  | _ => Raise ValueError
  end.

(** [write_to_tokens]: [tokens_of] is the body of its loop for one
    element, a nested list being written recursively.  (The label list as
    an element is a list of records, at the first of which [deatomize]
    raises [ValueError]; the empty label list is outside the model.) *)
Fixpoint tokens_of (t : obj) : result (list string) :=
  match t with
  | OList l =>
      body <- (fix go (l : list obj) : result (list string) :=
                 match l with
                 | [] => Ok []
                 | x :: r =>
                     a <- tokens_of x ;; b <- go r ;; Ok (a ++ b)%list
                 end) l ;;
      Ok ("(" :: body ++ [")"])%list
  | _ => tok <- deatomize t ;; Ok [tok]
  end.

Definition write_to_tokens (ntl : list obj) : result (list string) :=
  tokens_of (OList ntl).

(** The loop of [detokenize]. *)
Fixpoint detokenize_loop (cmd : string) (tokens : list string) : result string :=
  match tokens with
  | [] => Ok cmd
  | t :: rest =>
      sep <- (if String.eqb t ")" then Ok false
              else c <- of_option IndexError (last_char cmd) ;;
                   Ok (negb (char_eqb c lparen))) ;;
      let cmd := if sep then cmd ++ " " else cmd in
      detokenize_loop (cmd ++ t) rest
  end.

Definition detokenize (token_list : list string) : result string :=
  match token_list with
  | [] => Raise IndexError
  | cmd :: rest => detokenize_loop cmd rest
  end.

(** The characters of a string, one-character plain strings, as the
    loop [for t in ntl] reads them off a string. *)
Fixpoint characters (s : string) : list obj :=
  match s with
  | EmptyString => []
  | String c s' => OStr (String c EmptyString) :: characters s'
  end.

(** [deparse(s_expr)].  The loop of [write_to_tokens] runs over
    [s_expr], which for a stored command is a list; over a string it
    runs over its characters and over a dictionary over its keys; a
    number, null, a primitive and [dict] cannot be iterated.  The label
    list is a list of records, which [deatomize] refuses (the empty label
    list, which would be written as an empty list, is outside the
    model). *)
Definition deparse (s_expr : obj) : result string :=
  match s_expr with
  | OList ntl => toks <- write_to_tokens ntl ;; detokenize toks
  | OStr s | OSym s | OKey s =>
      toks <- write_to_tokens (characters s) ;; detokenize toks
  | ODict d =>
      toks <- write_to_tokens (map OStr (dict_keys d)) ;; detokenize toks
  | OLabels => Raise ValueError
  | _ => Raise TypeError
  end.

End Serializer.

(** ** Persistence and the context manager

    The file system is a dictionary from file names to contents.  Opening
    a file for writing creates or truncates it; input/output failures of
    the platform are outside the model. *)

Definition file_system := Py.dict string.

Definition world : Type := CorrectionStack * file_system.

Definition newline : string := String (ascii_of_nat 10) EmptyString.

Section Persistence.

Variable float_repr : Q -> string.

(** [yaml.safe_dump({'uuid': ..., 'label_hash': ...},
    default_flow_style=False)], from the YAML library. *)
Variable yaml_dump : string -> string -> string.

Definition with_file (cs : CorrectionStack) (f : string) : CorrectionStack :=
  mk_stack (cs_labels cs) (undo_stack cs) (redo_stack cs) f (cs_uuid cs)
           (label_hash cs).

(** [fp.write(s)] appends to the file opened under [name]. *)
Definition fs_write (fs : file_system) (name s : string) : file_system :=
  match dict_get fs name with
  | Some old => dict_set fs name (old ++ s)
  | None => dict_set fs name s
  end.

(** [for op in self.undo_stack: fp.write(deparse(op) + '\n')] *)
Fixpoint write_ops (ops : list obj) (name : string) (fs : file_system)
  : result unit * file_system :=
  match ops with
  | [] => (Ok tt, fs)
  | op :: rest =>
      match deparse float_repr op with
      | Raise e => (Raise e, fs)
      | Ok line => write_ops rest name (fs_write fs name (line ++ newline))
      end
  end.

Definition metadata_header : string :=
  "# corrections metadata, YAML syntax" ++ newline ++ "---" ++ newline.

(** The text of the metadata file. *)
Definition metadata_text (cs : CorrectionStack) : string :=
  metadata_header ++ yaml_dump (cs_uuid cs) (label_hash cs).

Definition write_to_file (file : option string) (w : world)
  : result unit * world :=
  let '(cs, fs) := w in
  let cs := match file with
            | Some (String c f) => with_file cs (String c f)
            | _ => cs                      (* None or an empty name *)
            end in
  let fs := dict_set fs (cs_file cs) EmptyString in
  match write_ops (undo_stack cs) (cs_file cs) fs with
  | (Raise e, fs) => (Raise e, (cs, fs))
  | (Ok _, fs) =>
      let md := cs_file cs ++ ".yaml" in
      let fs := dict_set fs md EmptyString in
      let fs := fs_write fs md metadata_header in
      let fs := fs_write fs md (yaml_dump (cs_uuid cs) (label_hash cs)) in
      (Ok tt, (cs, fs))
  end.



(** The text of the operations file: one serialized command per line. *)
Fixpoint ops_text (ops : list obj) : result string :=
  match ops with
  | [] => Ok EmptyString
  | op :: rest =>
      line <- deparse float_repr op ;;
      more <- ops_text rest ;;
      Ok (line ++ newline ++ more)
  end.

End Persistence.

(** ** Specification-side readings used in the statements below *)

(** The loop over the argument pairs of [evaluate], as a function of its
    own (the evaluator runs exactly this loop on the elements after the
    head of a form). *)
Fixpoint eval_pairs (ps : list obj) (acc : kwargs_acc) (L : labels)
    {struct ps} : result kwargs_acc * labels :=
  match ps with
  | [] => (Ok acc, L)
  | [k] =>
      match add_kwarg acc k ONone with
      | Raise e => (Raise e, L)
      | Ok acc' => (Ok acc', L)
      end
  | k :: v :: rest =>
      match evaluate v L with
      | (Raise e, L') => (Raise e, L')
      | (Ok x, L') =>
          match add_kwarg acc k x with
          | Raise e => (Raise e, L')
          | Ok acc' => eval_pairs rest acc' L'
          end
      end
  end.

(** An object that [evaluate] returns as it is. *)
Definition self_evaluating (o : obj) : bool :=
  match o with
  | OSym _ | OKey _ | OList _ | OLabels => false
  | _ => true
  end.

Definition is_str (o : obj) : bool :=
  match str_of o with
  | Some _ => true
  | None => false
  end.

(** The elements in value position evaluate to themselves. *)
Fixpoint values_self_evaluating (args : list obj) : bool :=
  match args with
  | _ :: v :: rest => self_evaluating v && values_self_evaluating rest
  | _ => true
  end.

(** The elements in key position are strings of some kind. *)
Fixpoint keys_are_strings (args : list obj) : bool :=
  match args with
  | [] => true
  | [k] => is_str k
  | k :: _ :: rest => is_str k && keys_are_strings rest
  end.

(** The keyword dictionary read off the pairs, for string keys. *)
Fixpoint kwargs_of (args : list obj) (acc : Py.dict obj) : Py.dict obj :=
  match args with
  | [] => acc
  | [k] =>
      match str_of k with
      | Some s => dict_set acc s ONone
      | None => acc
      end
  | k :: v :: rest =>
      match str_of k with
      | Some s => kwargs_of rest (dict_set acc s v)
      | None => kwargs_of rest acc
      end
  end.

(** What the split writes into the record being split: the [new_<f>]
    values that are not [new_next_<f>] values. *)
Definition apply_new (kwargs : Py.dict obj) (r : record) : record :=
  fold_left
    (fun acc kv =>
       if negb (String.eqb (take 9 (fst kv)) "new_next_")
          && String.eqb (take 4 (fst kv)) "new_"
       then dict_set acc (drop 4 (fst kv)) (snd kv) else acc)
    kwargs r.

(** What the split writes into the clone: the [new_next_<f>] values. *)
Definition apply_new_next (kwargs : Py.dict obj) (r : record) : record :=
  fold_left
    (fun acc kv =>
       if String.eqb (take 9 (fst kv)) "new_next_"
       then dict_set acc (drop 9 (fst kv)) (snd kv) else acc)
    kwargs r.

(** ** Example data *)

Definition interval (start stop : Q) (name : string) : record :=
  [("start", OFloat start); ("stop", OFloat stop); ("name", OStr name)].

(** The label sequence of the test suite. *)
Definition TEST_LABELS : labels :=
  [ interval 1 (21 # 10) "a"; interval (21 # 10) (35 # 10) "b";
    interval (35 # 10) (42 # 10) "c"; interval (47 # 10) 5 "d" ].

(** Two adjacent intervals, the first of which is named [stop]. *)
Definition STOP_LABELS : labels :=
  [ interval 1 (21 # 10) "stop"; interval (21 # 10) (35 # 10) "b" ].

Definition fresh_stack (L : labels) : CorrectionStack :=
  mk_stack L [] [] "ops.corr" "uuid" "hash".

(** [codegen_rename(0, 'q')] on the test labels. *)
Definition RENAME_CMD : list obj :=
  [OSym "set_name"; OKey "labels"; OSym "labels"; OKey "target";
   OList [OSym "interval"; OKey "index"; OInt 0; OKey "name"; OStr "a"];
   OKey "new_name"; OStr "q"].

(** [codegen_merge_next(0)] on [STOP_LABELS]. *)
Definition MERGE_STOP_CMD : list obj :=
  [OSym "merge_next"; OKey "labels"; OSym "labels"; OKey "target";
   OList [OSym "interval_pair"; OKey "index"; OInt 0;
          OKey "name"; OStr "stop"; OKey "stop"; OFloat (21 # 10);
          OKey "next_start"; OFloat (21 # 10); OKey "next_name"; OStr "b"];
   OKey "new_name"; OStr "stopb"; OKey "new_stop"; ONone;
   OKey "new_next_start"; ONone; OKey "new_next_name"; ONone].

(** What inverting [MERGE_STOP_CMD] twice returns. *)
Definition MERGE_STOP_TWICE : list obj :=
  [OSym "merge_next"; OKey "labels"; OSym "labels"; OKey "target";
   OList [OSym "interval_pair"; OKey "index"; OInt 0;
          OKey "name"; OStr "stop"; OFloat (21 # 10); ONone;
          OKey "next_start"; OFloat (21 # 10); OKey "next_name"; OStr "b"];
   OKey "new_name"; OStr "stopb"; OKey "new_stop"; OKey "stop";
   OKey "new_next_start"; ONone; OKey "new_next_name"; ONone].

(** [codegen_delete(3)] on the test labels, and its inverse. *)
Definition DELETE_CMD : list obj :=
  [OSym "delete"; OKey "labels"; OSym "labels"; OKey "target";
   OList [OSym "interval"; OKey "index"; OInt 3; OKey "start";
          OFloat (47 # 10); OKey "stop"; OFloat 5; OKey "name"; OStr "d"]].

Definition CREATE_CMD : list obj :=
  OSym "create" :: tl DELETE_CMD.

(** [codegen_rename(0, 'a)')] on the test labels, its text, and what the
    parser reads back. *)
Definition RENAME_PAREN_CMD : list obj :=
  [OSym "set_name"; OKey "labels"; OSym "labels"; OKey "target";
   OList [OSym "interval"; OKey "index"; OInt 0; OKey "name"; OStr "a"];
   OKey "new_name"; OStr "a)"].

Definition quoted (s : string) : string :=
  String quote s ++ String quote EmptyString.

Definition RENAME_PAREN_TEXT : string :=
  "(set-name #:labels labels #:target (interval #:index 0 #:name "
  ++ quoted "a" ++ ") #:new-name " ++ quoted "a)" ++ ")".

Definition RENAME_PAREN_READ : list obj :=
  [OSym "set_name"; OKey "labels"; OSym "labels"; OKey "target";
   OList [OSym "interval"; OKey "index"; OInt 0; OKey "name"; OStr "a"];
   OKey "new_name"; OStr "a"].

(** What [invert(RENAME_CMD)] returns, which is also what it leaves in
    [RENAME_CMD] (the paired operation of [set_name] is [set_name]). *)
Definition RENAME_INVERTED : list obj :=
  [OSym "set_name"; OKey "labels"; OSym "labels"; OKey "target";
   OList [OSym "interval"; OKey "index"; OInt 0; OKey "name"; OStr "q"];
   OKey "new_name"; OStr "a"].

(** [STOP_LABELS] after the two intervals are merged by [MERGE_STOP_CMD]. *)
Definition STOP_MERGED : labels :=
  [ interval 1 (35 # 10) "stopb" ].

(** The split of the test suite: the last test label, [{4.7, 5.0, "d"}],
    split at [4.8] (accepted) and at [1.0] (refused). *)
Definition SPLIT_TARGET : Py.dict obj := [("index", OInt 3)].

Definition split_kwargs (sep : Q) : Py.dict obj :=
  [("new_name", OStr "d"); ("new_stop", OFloat sep);
   ("new_next_start", OFloat sep); ("new_next_name", OStr "e")].

Definition TEST_LABELS_SPLIT : labels :=
  [ interval 1 (21 # 10) "a"; interval (21 # 10) (35 # 10) "b";
    interval (35 # 10) (42 # 10) "c";
    interval (47 # 10) (48 # 10) "d"; interval (48 # 10) 5 "e" ].

(** A token, or a word of the command text, is never empty. *)
Definition nonempty (w : string) : Prop := w <> EmptyString.

(** A command text whose quoted region is opened and never closed. *)
Definition UNCLOSED_TEXT : string := String quote "abc def".

(** A stack holding the rename command, and stand-ins for the two
    formatting functions of the run time. *)
Definition RENAME_STACK : CorrectionStack :=
  with_stacks (fresh_stack TEST_LABELS) [OList RENAME_CMD] [].

Definition sample_float_repr (q : Q) : string := "0.0".

Definition sample_yaml_dump (uuid hash : string) : string :=
  "label_hash: " ++ hash ++ newline ++ "uuid: " ++ uuid ++ newline.

(** [codegen_merge_next(0, new_name='ab')] on the test labels, and the
    labels once the first two intervals are merged. *)
Definition MERGE_CMD : list obj :=
  [OSym "merge_next"; OKey "labels"; OSym "labels"; OKey "target";
   OList [OSym "interval_pair"; OKey "index"; OInt 0;
          OKey "name"; OStr "a"; OKey "stop"; OFloat (21 # 10);
          OKey "next_start"; OFloat (21 # 10); OKey "next_name"; OStr "b"];
   OKey "new_name"; OStr "ab"; OKey "new_stop"; ONone;
   OKey "new_next_start"; ONone; OKey "new_next_name"; ONone].

Definition TEST_LABELS_MERGED : labels :=
  [ interval 1 (35 # 10) "ab";
    interval (35 # 10) (42 # 10) "c"; interval (47 # 10) 5 "d" ].

(** The target of the creation test of the test suite. *)
Definition CREATE_TARGET : Py.dict obj :=
  [("index", OInt 2); ("start", OFloat (31 # 10)); ("stop", OFloat (33 # 10));
   ("name", OStr "c2"); ("tier", OStr "female")].

(** The values of a dictionary evaluate to themselves (numbers, strings,
    null: what label records and generated commands hold). *)
Definition plain_values (d : Py.dict obj) : Prop :=
  Forall (fun kv => self_evaluating (snd kv) = true) d.

(** The command built by [codegen_rename], [codegen_set_start] and
    [codegen_set_stop] for the field [column] holding [old]. *)
Definition set_command (column : string) (index : Z) (old new : obj) : list obj :=
  _gen_code ("set_" ++ column) "interval"
    [("index", OInt index); (column, old)] [("new_" ++ column, new)].

(** ** The operations of the stack

    Each builds its command with the matching code generator and pushes
    it; when the generator raises, nothing has been pushed. *)

Definition push_generated (c : result (list obj)) : method obj :=
  fun cs =>
  match c with
  | Raise e => (Raise e, cs)
  | Ok cmd => push (OList cmd) cs
  end.

Definition rename (index : Z) (new_name : obj) : method obj :=
  fun cs => push_generated (codegen_rename (cs_labels cs) index new_name) cs.

Definition set_start (index : Z) (new_start : obj) : method obj :=
  fun cs => push_generated (codegen_set_start (cs_labels cs) index new_start) cs.

Definition set_stop (index : Z) (new_stop : obj) : method obj :=
  fun cs => push_generated (codegen_set_stop (cs_labels cs) index new_stop) cs.

Definition merge_next (index : Z) (new_name : obj) : method obj :=
  fun cs => push_generated (codegen_merge_next (cs_labels cs) index new_name) cs.

Definition split_interval (index : Z) (new_sep new_name new_next_name : obj)
  : method obj :=
  fun cs =>
  push_generated
    (codegen_split (cs_labels cs) index new_sep new_name new_next_name []) cs.

Definition delete (index : Z) : method obj :=
  fun cs => push_generated (codegen_delete (cs_labels cs) index) cs.

Definition create (index : Z) (start : obj) (kwargs : Py.dict obj) : method obj :=
  fun cs => push_generated (codegen_create index start kwargs) cs.

(** Test labels that carry an extra field. *)
Definition tiered (start stop : Q) (name tier : string) : record :=
  [("start", OFloat start); ("stop", OFloat stop); ("name", OStr name);
   ("tier", OStr tier)].

Definition TIER_LABELS : labels :=
  [ tiered 1 (21 # 10) "a" "female"; tiered (21 # 10) (35 # 10) "b" "male" ].

(** The loop of [write_to_tokens] over the elements of a list, as a
    function of its own. *)
Section TokensOfList.

Variable float_repr : Q -> string.

Fixpoint tokens_of_list (l : list obj) : result (list string) :=
  match l with
  | [] => Ok []
  | x :: r =>
      a <- tokens_of float_repr x ;;
      b <- tokens_of_list r ;;
      Ok (a ++ b)%list
  end.

End TokensOfList.

(** An atom that the atom codec writes to a token other than a
    parenthesis and reads back unchanged. *)
Definition atom_round_trips (float_repr : Q -> string) (a : obj) : Prop :=
  exists token,
    deatomize float_repr a = Ok token /\
    token <> "(" /\ token <> ")" /\
    atomize token = Ok a.

(** A tree all of whose atoms do. *)
Fixpoint round_trips (float_repr : Q -> string) (t : obj) : Prop :=
  match t with
  | OList l =>
      (fix all (l : list obj) : Prop :=
         match l with
         | [] => True
         | x :: r => round_trips float_repr x /\ all r
         end) l
  | _ => atom_round_trips float_repr t
  end.

(** A stack whose second command holds a dictionary, which [deatomize]
    cannot write. *)
Definition UNWRITABLE_STACK : CorrectionStack :=
  with_stacks (fresh_stack TEST_LABELS)
    [OList RENAME_CMD; OList [OSym "delete"; ODict []]; OList DELETE_CMD] [].

(** The commands on a pair of intervals.  [merge_shape] lists the target
    fields in the order of [codegen_merge_next], [split_shape] in the
    order of [codegen_split]; [a b c d] are the target values of [name],
    [stop], [next_start], [next_name] and [w x y z] the values of
    [new_name], [new_stop], [new_next_start], [new_next_name]. *)
Definition merge_shape (op : string) (index : Z) (a b c d w x y z : obj)
  : list obj :=
  _gen_code op "interval_pair"
    [("index", OInt index); ("name", a); ("stop", b);
     ("next_start", c); ("next_name", d)]
    [("new_name", w); ("new_stop", x); ("new_next_start", y);
     ("new_next_name", z)].

Definition split_shape (op : string) (index : Z) (a b c d w x y z : obj)
  : list obj :=
  _gen_code op "interval_pair"
    [("index", OInt index); ("name", a); ("stop", b);
     ("next_name", d); ("next_start", c)]
    [("new_name", w); ("new_stop", x); ("new_next_start", y);
     ("new_next_name", z)].

(** A value that evaluates to itself and that is not the text of one of
    the field names [invert] looks up after [name]. *)
Definition pair_value (v : obj) : Prop :=
  self_evaluating v = true /\
  eq_str v "stop" = false /\ eq_str v "next_start" = false /\
  eq_str v "next_name" = false.

(** A record with the three mandatory fields only. *)
Definition record3 (start stop name : obj) : record :=
  [("start", start); ("stop", stop); ("name", name)].

(** The command of [codegen_create] for an interval given by its start,
    stop and name, and its inverse (the head [op] is [create] or
    [delete]). *)
Definition create_shape (op : string) (index : Z) (start stop name : obj)
  : list obj :=
  _gen_code op "interval"
    [("index", OInt index); ("start", start); ("stop", stop); ("name", name)] [].

(** The command of [codegen_create] called with an index and a start
    only, and its inverse. *)
Definition create_bare (op : string) (index : Z) (start : obj) : list obj :=
  _gen_code op "interval" [("index", OInt index); ("start", start)] [].

(** ** Words of a command text

    [detokenize] writes an opening parenthesis together with the token
    that follows it and a closing parenthesis together with what precedes
    it; the text of a command is then a sequence of words separated by
    single spaces.  A word is an atom, an atom behind an opening
    parenthesis, or an atom followed by closing parentheses. *)

Fixpoint all_chars (p : ascii -> bool) (s : string) : bool :=
  match s with
  | EmptyString => true
  | String c s' => p c && all_chars p s'
  end.

(** A token that [cmd.split()] and the parenthesis pass of [tokenize]
    leave whole: not empty, made of ASCII characters other than white
    space and parentheses, and with an even number of double quotes. *)
Definition clean_char (c : ascii) : bool :=
  (nat_of_ascii c <? 128)%nat
  && negb (is_space c || char_eqb c lparen || char_eqb c rparen).

Definition clean (token : string) : bool :=
  match token with
  | EmptyString => false
  | _ => all_chars clean_char token && Nat.even (count_char quote token)
  end.

Fixpoint parens (n : nat) : string :=
  match n with
  | O => EmptyString
  | S n' => String rparen (parens n')
  end.

Inductive word : Type :=
| WOpen (a : string)              (* an atom behind an opening parenthesis *)
| WPlain (a : string)             (* an atom *)
| WClose (a : string) (k : nat).  (* an atom and k + 1 closing parentheses *)

Definition word_atom (w : word) : string :=
  match w with WOpen a | WPlain a | WClose a _ => a end.

Definition word_tokens (w : word) : list string :=
  match w with
  | WOpen a => ["("; a]
  | WPlain a => [a]
  | WClose a k => a :: repeat ")" (S k)
  end.

Definition word_text (w : word) : string :=
  match w with
  | WOpen a => String lparen a
  | WPlain a => a
  | WClose a k => a ++ parens (S k)
  end.

Definition tokens_of_words (ws : list word) : list string :=
  flat_map word_tokens ws.

(** The words joined by single spaces. *)
Fixpoint unwords (ws : list string) : string :=
  match ws with
  | [] => EmptyString
  | [w] => w
  | w :: r => w ++ " " ++ unwords r
  end.

(** One more closing parenthesis behind the last word. *)
Definition close_word (w : word) : word :=
  match w with
  | WOpen a => WOpen a
  | WPlain a => WClose a 0
  | WClose a k => WClose a (S k)
  end.

Fixpoint close_last (ws : list word) : list word :=
  match ws with
  | [] => []
  | [w] => [close_word w]
  | w :: r => w :: close_last r
  end.

(** The last word is not an opening one. *)
Fixpoint ends_closed (ws : list word) : bool :=
  match ws with
  | [] => false
  | [w] => match w with WOpen _ => false | _ => true end
  | _ :: r => ends_closed r
  end.

Section Storable.

Variable float_repr : Q -> string.

(** An atom that is written to a clean token and read back unchanged. *)
Definition atom_storable (a : obj) : Prop :=
  exists token,
    deatomize float_repr a = Ok token /\ clean token = true /\
    atomize token = Ok a.

(** A command tree in which every list starts with an atom and has at
    least two elements, and every atom is storable: the commands of the
    code generators have this shape. *)
Fixpoint storable (t : obj) : Prop :=
  match t with
  | OList l =>
      match l with
      | OList _ :: _ => False
      | _ :: _ :: _ => True
      | _ => False
      end /\
      (fix all (l : list obj) : Prop :=
         match l with
         | [] => True
         | x :: r => storable x /\ all r
         end) l
  | _ => atom_storable t
  end.

End Storable.

(** A word without white space. *)
Definition spaceless (s : string) : bool :=
  all_chars (fun c => negb (is_space c)) s.

(** Each word behind a space. *)
Fixpoint spaced (ws : list string) : string :=
  match ws with
  | [] => EmptyString
  | w :: r => " " ++ w ++ spaced r
  end.

(** The text written so far does not end with an opening parenthesis. *)
Definition ends_ok (cmd : string) : Prop :=
  exists c, last_char cmd = Some c /\ char_eqb c lparen = false.

(** The tokens of a tree are those of a sequence of clean words that does
    not end with an opening one. *)
Definition written (toks : list string) (ws : list word) : Prop :=
  toks = tokens_of_words ws /\
  Forall (fun w => clean (word_atom w) = true) ws /\
  ends_closed ws = true.

(** What a clean token gives the three passes. *)
Record clean_facts (a : string) : Prop := {
  cf_nonempty : a <> EmptyString;
  cf_spaceless : all_chars (fun c => negb (is_space c)) a = true;
  cf_no_lparen : count_char lparen a = 0%nat;
  cf_no_rparen : count_char rparen a = 0%nat;
  cf_quotes : Nat.even (count_char quote a) = true;
  cf_first : forall c r, a = String c r -> char_eqb c lparen = false;
  cf_last : forall c, last_char a = Some c ->
                      char_eqb c lparen = false /\ char_eqb c rparen = false;
  cf_not_close : String.eqb a ")" = false;
  cf_not_open : String.eqb a "(" = false
}.

(** A label name whose quoted token is clean. *)
Definition clean_name (s : string) : bool :=
  all_chars clean_char s && Nat.even (count_char quote s).

(** ** Reading the operations file

    Iterating over a file opened with [codecs.open] yields its lines with
    their line ends, a line ending where [str.splitlines] ends one: for
    ASCII text after a line feed, a carriage return (with the line feed
    that follows it, if any), a vertical tab, a form feed or one of the
    separators 28 to 30. *)

Definition is_line_end (c : ascii) : bool :=
  let n := nat_of_ascii c in
  ((10 <=? n) && (n <=? 13) || (28 <=? n) && (n <=? 30))%nat.

Fixpoint lines_from (cur : string) (s : string) : list string :=
  match s with
  | EmptyString => match cur with EmptyString => [] | _ => [cur] end
  | String c s' =>
      if is_line_end c then
        match s' with
        | String c' s'' =>
            if char_eqb c (ascii_of_nat 13) && char_eqb c' (ascii_of_nat 10)
            then (cur ++ String c (String c' EmptyString)) :: lines_from EmptyString s''
            else (cur ++ String c EmptyString) :: lines_from EmptyString s'
        | EmptyString => [cur ++ String c EmptyString]
        end
      else lines_from (cur ++ String c EmptyString) s'
  end.

Definition file_lines (text : string) : list string :=
  lines_from EmptyString text.

(** [s.strip()] *)
Fixpoint lstrip (s : string) : string :=
  match s with
  | EmptyString => EmptyString
  | String c s' => if is_space c then lstrip s' else s
  end.

Fixpoint rstrip (s : string) : string :=
  match s with
  | EmptyString => EmptyString
  | String c s' =>
      match rstrip s' with
      | EmptyString => if is_space c then EmptyString else String c EmptyString
      | r => String c r
      end
  end.

Definition strip (s : string) : string := rstrip (lstrip s).

(** What [yaml.safe_load] makes of the text of the metadata file: it
    raises, or returns a mapping (here with string values, as
    [write_to_file] stores them), or returns another YAML value. *)
Inductive yaml_value : Type :=
| YError
| YMap (d : Py.dict string)
| YOther.

(** How [read_from_file] ends: it returns, raises one of the exceptions
    of the module, fails to open a file, or the YAML library raises. *)
Inductive read_result : Type :=
| ReadOk
| ReadRaise (e : exn)
| ReadOSError
| ReadYAMLError.

(** [parse(op.strip())]; [parse] always returns (see [parse_returns]),
    the last case does not occur. *)
Definition parse_line (op : string) : result obj :=
  match parse (strip op) with
  | Some r => r
  | None => Raise SyntaxError
  end.

(** The loop [for op in fp] of [read_from_file]. *)
Fixpoint read_ops (apply : bool) (lines : list string) (cs : CorrectionStack)
  : result unit * CorrectionStack :=
  match lines with
  | [] => (Ok tt, cs)
  | op :: rest =>
      if String.eqb op newline then read_ops apply rest cs
      else
        let applied :=
          if apply then
            match parse_line op with
            | Raise e => (Raise e, cs)
            | Ok cmd =>
                match _apply cmd cs with
                | (Raise e, cs1) => (Raise e, cs1)
                | (Ok _, cs1) => (Ok tt, cs1)
                end
            end
          else (Ok tt, cs) in
        match applied with
        | (Raise e, cs1) => (Raise e, cs1)
        | (Ok _, cs1) =>
            match parse_line op with
            | Raise e => (Raise e, cs1)
            | Ok cmd =>
                read_ops apply rest
                  (with_stacks cs1 (undo_stack cs1 ++ [cmd]) (redo_stack cs1))
            end
        end
  end.

Section Loading.

(** [yaml.safe_load], from the YAML library. *)
Variable yaml_load : string -> yaml_value.

Definition with_metadata (cs : CorrectionStack) (uuid hash : string)
  : CorrectionStack :=
  mk_stack (cs_labels cs) (undo_stack cs) (redo_stack cs) (cs_file cs) uuid hash.

Definition read_from_file (file : option string) (apply : bool) (w : world)
  : read_result * world :=
  let '(cs, fs) := w in
  let cs := match file with
            | Some (String c f) => with_file cs (String c f)
            | _ => cs                      (* None or an empty name *)
            end in
  match dict_get fs (cs_file cs) with
  | None => (ReadOSError, (cs, fs))
  | Some text =>
      match read_ops apply (file_lines text) (with_stacks cs [] []) with
      | (Raise e, cs) => (ReadRaise e, (cs, fs))
      | (Ok _, cs) =>
          match dict_get fs (cs_file cs ++ ".yaml") with
          | None => (ReadOSError, (cs, fs))
          | Some text =>
              match yaml_load text with
              | YError => (ReadYAMLError, (cs, fs))
              | YOther => (ReadRaise TypeError, (cs, fs))
              | YMap file_data =>
                  match dict_get file_data "uuid" with
                  | None => (ReadRaise KeyError, (cs, fs))
                  | Some uuid =>
                      let cs := with_metadata cs uuid (label_hash cs) in
                      match dict_get file_data "label_hash" with
                      | None => (ReadRaise KeyError, (cs, fs))
                      | Some hash =>
                          (ReadOk, (with_metadata cs (cs_uuid cs) hash, fs))
                      end
                  end
              end
          end
      end
  end.

End Loading.

(** The text of a storable command. *)
Definition command_text (text : string) : Prop :=
  exists ws, ws <> [] /\ Forall (fun w => clean (word_atom w) = true) ws /\
             text = unwords (map word_text ws).

(** The lines of an operations file. *)
Fixpoint lines_text (texts : list string) : string :=
  match texts with
  | [] => EmptyString
  | t :: r => t ++ newline ++ lines_text r
  end.

(** Commands that are command lists and storable. *)
Definition storable_command (float_repr : Q -> string) (c : obj) : Prop :=
  exists ntl, c = OList ntl /\ storable float_repr c.

(** A stand-in for [yaml.safe_load] that reads the metadata of the fresh
    stack. *)
Definition sample_yaml_load (text : string) : yaml_value :=
  YMap [("label_hash", "hash"); ("uuid", "uuid")].

(** A character of a blank line: white space that does not end the line. *)
Definition blank_char (c : ascii) : bool :=
  is_space c && negb (is_line_end c).

(** The text of [RENAME_CMD]. *)
Definition RENAME_TEXT : string :=
  "(set-name #:labels labels #:target (interval #:index 0 #:name "
  ++ quoted "a" ++ ") #:new-name " ++ quoted "q" ++ ")".

(** Pushing a list of commands in order, up to the first that raises. *)
Fixpoint push_all (ops : list obj) (cs : CorrectionStack)
  : result unit * CorrectionStack :=
  match ops with
  | [] => (Ok tt, cs)
  | c :: rest =>
      match push c cs with
      | (Raise e, cs1) => (Raise e, cs1)
      | (Ok _, cs1) => push_all rest cs1
      end
  end.

(** The keyword arguments of a split at NaN. *)
Definition SPLIT_NAN_KWARGS : Py.dict obj :=
  [("new_name", OStr "d"); ("new_stop", OSpecial NaN);
   ("new_next_start", OSpecial NaN); ("new_next_name", OStr "e")].

(** A word with an odd number of quote characters: it opens or closes a
    quoted region in the first loop of [tokenize]. *)
Definition odd_quotes (w : string) : bool := Nat.odd (count_char quote w).


(** The values of the pairs, evaluated from left to right; a missing last
    value is null. *)
Fixpoint eval_values (args : list obj) (L : labels)
  : result (list obj) * labels :=
  match args with
  | [] => (Ok [], L)
  | [_] => (Ok [ONone], L)
  | _ :: v :: rest =>
      match evaluate v L with
      | (Raise e, L') => (Raise e, L')
      | (Ok x, L') =>
          match eval_values rest L' with
          | (Raise e, L2) => (Raise e, L2)
          | (Ok xs, L2) => (Ok (x :: xs), L2)
          end
      end
  end.

(** The elements in key position. *)
Fixpoint keys_of (args : list obj) : list obj :=
  match args with
  | [] => []
  | [k] => [k]
  | k :: _ :: rest => k :: keys_of rest
  end.

(** The keyword dictionary of string keys and their values; a later pair
    replaces an earlier one of the same name. *)
Fixpoint keywords (ks vs : list obj) (acc : Py.dict obj) : Py.dict obj :=
  match ks, vs with
  | k :: ks', v :: vs' =>
      match str_of k with
      | Some s => keywords ks' vs' (dict_set acc s v)
      | None => keywords ks' vs' acc
      end
  | _, _ => acc
  end.

(** Objects a dictionary takes as keys. *)
Definition hashable (o : obj) : bool :=
  match o with
  | OList _ | ODict _ | OLabels => false
  | _ => true
  end.

Fixpoint keys_hashable (args : list obj) : bool :=
  match args with
  | [] => true
  | [k] => hashable k
  | k :: _ :: rest => hashable k && keys_hashable rest
  end.

(** What the evaluation of a form gives when the pairs are read with
    [acc] as the keywords so far. *)
Definition pairs_outcome (f : obj) (p : result kwargs_acc * labels)
  : result obj * labels :=
  match p with
  | (Raise e, L2) => (Raise e, L2)
  | (Ok acc, L2) =>
      if acc_bad acc then (Raise TypeError, L2) else call f (acc_items acc) L2
  end.

(** A form with a plain string and a [Symbol] in key position. *)
Definition KEYWORD_FORM : list obj :=
  [OSym "interval"; OStr "index"; OInt 0; OSym "name"; OStr "a"].

(** * Properties *)

(** ** Lists and dictionaries *)

Lemma pop_right_app {A} (l : list A) (x : A) :
  pop_right (l ++ [x]) = Some (x, l).
Proof.
  induction l as [|a l IH]; simpl.
  - reflexivity.
  - rewrite IH. reflexivity.
Qed.

Lemma set_nth_length {A} (l : list A) (n : nat) (x : A) :
  List.length (set_nth l n x) = List.length l.
Proof.
  revert n. induction l as [|a l IH]; intros [|n]; simpl; auto.
Qed.

Lemma set_nth_head {A} (l : list A) (n : nat) (x : A) :
  nth_error (set_nth l (S n) x) 0 = nth_error l 0.
Proof. destruct l; reflexivity. Qed.

Lemma set_nth_tl {A} (l : list A) (n : nat) (x : A) :
  tl (set_nth l (S n) x) = set_nth (tl l) n x.
Proof. destruct l; simpl; [destruct n|]; reflexivity. Qed.

Lemma firstn_set_nth {A} (l : list A) (n : nat) (x : A) :
  (n < List.length l)%nat ->
  firstn (S n) (set_nth l n x) = (firstn n l ++ [x])%list.
Proof.
  revert n. induction l as [|a l IH]; intros [|n] H; simpl in *; try lia.
  - reflexivity.
  - f_equal. apply IH. lia.
Qed.

Lemma skipn_set_nth {A} (l : list A) (n : nat) (x : A) :
  skipn (S n) (set_nth l n x) = skipn (S n) l.
Proof.
  revert n. induction l as [|a l IH]; intros [|n]; try reflexivity.
  exact (IH n).
Qed.

Lemma norm_index_nonneg (len : nat) (i : Z) :
  0 <= i < Z.of_nat len -> norm_index len i = Some (Z.to_nat i).
Proof.
  intros H. unfold norm_index.
  destruct (Z.ltb_spec i 0); [lia|].
  destruct (Z.leb_spec 0 i); [|lia].
  destruct (Z.ltb_spec i (Z.of_nat len)); [|lia].
  reflexivity.
Qed.

Lemma norm_index_out (len : nat) (i : Z) :
  i < - Z.of_nat len \/ Z.of_nat len <= i -> norm_index len i = None.
Proof.
  intros H. unfold norm_index.
  destruct (Z.ltb_spec i 0).
  - destruct (Z.leb_spec 0 (i + Z.of_nat len)); [|reflexivity].
    destruct (Z.ltb_spec (i + Z.of_nat len) (Z.of_nat len)); simpl; [lia|reflexivity].
  - destruct (Z.leb_spec 0 i); [|lia].
    destruct (Z.ltb_spec i (Z.of_nat len)); simpl; [lia|reflexivity].
Qed.

Lemma norm_index_neg (len : nat) (i : Z) :
  - Z.of_nat len <= i < 0 ->
  norm_index len i = Some (Z.to_nat (i + Z.of_nat len)).
Proof.
  intros H. unfold norm_index.
  destruct (Z.ltb_spec i 0); [|lia].
  destruct (Z.leb_spec 0 (i + Z.of_nat len)); [|lia].
  destruct (Z.ltb_spec (i + Z.of_nat len) (Z.of_nat len)); [|lia].
  reflexivity.
Qed.

Lemma dict_get_set_same {V} (d : Py.dict V) (k : string) (v : V) :
  dict_get (dict_set d k v) k = Some v.
Proof.
  induction d as [|[k' v'] d IH]; simpl.
  - rewrite String.eqb_refl. reflexivity.
  - destruct (String.eqb k' k) eqn:E; simpl; rewrite E; auto.
Qed.

Lemma dict_get_set_other {V} (d : Py.dict V) (k k' : string) (v : V) :
  k <> k' -> dict_get (dict_set d k v) k' = dict_get d k'.
Proof.
  intros Hne. induction d as [|[k0 v0] d IH]; simpl.
  - destruct (String.eqb_spec k k'); [contradiction|reflexivity].
  - destruct (String.eqb_spec k0 k) as [->|Hk]; simpl.
    + destruct (String.eqb_spec k k'); [contradiction|reflexivity].
    + rewrite IH. reflexivity.
Qed.

Lemma dict_set_set {V} (d : Py.dict V) (k : string) (v w : V) :
  dict_set (dict_set d k v) k w = dict_set d k w.
Proof.
  induction d as [|[k' v'] d IH]; simpl.
  - rewrite String.eqb_refl. reflexivity.
  - destruct (String.eqb k' k) eqn:E; simpl; rewrite E; [reflexivity|].
    rewrite IH. reflexivity.
Qed.

(** ** The stack methods leave the other fields alone *)

Lemma _apply_stacks (e : obj) (cs : CorrectionStack) :
  undo_stack (snd (_apply e cs)) = undo_stack cs /\
  redo_stack (snd (_apply e cs)) = redo_stack cs.
Proof.
  unfold _apply. destruct (evaluate e (cs_labels cs)) as [r L]. simpl. auto.
Qed.

(** C2 (as amended).  [undo()] on an empty undo stack and [redo()] on an
    empty redo stack raise [IndexError], as their docstrings say, and
    leave the stack object as it was (stacks and labels).  [peek(i)] raises
    [IndexError] when [i] is outside [-len, len); for [-len <= i < 0] it
    returns the entry counted from the right end, and for [0 <= i < len]
    the entry at position [i].  No null value is returned. *)
Theorem stack_bounds_raise_IndexError (cs : CorrectionStack) (i : Z) :
  let len := Z.of_nat (List.length (undo_stack cs)) in
  (undo_stack cs = [] -> undo cs = (Raise IndexError, cs)) /\
  (redo_stack cs = [] -> redo cs = (Raise IndexError, cs)) /\
  (i < - len \/ len <= i -> peek i cs = (Raise IndexError, cs)) /\
  (- len <= i < 0 ->
   exists x, nth_error (undo_stack cs) (Z.to_nat (i + len)) = Some x /\
             peek i cs = (Ok x, cs)) /\
  (0 <= i < len ->
   exists x, nth_error (undo_stack cs) (Z.to_nat i) = Some x /\
             peek i cs = (Ok x, cs)).
Proof.
  intros len. subst len. repeat split.
  - intros H. unfold undo. rewrite H. reflexivity.
  - intros H. unfold redo. rewrite H. reflexivity.
  - intros H. unfold peek, getitem. rewrite (norm_index_out _ _ H). reflexivity.
  - intros H. unfold peek, getitem. rewrite (norm_index_neg _ _ H).
    destruct (nth_error (undo_stack cs) _) as [x|] eqn:E.
    + exists x. split; reflexivity.
    + apply nth_error_None in E. lia.
  - intros H. unfold peek, getitem. rewrite (norm_index_nonneg _ _ H).
    destruct (nth_error (undo_stack cs) _) as [x|] eqn:E.
    + exists x. split; reflexivity.
    + apply nth_error_None in E. lia.
Qed.

(** C2, witness: the bounds at a stack holding one command. *)
Lemma stack_bounds_raise_IndexError_witness :
  redo (with_stacks (fresh_stack TEST_LABELS) [OList RENAME_CMD] [])
  = (Raise IndexError, with_stacks (fresh_stack TEST_LABELS) [OList RENAME_CMD] [])
  /\ peek 1 (with_stacks (fresh_stack TEST_LABELS) [OList RENAME_CMD] [])
     = (Raise IndexError, with_stacks (fresh_stack TEST_LABELS) [OList RENAME_CMD] []).
Proof.
  destruct (stack_bounds_raise_IndexError
              (with_stacks (fresh_stack TEST_LABELS) [OList RENAME_CMD] []) 1)
    as (_ & Hredo & Hpeek & _).
  split.
  - apply Hredo. reflexivity.
  - apply Hpeek. right. simpl. lia.
Defined.

(** C2, counterexample: on a freshly created stack [undo()], [redo()] and
    [peek(0)] all raise [IndexError]. *)
Lemma stack_bounds_counterexample :
  fst (undo (fresh_stack TEST_LABELS)) = Raise IndexError /\
  fst (redo (fresh_stack TEST_LABELS)) = Raise IndexError /\
  fst (peek 0 (fresh_stack TEST_LABELS)) = Raise IndexError /\
  fst (peek (-1) (fresh_stack TEST_LABELS)) <> Ok ONone.
Proof.
  repeat split; try reflexivity. discriminate.
Qed.

(** ** The inverter *)

Lemma invert_step_shape (tpos i : nat) (st st' : inv_state) :
  invert_step tpos st i = Ok st' ->
  List.length (ist_sexpr st') = List.length (ist_sexpr st) /\
  nth_error (ist_sexpr st') 0 = nth_error (ist_sexpr st) 0.
Proof.
  unfold invert_step.
  destruct (ist_read tpos st i) as [curr|e]; cbn [Py.bind Py.of_option]; [|discriminate].
  destruct (is_new_key curr) as [oldname|].
  - destruct (ist_target st) as [| | | s | s | s | l | | | | |]; try discriminate;
      try (destruct (String.index 0 oldname s);
           [destruct (S _ <? String.length s)%nat|]; discriminate).
    destruct (index_str l oldname) as [p|e]; cbn [Py.bind Py.of_option]; [|discriminate].
    destruct (nth_error l (S p)) as [oldval|]; cbn [Py.bind Py.of_option]; [|discriminate].
    destruct (ist_read tpos st (S i)) as [newval|e]; cbn [Py.bind Py.of_option]; [|discriminate].
    intros H. injection H as <-. cbn [ist_sexpr].
    split; [apply set_nth_length | apply set_nth_head].
  - intros H. injection H as <-. auto.
Qed.

Lemma invert_loop_shape (tpos n i : nat) (st st' : inv_state) :
  invert_loop tpos n i st = Ok st' ->
  List.length (ist_sexpr st') = List.length (ist_sexpr st) /\
  nth_error (ist_sexpr st') 0 = nth_error (ist_sexpr st) 0.
Proof.
  revert i st. induction n as [|n IH]; intros i st; cbn [invert_loop].
  - intros H. injection H as <-. auto.
  - destruct (invert_step tpos st i) as [st1|e] eqn:E; cbn [Py.bind Py.of_option]; [|discriminate].
    intros H. apply IH in H. apply invert_step_shape in E.
    destruct H as [H1 H2], E as [E1 E2]. split; congruence.
Qed.

(** C4, at the failing input.  [codegen_merge_next(0)] on two intervals of
    which the first is named [stop] builds [MERGE_STOP_CMD]; inverting it
    twice does not give it back: the second inversion looks the field
    [stop] up with [list.index] and finds the name value [stop] first, so
    it exchanges the key that follows it instead of the stop time. *)
Theorem double_invert_stop_name :
  codegen_merge_next STOP_LABELS 0 ONone = Ok MERGE_STOP_CMD /\
  (r <- invert_value MERGE_STOP_CMD ;; invert_value r) = Ok MERGE_STOP_TWICE /\
  MERGE_STOP_TWICE <> MERGE_STOP_CMD.
Proof.
  repeat split; try reflexivity. discriminate.
Qed.

(** The merge of the first two test labels is pushed, undone and redone:
    the undo restores the two intervals and the redo merges them again. *)
Example push_undo_redo_test_labels :
  codegen_merge_next TEST_LABELS 0 (OStr "ab") = Ok MERGE_CMD /\
  exists s1 s2 s3,
    push (OList MERGE_CMD) (fresh_stack TEST_LABELS) = (Ok ONone, s1) /\
    undo s1 = (Ok ONone, s2) /\
    redo s2 = (Ok ONone, s3) /\
    cs_labels s1 = TEST_LABELS_MERGED /\
    cs_labels s2 = TEST_LABELS /\
    cs_labels s3 = TEST_LABELS_MERGED /\
    undo_stack s3 = [OList MERGE_CMD].
Proof.
  split; [reflexivity|].
  eexists. eexists. eexists.
  split; [vm_compute; reflexivity|].
  split; [vm_compute; reflexivity|].
  split; [vm_compute; reflexivity|].
  repeat split; reflexivity.
Qed.

(** C1, at the failing input.  On [STOP_LABELS] the command of
    [merge_next(0)] is pushed and undone without error, but [redo()] then
    raises [TypeError] (the twice inverted command is damaged, see C4) and
    the labels stay as [undo()] left them, not as [push] left them. *)
Theorem push_undo_redo_stop_name :
  exists s1 s2 s3,
    push (OList MERGE_STOP_CMD) (fresh_stack STOP_LABELS) = (Ok ONone, s1) /\
    undo s1 = (Ok ONone, s2) /\
    redo s2 = (Raise TypeError, s3) /\
    cs_labels s1 = STOP_MERGED /\
    cs_labels s3 = STOP_LABELS /\
    cs_labels s3 <> cs_labels s1.
Proof.
  eexists. eexists. eexists.
  split; [vm_compute; reflexivity|].
  split; [vm_compute; reflexivity|].
  split; [vm_compute; reflexivity|].
  split; [reflexivity|]. split; [reflexivity|].
  vm_compute. discriminate.
Qed.

(** ** Orientation of the stored commands *)






(** ** The evaluator *)

Lemma evaluate_form (head : obj) (args : list obj) (L : labels) :
  evaluate (OList (head :: args)) L =
  match evaluate head L with
  | (Raise e, L1) => (Raise e, L1)
  | (Ok f, L1) =>
      match eval_pairs args {| acc_items := []; acc_bad := false |} L1 with
      | (Raise e, L2) => (Raise e, L2)
      | (Ok acc, L2) =>
          if acc_bad acc then (Raise TypeError, L2)
          else call f (acc_items acc) L2
      end
  end.
Proof. reflexivity. Qed.

Lemma evaluate_self (v : obj) (L : labels) :
  self_evaluating v = true -> evaluate v L = (Ok v, L).
Proof. destruct v; simpl; intros H; try discriminate; reflexivity. Qed.

(** Induction over a list two elements at a time. *)
Lemma pairs_ind {A} (P : list A -> Prop) :
  P [] -> (forall k, P [k]) ->
  (forall k v rest, P rest -> P (k :: v :: rest)) ->
  forall l, P l.
Proof.
  intros H0 H1 H2.
  assert (H : forall l, P l /\ forall x, P (x :: l)).
  { induction l as [|a l [IHa IHb]]; split; auto. }
  intros l. apply H.
Qed.

Lemma add_kwarg_string (acc : kwargs_acc) (k v : obj) (s : string) :
  str_of k = Some s ->
  add_kwarg acc k v = Ok {| acc_items := dict_set (acc_items acc) s v;
                            acc_bad := acc_bad acc |}.
Proof. destruct k; simpl; intros H; try discriminate; injection H as <-; reflexivity. Qed.

Lemma add_kwarg_other (acc : kwargs_acc) (k v : obj) :
  str_of k = None ->
  add_kwarg acc k v = Raise TypeError \/
  add_kwarg acc k v = Ok {| acc_items := acc_items acc; acc_bad := true |}.
Proof. destruct k; simpl; intros H; try discriminate; auto. Qed.

Lemma eval_pairs_strings (args : list obj) :
  forall acc L,
  values_self_evaluating args = true ->
  keys_are_strings args = true ->
  eval_pairs args acc L =
  (Ok {| acc_items := kwargs_of args (acc_items acc); acc_bad := acc_bad acc |}, L).
Proof.
  induction args as [|k|k v rest IH] using pairs_ind; intros acc L Hv Hk.
  - destruct acc; reflexivity.
  - cbn [keys_are_strings] in Hk. unfold is_str in Hk.
    destruct (str_of k) as [s|] eqn:E; [|discriminate].
    cbn [eval_pairs kwargs_of]. rewrite (add_kwarg_string _ _ _ _ E), E. reflexivity.
  - cbn [keys_are_strings values_self_evaluating] in Hk, Hv.
    apply andb_prop in Hk, Hv. destruct Hk as [Hk1 Hk2], Hv as [Hv1 Hv2].
    unfold is_str in Hk1. destruct (str_of k) as [s|] eqn:E; [|discriminate].
    cbn [eval_pairs kwargs_of]. rewrite (evaluate_self _ _ Hv1).
    rewrite (add_kwarg_string _ _ _ _ E), E.
    rewrite (IH _ _ Hv2 Hk2). reflexivity.
Qed.

Lemma eval_pairs_not_strings (args : list obj) :
  forall acc L,
  values_self_evaluating args = true ->
  keys_are_strings args = false \/ acc_bad acc = true ->
  eval_pairs args acc L = (Raise TypeError, L) \/
  exists acc', eval_pairs args acc L = (Ok acc', L) /\ acc_bad acc' = true.
Proof.
  induction args as [|k|k v rest IH] using pairs_ind; intros acc L Hv Hk.
  - destruct Hk as [Hk|Hk]; [discriminate|]. right. exists acc. auto.
  - cbn [eval_pairs]. destruct (str_of k) as [s|] eqn:E.
    + rewrite (add_kwarg_string _ _ _ _ E). right. eexists. split; [reflexivity|].
      cbn [acc_bad]. destruct Hk as [Hk|Hk]; [|exact Hk].
      cbn [keys_are_strings] in Hk. unfold is_str in Hk. rewrite E in Hk. discriminate.
    + destruct (add_kwarg_other acc k ONone E) as [-> | ->]; [left; reflexivity|].
      right. eexists. split; reflexivity.
  - cbn [values_self_evaluating] in Hv. apply andb_prop in Hv. destruct Hv as [Hv1 Hv2].
    cbn [eval_pairs]. rewrite (evaluate_self _ _ Hv1).
    destruct (str_of k) as [s|] eqn:E.
    + rewrite (add_kwarg_string _ _ _ _ E). apply IH; [exact Hv2|].
      cbn [acc_bad]. destruct Hk as [Hk|Hk]; [|right; exact Hk].
      cbn [keys_are_strings] in Hk. unfold is_str in Hk. rewrite E in Hk.
      left. exact Hk.
    + destruct (add_kwarg_other acc k v E) as [-> | ->]; [left; reflexivity|].
      apply IH; [exact Hv2|]. right. reflexivity.
Qed.

Lemma add_kwarg_cases (acc : kwargs_acc) (k v : obj) :
  (hashable k = false /\ is_str k = false /\
   add_kwarg acc k v = Raise TypeError) \/
  (hashable k = true /\
   exists acc', add_kwarg acc k v = Ok acc' /\
                acc_bad acc' = acc_bad acc || negb (is_str k)).
Proof.
  destruct k; cbn; try (left; repeat split; reflexivity);
    right; (split; [reflexivity|]); eexists; (split; [reflexivity|]);
    cbn [acc_bad]; rewrite ?orb_true_r, ?orb_false_r; reflexivity.
Qed.

Lemma eval_pairs_keywords (args : list obj) :
  forall (acc : kwargs_acc) (L : labels),
  keys_are_strings args = true ->
  eval_pairs args acc L =
  match eval_values args L with
  | (Raise e, L2) => (Raise e, L2)
  | (Ok vs, L2) =>
      (Ok {| acc_items := keywords (keys_of args) vs (acc_items acc);
             acc_bad := acc_bad acc |}, L2)
  end.
Proof.
  induction args as [|k|k v rest IH] using pairs_ind; intros acc L Hk.
  - destruct acc; reflexivity.
  - cbn [keys_are_strings] in Hk. unfold is_str in Hk.
    destruct (str_of k) as [s|] eqn:E; [|discriminate].
    cbn [eval_pairs eval_values keys_of keywords].
    rewrite (add_kwarg_string _ _ _ _ E), E. reflexivity.
  - cbn [keys_are_strings] in Hk. apply andb_prop in Hk as [Hk1 Hk2].
    unfold is_str in Hk1. destruct (str_of k) as [s|] eqn:E; [|discriminate].
    cbn [eval_pairs eval_values keys_of].
    destruct (evaluate v L) as [[x|e] L']; [|reflexivity].
    rewrite (add_kwarg_string _ _ _ _ E), (IH _ _ Hk2).
    destruct (eval_values rest L') as [[xs|e] L2]; [|reflexivity].
    cbn [keywords acc_items acc_bad]. rewrite E. reflexivity.
Qed.

Lemma eval_pairs_refused (f : obj) (args : list obj) :
  forall (acc : kwargs_acc) (L : labels),
  keys_are_strings args = false \/ acc_bad acc = true ->
  exists (e : exn) (L3 : labels),
    pairs_outcome f (eval_pairs args acc L) = (Raise e, L3) /\
    (exists n, L3 = snd (eval_values (firstn n args) L)) /\
    (forall vs L2, eval_values args L = (Ok vs, L2) -> e = TypeError) /\
    (keys_hashable args = true ->
     (e, L3) = match eval_values args L with
               | (Raise e', L2) => (e', L2)
               | (Ok _, L2) => (TypeError, L2)
               end).
Proof.
  induction args as [|k|k v rest IH] using pairs_ind; intros acc L Hk.
  - destruct Hk as [Hk|Hk]; [discriminate|].
    exists TypeError, L. cbn [eval_pairs pairs_outcome]. rewrite Hk.
    repeat split; auto. exists 0%nat. reflexivity.
  - exists TypeError, L. cbn [eval_pairs].
    split; [|repeat split; auto; exists 0%nat; reflexivity].
    destruct (add_kwarg_cases acc k ONone)
      as [(_ & _ & ->) | (_ & acc' & -> & Hbad)]; [reflexivity|].
    cbn [pairs_outcome]. rewrite Hbad.
    destruct Hk as [Hk|Hk].
    + cbn [keys_are_strings] in Hk. rewrite Hk, orb_true_r. reflexivity.
    + rewrite Hk. reflexivity.
  - cbn [eval_pairs eval_values keys_hashable].
    destruct (evaluate v L) as [[x|e] L'] eqn:Ev.
    + destruct (add_kwarg_cases acc k x)
        as [(Hh & _ & ->) | (Hh & acc' & -> & Hbad)].
      * exists TypeError, L'. split; [reflexivity|]. split.
        { exists 2%nat. cbn [firstn eval_values]. rewrite Ev. reflexivity. }
        split; [auto|]. rewrite Hh. discriminate.
      * destruct (IH acc' L') as (e & L3 & Hout & (n & Hn) & Hall & Hhash).
        { rewrite Hbad. destruct Hk as [Hk|Hk].
          - cbn [keys_are_strings] in Hk.
            destruct (is_str k); cbn [andb negb] in *;
              [left; exact Hk | right; apply orb_true_r].
          - right. rewrite Hk. reflexivity. }
        exists e, L3. split; [exact Hout|]. split.
        { exists (S (S n)). cbn [firstn eval_values]. rewrite Ev.
          rewrite Hn. destruct (eval_values (firstn n rest) L') as [[xs|e'] L2];
            reflexivity. }
        split.
        { intros vs L2 H.
          destruct (eval_values rest L') as [[xs|e'] L2'] eqn:Er;
            [|discriminate].
          exact (Hall _ _ eq_refl). }
        rewrite Hh. cbn [andb]. intros H. rewrite (Hhash H).
        destruct (eval_values rest L') as [[xs|e'] L2']; reflexivity.
    + exists e, L'. split; [reflexivity|]. split.
      { exists 2%nat. cbn [firstn eval_values]. rewrite Ev. reflexivity. }
      split; [intros vs L2 [=] | reflexivity].
Qed.

(** C9 (as amended).  When a form is applied, the head is evaluated first;
    what it raises is passed on.  The elements after the head are then
    read as alternating (key, value) pairs, a missing last value being
    null, and the values are evaluated from left to right.  The key is
    never checked to be a [KeyArg]:
    - if every key is a string of any kind (a keyword-name, a [Symbol] or
      a plain string), the evaluation raises what the first failing value
      raises ([KeyError] for a [Symbol] the environment does not hold) or
      else calls the head with the keys, taken as they are, as argument
      names;
    - if some key is not a string (a number, null, a nested form), the
      evaluation always raises and the head is not called: the labels are
      as the evaluation of some of the values left them; the exception is
      [TypeError] whenever all the values evaluate; when no key is a list
      or a dictionary, all values are evaluated before the [TypeError]
      and the exception of a failing value is passed on instead. *)
Theorem evaluate_keyword_pairs (head : obj) (args : list obj) (L : labels) :
  (forall e L1, evaluate head L = (Raise e, L1) ->
     evaluate (OList (head :: args)) L = (Raise e, L1)) /\
  (forall f L1, evaluate head L = (Ok f, L1) ->
     (keys_are_strings args = true ->
      evaluate (OList (head :: args)) L =
      match eval_values args L1 with
      | (Raise e, L2) => (Raise e, L2)
      | (Ok vs, L2) => call f (keywords (keys_of args) vs []) L2
      end) /\
     (keys_are_strings args = false ->
      exists (e : exn) (L3 : labels),
        evaluate (OList (head :: args)) L = (Raise e, L3) /\
        (exists n, L3 = snd (eval_values (firstn n args) L1)) /\
        (forall vs L2, eval_values args L1 = (Ok vs, L2) -> e = TypeError) /\
        (keys_hashable args = true ->
         (e, L3) = match eval_values args L1 with
                   | (Raise e', L2) => (e', L2)
                   | (Ok _, L2) => (TypeError, L2)
                   end))).
Proof.
  split.
  - intros e L1 Hhead. rewrite evaluate_form, Hhead. reflexivity.
  - intros f L1 Hhead. rewrite evaluate_form, Hhead. split; intros Hk.
    + rewrite (eval_pairs_keywords _ _ _ Hk).
      destruct (eval_values args L1) as [[vs|e] L2]; reflexivity.
    + exact (eval_pairs_refused f args _ L1 (or_introl Hk)).
Qed.

(** C9, witness: a plain string and a [Symbol] in key position are taken
    as argument names. *)
Lemma evaluate_keyword_pairs_witness :
  evaluate (OSym "interval") TEST_LABELS = (Ok ODictClass, TEST_LABELS) /\
  keys_are_strings (tl KEYWORD_FORM) = true /\
  evaluate (OList KEYWORD_FORM) TEST_LABELS =
  match eval_values (tl KEYWORD_FORM) TEST_LABELS with
  | (Raise e, L2) => (Raise e, L2)
  | (Ok vs, L2) =>
      call ODictClass (keywords (keys_of (tl KEYWORD_FORM)) vs []) L2
  end.
Proof.
  split; [reflexivity|]. split; [reflexivity|].
  apply (proj2 (evaluate_keyword_pairs (OSym "interval") (tl KEYWORD_FORM)
                  TEST_LABELS) ODictClass TEST_LABELS); reflexivity.
Defined.

(** C9, counterexample: the form [(interval "index" 0 name "a")] has a
    plain string and a [Symbol] where keyword-names are expected, and
    evaluates without error to the record they describe. *)
Lemma positional_key_accepted :
  evaluate (OList [OSym "interval"; OStr "index"; OInt 0; OSym "name"; OStr "a"])
           TEST_LABELS
  = (Ok (ODict [("index", OInt 0); ("name", OStr "a")]), TEST_LABELS).
Proof. reflexivity. Qed.

(** ** The split primitive *)

Lemma getitem_nonneg {A} (l : list A) (i : Z) (x : A) :
  0 <= i < Z.of_nat (List.length l) ->
  nth_error l (Z.to_nat i) = Some x ->
  getitem l i = Ok x.
Proof.
  intros Hi Hx. unfold getitem. rewrite (norm_index_nonneg _ _ Hi), Hx. reflexivity.
Qed.

Lemma setitem_nonneg {A} (l : list A) (i : Z) (x : A) :
  0 <= i < Z.of_nat (List.length l) ->
  setitem l i x = Ok (set_nth l (Z.to_nat i) x).
Proof.
  intros Hi. unfold setitem. rewrite (norm_index_nonneg _ _ Hi). reflexivity.
Qed.

Lemma insert_after_set {A} (l : list A) (i : Z) (x y : A) :
  0 <= i < Z.of_nat (List.length l) ->
  insert (set_nth l (Z.to_nat i) x) (i + 1) y =
  (firstn (Z.to_nat i) l ++ x :: y :: skipn (S (Z.to_nat i)) l)%list.
Proof.
  intros Hi. unfold insert. rewrite set_nth_length.
  destruct (Z.ltb_spec (i + 1) 0); [lia|].
  replace (Z.to_nat (Z.min (i + 1) (Z.of_nat (List.length l))))
    with (S (Z.to_nat i)) by lia.
  rewrite firstn_set_nth by lia. rewrite skipn_set_nth.
  rewrite <- app_assoc. reflexivity.
Qed.

Lemma split_loop_spec (items : Py.dict obj) (orig new_point : record) :
  split_loop items orig new_point =
  (apply_new items orig, apply_new_next items new_point).
Proof.
  revert orig new_point.
  induction items as [|[key v] rest IH]; intros orig new_point.
  - reflexivity.
  - unfold apply_new, apply_new_next. cbn [split_loop fold_left fst snd].
    destruct (String.eqb (take 9 key) "new_next_"); cbn [negb andb].
    + apply IH.
    + destruct (String.eqb (take 4 key) "new_"); apply IH.
Qed.

(** Prefixes and suffixes of keyword names. *)
Lemma substring_full (s : string) : substring 0 (String.length s) s = s.
Proof. induction s as [|c s IH]; simpl; [reflexivity | rewrite IH; reflexivity]. Qed.

Lemma take_drop (n : nat) (s : string) : (take n s ++ drop n s)%string = s.
Proof.
  unfold take, drop. revert n. induction s as [|c s IH]; intros n.
  - destruct n; reflexivity.
  - destruct n as [|n].
    + cbn [substring append]. rewrite Nat.sub_0_r.
      change (substring 0 (String.length (String c s)) (String c s) = String c s).
      apply substring_full.
    + cbn [substring append String.length Nat.sub]. rewrite IH. reflexivity.
Qed.

Lemma drop_new (f : string) : drop 4 ("new_" ++ f) = f.
Proof. unfold drop. cbn. rewrite Nat.sub_0_r. apply substring_full. Qed.

Lemma drop_new_next (f : string) : drop 9 ("new_next_" ++ f) = f.
Proof. unfold drop. cbn. rewrite Nat.sub_0_r. apply substring_full. Qed.

Lemma take_new (f : string) : take 4 ("new_" ++ f) = "new_".
Proof. unfold take. cbn. destruct f; reflexivity. Qed.

Lemma take_new_next (f : string) : take 9 ("new_next_" ++ f) = "new_next_".
Proof. unfold take. cbn. destruct f; reflexivity. Qed.

Lemma take_9_new (f : string) :
  String.eqb (take 9 ("new_" ++ f)) "new_next_" = String.eqb (take 5 f) "next_".
Proof. reflexivity. Qed.

Lemma dict_get_not_key {V} (d : Py.dict V) (k : string) :
  ~ In k (dict_keys d) -> dict_get d k = None.
Proof.
  induction d as [|[k' v] d IH]; simpl; intros H; [reflexivity|].
  destruct (String.eqb_spec k' k) as [->|Hne]; [tauto|]. apply IH. tauto.
Qed.

(** A loop that writes the value of one keyword into one field and whose
    other iterations leave that field alone. *)
Section FieldOfKeyword.

Variable step : record -> string * obj -> record.
Variables key f : string.
Hypothesis step_other : forall acc k v,
  k <> key -> dict_get (step acc (k, v)) f = dict_get acc f.
Hypothesis step_key : forall acc v, dict_get (step acc (key, v)) f = Some v.

Lemma fold_keyword_absent (items : Py.dict obj) (r : record) :
  dict_get items key = None ->
  dict_get (fold_left step items r) f = dict_get r f.
Proof using step_other.
  revert r. induction items as [|[k v] rest IH]; intros r H; [reflexivity|].
  cbn [fold_left]. cbn [dict_get] in H.
  destruct (String.eqb_spec k key) as [->|Hne]; [discriminate|].
  rewrite (IH _ H). apply step_other. exact Hne.
Qed.

Lemma fold_keyword_present (items : Py.dict obj) (r : record) (v : obj) :
  NoDup (dict_keys items) ->
  dict_get items key = Some v ->
  dict_get (fold_left step items r) f = Some v.
Proof using step_other step_key.
  revert r. induction items as [|[k v0] rest IH]; intros r Hnd H; [discriminate|].
  cbn [fold_left]. cbn [dict_get] in H. cbn [dict_keys map fst] in Hnd.
  inversion Hnd as [|? ? Hnotin Hnd']; subst.
  destruct (String.eqb_spec k key) as [->|Hne].
  - injection H as ->.
    rewrite fold_keyword_absent by (apply dict_get_not_key; exact Hnotin).
    apply step_key.
  - apply IH; assumption.
Qed.

End FieldOfKeyword.

Lemma apply_new_fields (kwargs : Py.dict obj) (r : record) (f : string) :
  (forall v, NoDup (dict_keys kwargs) ->
             dict_get kwargs ("new_" ++ f) = Some v ->
             String.eqb (take 5 f) "next_" = false ->
             dict_get (apply_new kwargs r) f = Some v) /\
  (dict_get kwargs ("new_" ++ f) = None ->
   dict_get (apply_new kwargs r) f = dict_get r f).
Proof.
  assert (Hother : forall (acc : record) k v, k <> ("new_" ++ f)%string ->
            dict_get (if negb (String.eqb (take 9 (fst (k, v))) "new_next_")
                         && String.eqb (take 4 (fst (k, v))) "new_"
                      then dict_set acc (drop 4 (fst (k, v))) (snd (k, v))
                      else acc) f = dict_get acc f).
  { intros acc k v Hne. cbn [fst snd].
    destruct (negb (String.eqb (take 9 k) "new_next_")); cbn [andb]; [|reflexivity].
    destruct (String.eqb_spec (take 4 k) "new_") as [Ht|]; [|reflexivity].
    apply dict_get_set_other. intros Hd. apply Hne.
    rewrite <- (take_drop 4 k), Ht, Hd. reflexivity. }
  split.
  - intros v Hnd Hget Hnext. unfold apply_new.
    apply (fold_keyword_present _ ("new_" ++ f) f Hother); try assumption.
    intros acc w. cbn [fst snd].
    rewrite take_9_new, Hnext, take_new, drop_new.
    change (dict_get (dict_set acc f w) f = Some w). apply dict_get_set_same.
  - intros Hget. unfold apply_new.
    apply (fold_keyword_absent _ ("new_" ++ f) f Hother). exact Hget.
Qed.

Lemma apply_new_next_fields (kwargs : Py.dict obj) (r : record) (f : string) :
  (forall v, NoDup (dict_keys kwargs) ->
             dict_get kwargs ("new_next_" ++ f) = Some v ->
             dict_get (apply_new_next kwargs r) f = Some v) /\
  (dict_get kwargs ("new_next_" ++ f) = None ->
   dict_get (apply_new_next kwargs r) f = dict_get r f).
Proof.
  assert (Hother : forall (acc : record) k v, k <> ("new_next_" ++ f)%string ->
            dict_get (if String.eqb (take 9 (fst (k, v))) "new_next_"
                      then dict_set acc (drop 9 (fst (k, v))) (snd (k, v))
                      else acc) f = dict_get acc f).
  { intros acc k v Hne. cbn [fst snd].
    destruct (String.eqb_spec (take 9 k) "new_next_") as [Ht|]; [|reflexivity].
    apply dict_get_set_other. intros Hd. apply Hne.
    rewrite <- (take_drop 9 k), Ht, Hd. reflexivity. }
  split.
  - intros v Hnd Hget. unfold apply_new_next.
    apply (fold_keyword_present _ ("new_next_" ++ f) f Hother); try assumption.
    intros acc w. cbn [fst snd].
    rewrite take_new_next, drop_new_next.
    change (dict_get (dict_set acc f w) f = Some w). apply dict_get_set_same.
  - intros Hget. unfold apply_new_next.
    apply (fold_keyword_absent _ ("new_next_" ++ f) f Hother). exact Hget.
Qed.

(** The run of [_split] on a record with numeric bounds. *)
Lemma number_of_finite (o : obj) (q : Q) :
  num_of o = Some q -> number_of o = Some (Finite q).
Proof. destruct o; cbn; intros H; try discriminate; injection H as <-; reflexivity. Qed.

Lemma py_lt_finite (a b : obj) (x y : Q) :
  num_of a = Some x -> num_of b = Some y ->
  py_lt a b = Ok (negb (Qle_bool y x)).
Proof.
  intros Ha Hb. unfold py_lt.
  rewrite (number_of_finite _ _ Ha), (number_of_finite _ _ Hb). reflexivity.
Qed.

Lemma _split_run (L : labels) (target kwargs : Py.dict obj) (i : Z)
    (r : record) (start stop new_stop new_next_start : obj) (qs qe qa qb : Q) :
  dict_get target "index" = Some (OInt i) ->
  0 <= i < Z.of_nat (List.length L) ->
  nth_error L (Z.to_nat i) = Some r ->
  dict_get r "start" = Some start -> num_of start = Some qs ->
  dict_get r "stop" = Some stop -> num_of stop = Some qe ->
  dict_get kwargs "new_stop" = Some new_stop -> num_of new_stop = Some qa ->
  dict_get kwargs "new_next_start" = Some new_next_start ->
  num_of new_next_start = Some qb ->
  (fst (_split (ODict target) kwargs L) = Raise ValueError
   <-> (qa <= qs \/ qe <= qb)%Q) /\
  ((qa <= qs \/ qe <= qb)%Q ->
   _split (ODict target) kwargs L = (Raise ValueError, L)) /\
  (~ (qa <= qs \/ qe <= qb)%Q ->
   _split (ODict target) kwargs L =
   (Ok ONone,
    (firstn (Z.to_nat i) L
     ++ apply_new kwargs r :: apply_new_next kwargs r
     :: skipn (S (Z.to_nat i)) L)%list)).
Proof.
  intros Hidx Hi Hr Hstart Hqs Hstop Hqe Hns Hqa Hnns Hqb.
  assert (Hgt : py_gt new_stop start = Ok (negb (Qle_bool qa qs))).
  { unfold py_gt. apply py_lt_finite; assumption. }
  assert (Hlt : py_lt new_next_start stop = Ok (negb (Qle_bool qe qb))).
  { apply py_lt_finite; assumption. }
  assert (Hrun : _split (ODict target) kwargs L =
                 if Qle_bool qa qs || Qle_bool qe qb
                 then (Raise ValueError, L)
                 else (Ok ONone,
                       (firstn (Z.to_nat i) L
                        ++ apply_new kwargs r :: apply_new_next kwargs r
                        :: skipn (S (Z.to_nat i)) L)%list)).
  { unfold _split, subscript, field. rewrite Hns, Hidx.
    cbn [Py.bind Py.of_option as_index].
    rewrite (getitem_nonneg _ _ _ Hi Hr). cbn [Py.bind].
    rewrite Hstart. cbn [Py.bind Py.of_option]. rewrite Hgt. cbn [Py.bind].
    destruct (Qle_bool qa qs); cbn [negb orb]; [reflexivity|].
    rewrite Hnns. cbn [Py.bind Py.of_option].
    rewrite Hstop. cbn [Py.bind Py.of_option]. rewrite Hlt.
    destruct (Qle_bool qe qb); cbn [negb]; [reflexivity|].
    rewrite split_loop_spec. rewrite (setitem_nonneg _ _ _ Hi). cbn [Py.bind].
    rewrite (insert_after_set _ _ _ _ Hi). reflexivity. }
  assert (Hiff : Qle_bool qa qs || Qle_bool qe qb = true
                 <-> (qa <= qs \/ qe <= qb)%Q).
  { rewrite orb_true_iff, !Qle_bool_iff. reflexivity. }
  rewrite Hrun.
  destruct (Qle_bool qa qs || Qle_bool qe qb) eqn:E.
  - assert (Hv : (qa <= qs \/ qe <= qb)%Q) by (apply Hiff; reflexivity).
    repeat split; auto; intros Hn; contradiction.
  - assert (Hv : ~ (qa <= qs \/ qe <= qb)%Q).
    { intros H. apply Hiff in H. discriminate. }
    repeat split; auto; try discriminate; intros H; contradiction.
Qed.

Lemma insert_front {A} (l : list A) (x : A) : insert l 0 x = x :: l.
Proof. unfold insert. cbn. destruct l; reflexivity. Qed.

Lemma insert_after_set_norm {A} (l : list A) (i : Z) (n : nat) (x y : A) :
  norm_index (List.length l) i = Some n -> i <> -1 ->
  insert (set_nth l n x) (i + 1) y =
  (firstn n l ++ x :: y :: skipn (S n) l)%list.
Proof.
  intros Hn Hi. unfold norm_index in Hn.
  destruct (Z.ltb_spec i 0) as [Hneg|Hpos].
  - destruct ((0 <=? i + Z.of_nat (List.length l))
              && (i + Z.of_nat (List.length l) <? Z.of_nat (List.length l)))
      eqn:E; [|discriminate].
    apply andb_true_iff in E as [E1 E2].
    apply Z.leb_le in E1. apply Z.ltb_lt in E2. injection Hn as <-.
    unfold insert. rewrite set_nth_length.
    destruct (Z.ltb_spec (i + 1) 0); [|lia].
    replace (Z.to_nat (Z.max 0 (i + 1 + Z.of_nat (List.length l))))
      with (S (Z.to_nat (i + Z.of_nat (List.length l)))) by lia.
    rewrite firstn_set_nth by lia. rewrite skipn_set_nth.
    rewrite <- app_assoc. reflexivity.
  - destruct ((0 <=? i) && (i <? Z.of_nat (List.length l))) eqn:E;
      [|discriminate].
    apply andb_true_iff in E as [E1 E2].
    apply Z.leb_le in E1. apply Z.ltb_lt in E2. injection Hn as <-.
    apply insert_after_set. lia.
Qed.

Lemma number_lt_le (a b : number) :
  a <> NonFinite NaN -> b <> NonFinite NaN ->
  number_lt a b = negb (number_le b a).
Proof.
  destruct a as [x|[| |]], b as [y|[| |]]; intros Ha Hb;
    try reflexivity; try contradiction.
Qed.

Lemma number_lt_nan (a b : number) :
  a = NonFinite NaN \/ b = NonFinite NaN -> number_lt a b = false.
Proof.
  intros [-> | ->]; [reflexivity|]. destruct a as [x|[| |]]; reflexivity.
Qed.

(** [_split] on numbers of any kind, at a valid index of any sign. *)
Lemma _split_numbers (L : labels) (target kwargs : Py.dict obj) (i : Z)
    (n : nat) (r : record) (start stop new_stop new_next_start : obj)
    (ns ne na nb : number) :
  dict_get target "index" = Some (OInt i) ->
  norm_index (List.length L) i = Some n ->
  nth_error L n = Some r ->
  dict_get r "start" = Some start -> number_of start = Some ns ->
  dict_get r "stop" = Some stop -> number_of stop = Some ne ->
  dict_get kwargs "new_stop" = Some new_stop -> number_of new_stop = Some na ->
  dict_get kwargs "new_next_start" = Some new_next_start ->
  number_of new_next_start = Some nb ->
  _split (ODict target) kwargs L =
  if number_lt ns na && number_lt nb ne
  then (Ok ONone,
        insert (set_nth L n (apply_new kwargs r)) (i + 1)
               (apply_new_next kwargs r))
  else (Raise ValueError, L).
Proof.
  intros Hidx Hn Hr Hstart Hns Hstop Hne Hnew Hna Hnext Hnb.
  assert (Hgt : py_gt new_stop start = Ok (number_lt ns na))
    by (unfold py_gt, py_lt; rewrite Hns, Hna; reflexivity).
  assert (Hlt : py_lt new_next_start stop = Ok (number_lt nb ne))
    by (unfold py_lt; rewrite Hnb, Hne; reflexivity).
  unfold _split, subscript, field. rewrite Hnew, Hidx.
  cbn [Py.bind Py.of_option as_index].
  unfold getitem. rewrite Hn, Hr. cbn [Py.bind Py.of_option].
  rewrite Hstart. cbn [Py.bind Py.of_option]. rewrite Hgt. cbn [Py.bind].
  destruct (number_lt ns na); cbn [andb]; [|reflexivity].
  rewrite Hnext. cbn [Py.bind Py.of_option].
  rewrite Hstop. cbn [Py.bind Py.of_option]. rewrite Hlt.
  destruct (number_lt nb ne); [|reflexivity].
  rewrite split_loop_spec. unfold setitem. rewrite Hn. reflexivity.
Qed.

(** C6 (as amended).  [_split] on the record [r] that a valid index [i]
    (of any sign) selects, when the two bounds of [r] and the two new
    bounds are numbers:
    - it raises [ValueError] exactly when
      [new_stop > r.start and new_next_start < r.stop] is false;
    - for numbers none of which is NaN this is the condition
      [new_stop <= r.start or new_next_start >= r.stop]; with a NaN among
      the four numbers the split is always refused (also when neither
      inequality holds, as every comparison with a NaN is false);
    - when it raises, the labels are left as they were;
    - otherwise [r] receives the [new_<f>] values and a clone of [r]
      carrying the [new_next_<f>] values is inserted with
      [labels.insert(i + 1, clone)]: directly behind the record, except
      for [i = -1], where position [0] is the front of the list;
    - field by field: the value of [new_<f>] ends up in field [f] of the
      record, the value of [new_next_<f>] in field [f] of the clone, and a
      field that no keyword names keeps the value it had in [r]. *)
Theorem split_domain_check (L : labels) (target kwargs : Py.dict obj) (i : Z)
    (n : nat) (r : record) (start stop new_stop new_next_start : obj)
    (ns ne na nb : number) :
  dict_get target "index" = Some (OInt i) ->
  norm_index (List.length L) i = Some n ->
  nth_error L n = Some r ->
  dict_get r "start" = Some start -> number_of start = Some ns ->
  dict_get r "stop" = Some stop -> number_of stop = Some ne ->
  dict_get kwargs "new_stop" = Some new_stop -> number_of new_stop = Some na ->
  dict_get kwargs "new_next_start" = Some new_next_start ->
  number_of new_next_start = Some nb ->
  (fst (_split (ODict target) kwargs L) = Raise ValueError
   <-> number_lt ns na && number_lt nb ne = false) /\
  (~ In (NonFinite NaN) [ns; ne; na; nb] ->
   (number_lt ns na && number_lt nb ne = false
    <-> number_le na ns = true \/ number_le ne nb = true)) /\
  (In (NonFinite NaN) [ns; ne; na; nb] ->
   number_lt ns na && number_lt nb ne = false) /\
  (number_lt ns na && number_lt nb ne = false ->
   _split (ODict target) kwargs L = (Raise ValueError, L)) /\
  (number_lt ns na && number_lt nb ne = true ->
   _split (ODict target) kwargs L =
   (Ok ONone,
    insert (set_nth L n (apply_new kwargs r)) (i + 1)
           (apply_new_next kwargs r))) /\
  (i <> -1 ->
   insert (set_nth L n (apply_new kwargs r)) (i + 1) (apply_new_next kwargs r)
   = (firstn n L ++ apply_new kwargs r :: apply_new_next kwargs r
      :: skipn (S n) L)%list) /\
  (i = -1 ->
   insert (set_nth L n (apply_new kwargs r)) (i + 1) (apply_new_next kwargs r)
   = apply_new_next kwargs r :: set_nth L n (apply_new kwargs r)) /\
  (forall f : string,
     (forall v, NoDup (dict_keys kwargs) ->
                dict_get kwargs ("new_" ++ f) = Some v ->
                String.eqb (take 5 f) "next_" = false ->
                dict_get (apply_new kwargs r) f = Some v) /\
     (forall v, NoDup (dict_keys kwargs) ->
                dict_get kwargs ("new_next_" ++ f) = Some v ->
                dict_get (apply_new_next kwargs r) f = Some v) /\
     (dict_get kwargs ("new_" ++ f) = None ->
      dict_get (apply_new kwargs r) f = dict_get r f) /\
     (dict_get kwargs ("new_next_" ++ f) = None ->
      dict_get (apply_new_next kwargs r) f = dict_get r f)).
Proof.
  intros Hidx Hn Hr Hstart Hns Hstop Hne Hnew Hna Hnext Hnb.
  pose proof (_split_numbers L target kwargs i n r start stop new_stop
                new_next_start ns ne na nb Hidx Hn Hr Hstart Hns Hstop Hne
                Hnew Hna Hnext Hnb) as Hrun.
  split; [|split; [|split; [|split; [|split; [|split; [|split]]]]]].
  - rewrite Hrun. destruct (number_lt ns na && number_lt nb ne); cbn [fst];
      split; intros H; try reflexivity; discriminate.
  - intros Hnan. cbn [In] in Hnan.
    assert (H1 : ns <> NonFinite NaN) by (intros ->; apply Hnan; auto).
    assert (H2 : ne <> NonFinite NaN) by (intros ->; apply Hnan; auto).
    assert (H3 : na <> NonFinite NaN) by (intros ->; apply Hnan; auto).
    assert (H4 : nb <> NonFinite NaN) by (intros ->; apply Hnan; auto 6).
    rewrite (number_lt_le ns na H1 H3), (number_lt_le nb ne H4 H2).
    destruct (number_le na ns), (number_le ne nb); cbn; intuition discriminate.
  - intros Hnan.
    cbn [In] in Hnan. destruct Hnan as [H|[H|[H|[H|[]]]]]; subst.
    + rewrite (number_lt_nan (NonFinite NaN) na) by auto. reflexivity.
    + rewrite (number_lt_nan nb (NonFinite NaN)) by auto. apply andb_false_r.
    + rewrite (number_lt_nan ns (NonFinite NaN)) by auto. reflexivity.
    + rewrite (number_lt_nan (NonFinite NaN) ne) by auto. apply andb_false_r.
  - intros H. rewrite Hrun, H. reflexivity.
  - intros H. rewrite Hrun, H. reflexivity.
  - intros Hi. apply insert_after_set_norm; assumption.
  - intros ->. apply insert_front.
  - intros f.
    destruct (apply_new_fields kwargs r f) as [Hnewf Hkeep].
    destruct (apply_new_next_fields kwargs r f) as [Hnextf Hkeep'].
    repeat split; assumption.
Qed.

(** C6, witness: the split of the test suite.  The last test label,
    [{4.7, 5.0}], is split at [4.8]; splitting it at [1.0] is refused and
    leaves the labels unchanged. *)
Lemma split_domain_check_witness :
  _split (ODict SPLIT_TARGET) (split_kwargs (48 # 10)) TEST_LABELS
  = (Ok ONone, TEST_LABELS_SPLIT)
  /\ _split (ODict SPLIT_TARGET) (split_kwargs 1) TEST_LABELS
     = (Raise ValueError, TEST_LABELS).
Proof.
  split.
  - apply (split_domain_check TEST_LABELS SPLIT_TARGET (split_kwargs (48 # 10)) 3
             3%nat (interval (47 # 10) 5 "d")
             (OFloat (47 # 10)) (OFloat 5) (OFloat (48 # 10)) (OFloat (48 # 10))
             (Finite (47 # 10)) (Finite 5) (Finite (48 # 10)) (Finite (48 # 10)));
      reflexivity.
  - apply (split_domain_check TEST_LABELS SPLIT_TARGET (split_kwargs 1) 3
             3%nat (interval (47 # 10) 5 "d")
             (OFloat (47 # 10)) (OFloat 5) (OFloat 1) (OFloat 1)
             (Finite (47 # 10)) (Finite 5) (Finite 1) (Finite 1));
      reflexivity.
Defined.

(** C6, counterexample: splitting the last test label, [{4.7, 5.0}], at
    NaN is refused with [ValueError], although neither
    [new_stop <= start] nor [new_next_start >= stop] holds. *)
Lemma split_at_nan_refused :
  _split (ODict SPLIT_TARGET) SPLIT_NAN_KWARGS TEST_LABELS
  = (Raise ValueError, TEST_LABELS) /\
  number_le (NonFinite NaN) (Finite (47 # 10)) = false /\
  number_le (Finite 5) (NonFinite NaN) = false.
Proof. repeat split. Qed.

(** ** The tokenizer *)

Lemma append_nonempty_r (a b : string) : nonempty b -> nonempty (a ++ b).
Proof.
  unfold nonempty. destruct a; simpl; [auto | discriminate].
Qed.

Lemma split_from_nonempty (s cur : string) :
  Forall nonempty (split_from cur s).
Proof.
  revert cur. induction s as [|c s IH]; intros cur; simpl.
  - destruct cur; constructor; [discriminate | constructor].
  - destruct (is_space c).
    + destruct cur; [apply IH|]. constructor; [discriminate | apply IH].
    + apply IH.
Qed.

Lemma extend_last_ok (l : list string) (token : string) :
  l <> [] -> Forall nonempty l ->
  exists l', extend_last l token = Ok l' /\ l' <> [] /\ Forall nonempty l'.
Proof.
  induction l as [|x l IH]; intros Hne Hall; [contradiction|].
  destruct l as [|y l].
  - exists [x ++ " " ++ token]. repeat split; [discriminate|].
    constructor; [|constructor]. apply append_nonempty_r. discriminate.
  - inversion Hall as [|? ? Hx Hrest]; subst.
    destruct (IH ltac:(discriminate) Hrest) as (l' & Hl' & _ & Hall').
    exists (x :: l'). cbn [extend_last]. cbn [extend_last] in Hl'.
    rewrite Hl'. repeat split; [discriminate|]. constructor; assumption.
Qed.

Lemma Forall_snoc {A} (P : A -> Prop) (l : list A) (x : A) :
  Forall P l -> P x -> Forall P (l ++ [x]).
Proof.
  intros Hl Hx. apply Forall_app. split; [assumption|]. constructor; [assumption|constructor].
Qed.

Lemma snoc_not_nil {A} (l : list A) (x : A) : (l ++ [x])%list <> [].
Proof. destruct l; discriminate. Qed.

Lemma second_pass_loop_ok (tokens : list string) :
  forall (second_pass : list string) (in_string : bool),
  Forall nonempty tokens ->
  Forall nonempty second_pass ->
  (in_string = true -> second_pass <> []) ->
  exists sp b,
    second_pass_loop tokens second_pass in_string = Ok (sp, b) /\
    Forall nonempty sp.
Proof.
  induction tokens as [|token rest IH]; intros sp b Htok Hsp Hin.
  - exists sp, b. split; [reflexivity | assumption].
  - inversion Htok as [|? ? Ht Hrest]; subst. cbn [second_pass_loop].
    destruct (Nat.odd (count_char quote token)), b; cbn [andb negb].
    + destruct (extend_last_ok sp token (Hin eq_refl) Hsp) as (sp' & -> & Hne & Hall).
      cbn [Py.bind]. apply IH; auto; discriminate.
    + apply IH; auto using Forall_snoc; intros _; apply snoc_not_nil.
    + destruct (Nat.eqb (count_char quote token) 0).
      * destruct (extend_last_ok sp token (Hin eq_refl) Hsp) as (sp' & -> & Hne & Hall).
        cbn [Py.bind]. apply IH; auto.
      * apply IH; auto using Forall_snoc; intros _; apply snoc_not_nil.
    + rewrite andb_false_r. apply IH; auto using Forall_snoc; discriminate.
Qed.

Lemma third_pass_loop_ok (tokens : list string) :
  Forall nonempty tokens -> exists out, third_pass_loop tokens = Ok out.
Proof.
  induction tokens as [|token rest IH]; intros Hall.
  - exists []. reflexivity.
  - inversion Hall as [|? ? Ht Hrest]; subst.
    destruct (IH Hrest) as (more & Hmore).
    destruct token as [|c0 after]; [contradiction Ht; reflexivity|].
    cbn [third_pass_loop]. rewrite Hmore.
    destruct (char_eqb c0 lparen).
    + eexists. reflexivity.
    + destruct (match last_char (String c0 after) with
                | Some c => char_eqb c rparen
                | None => false
                end); eexists; reflexivity.
Qed.

(** ** Persistence *)

Lemma string_app_assoc (a b c : string) : ((a ++ b) ++ c = a ++ (b ++ c))%string.
Proof. induction a as [|x a IH]; simpl; [reflexivity | rewrite IH; reflexivity]. Qed.

Lemma string_app_nil_r (a : string) : (a ++ EmptyString)%string = a.
Proof. induction a as [|x a IH]; simpl; [reflexivity | rewrite IH; reflexivity]. Qed.

Lemma string_app_neq (s t : string) : nonempty t -> (s ++ t)%string <> s.
Proof.
  unfold nonempty. intros Ht. induction s as [|c s IH]; simpl.
  - exact Ht.
  - intros H. injection H as H. contradiction.
Qed.

Lemma dict_set_get_same {V} (d : Py.dict V) (k : string) (v : V) :
  dict_get d k = Some v -> dict_set d k v = d.
Proof.
  induction d as [|[k' v'] d IH]; simpl; [discriminate|].
  destruct (String.eqb k' k).
  - intros H. injection H as ->. reflexivity.
  - intros H. rewrite (IH H). reflexivity.
Qed.

Section PersistenceFacts.

Variable float_repr : Q -> string.
Variable yaml_dump : string -> string -> string.

Lemma write_ops_text (ops : list obj) :
  forall (name : string) (fs : file_system) (old text : string),
  ops_text float_repr ops = Ok text ->
  dict_get fs name = Some old ->
  write_ops float_repr ops name fs = (Ok tt, dict_set fs name (old ++ text)).
Proof.
  induction ops as [|op rest IH]; intros name fs old text Htext Hold.
  - injection Htext as <-. cbn [write_ops].
    rewrite string_app_nil_r, (dict_set_get_same _ _ _ Hold). reflexivity.
  - cbn [ops_text write_ops] in *.
    destruct (deparse float_repr op) as [line|e]; cbn [Py.bind] in Htext;
      [|discriminate].
    destruct (ops_text float_repr rest) as [more|e]; cbn [Py.bind] in Htext;
      [|discriminate].
    injection Htext as <-. unfold fs_write. rewrite Hold.
    rewrite (IH name _ (old ++ (line ++ newline))%string more eq_refl
               (dict_get_set_same _ _ _)).
    rewrite dict_set_set, !string_app_assoc. reflexivity.
Qed.

Lemma with_file_same (cs : CorrectionStack) : with_file cs (cs_file cs) = cs.
Proof. destruct cs; reflexivity. Qed.

(** [write_to_file()] with the stored name: the operations go to the
    file of that name, the metadata to the file with [.yaml] appended,
    and no other file is touched. *)
Lemma write_to_file_default (cs : CorrectionStack) (fs : file_system)
    (text : string) :
  ops_text float_repr (undo_stack cs) = Ok text ->
  exists fs',
    write_to_file float_repr yaml_dump None (cs, fs) = (Ok tt, (cs, fs')) /\
    dict_get fs' (cs_file cs) = Some text /\
    dict_get fs' (cs_file cs ++ ".yaml") = Some (metadata_text yaml_dump cs) /\
    forall other, other <> cs_file cs -> other <> (cs_file cs ++ ".yaml")%string ->
                  dict_get fs' other = dict_get fs other.
Proof.
  intros Htext. unfold write_to_file.
  rewrite (write_ops_text _ _ _ EmptyString text Htext (dict_get_set_same _ _ _)).
  rewrite dict_set_set. cbn [append]. unfold fs_write.
  rewrite !dict_get_set_same, !dict_set_set. cbn [append].
  eexists. split; [reflexivity|]. repeat split.
  - rewrite dict_get_set_other, dict_get_set_same; [reflexivity|].
    apply string_app_neq. discriminate.
  - rewrite dict_get_set_same. reflexivity.
  - intros other H1 H2.
    rewrite !dict_get_set_other by congruence. reflexivity.
Qed.


End PersistenceFacts.



(** ** Serializing and parsing back *)

(** C5, at the failing input.  [codegen_rename(0, 'a)')] on the test
    labels builds [RENAME_PAREN_CMD]; its serialization ends with the token
    ["a)")], from which the tokenizer strips both closing parentheses, so
    the parser reads the new name back as [a]: the tree parsed from the
    text differs from the tree that was written. *)
Theorem roundtrip_paren_name (float_repr : Q -> string) :
  codegen_rename TEST_LABELS 0 (OStr "a)") = Ok RENAME_PAREN_CMD /\
  deparse float_repr (OList RENAME_PAREN_CMD) = Ok RENAME_PAREN_TEXT /\
  parse RENAME_PAREN_TEXT = Some (Ok (OList RENAME_PAREN_READ)) /\
  RENAME_PAREN_READ <> RENAME_PAREN_CMD.
Proof.
  split; [reflexivity|]. split; [reflexivity|]. split; [vm_compute; reflexivity|].
  discriminate.
Qed.

(** The parser always returns or raises: the fuel given by [parse_fuel]
    is never exhausted. *)
Lemma read_fuel_enough (fuel : nat) :
  (forall token_list,
     (2 * List.length token_list + 1 <= fuel)%nat ->
     exists r, read_from_tokens fuel token_list = Some r /\
               forall x rest, r = Ok (x, rest) ->
                              (List.length rest < List.length token_list)%nat) /\
  (forall token_list nested_list,
     (2 * List.length token_list + 2 <= fuel)%nat ->
     exists r, read_items fuel token_list nested_list = Some r /\
               forall x rest, r = Ok (x, rest) ->
                              (List.length rest < List.length token_list)%nat).
Proof.
  induction fuel as [|fuel [IHread IHitems]]; [split; intros; lia|].
  split.
  - intros [|token rest] Hfuel; cbn [read_from_tokens].
    + eexists. split; [reflexivity|]. intros x r H. discriminate.
    + cbn [List.length] in *. destruct (String.eqb token "(").
      * destruct (IHitems rest [] ltac:(lia)) as (r & Hr & Hlen).
        exists r. split; [exact Hr|]. intros x rest' H.
        specialize (Hlen _ _ H). lia.
      * destruct (String.eqb token ")").
        -- eexists. split; [reflexivity|]. intros x r H. discriminate.
        -- eexists. split; [reflexivity|]. intros x r H.
           destruct (atomize token); cbn [Py.bind] in H; [|discriminate].
           injection H as _ <-. lia.
  - intros [|token rest] nested Hfuel; cbn [read_items].
    + eexists. split; [reflexivity|]. intros x r H. discriminate.
    + cbn [List.length] in *. destruct (String.eqb token ")").
      * eexists. split; [reflexivity|]. intros x r H. injection H as _ <-. lia.
      * destruct (IHread (token :: rest) ltac:(cbn [List.length]; lia))
          as (r & Hr & Hlen).
        rewrite Hr. destruct r as [[x rest']|e].
        -- specialize (Hlen _ _ eq_refl). cbn [List.length] in Hlen.
           destruct (IHitems rest' (nested ++ [x])%list ltac:(lia))
             as (r' & Hr' & Hlen').
           exists r'. split; [exact Hr'|]. intros y rest'' H.
           specialize (Hlen' _ _ H). lia.
        -- eexists. split; [reflexivity|]. intros x r H. discriminate.
Qed.

Lemma parse_returns (cmd : string) : exists r, parse cmd = Some r.
Proof.
  unfold parse. destruct (tokenize cmd) as [token_list|e]; [|eexists; reflexivity].
  destruct (proj1 (read_fuel_enough (parse_fuel token_list)) token_list)
    as (r & Hr & _); [unfold parse_fuel; lia|].
  rewrite Hr. eexists. reflexivity.
Qed.

(** * Further properties of the raw operations *)

Lemma norm_index_bound (len : nat) (i : Z) (n : nat) :
  norm_index len i = Some n -> (n < len)%nat.
Proof.
  unfold norm_index.
  destruct (i <? 0);
    match goal with
    | |- context [(0 <=? ?j) && (?j <? ?l)] =>
        destruct (Z.leb_spec 0 j); destruct (Z.ltb_spec j l);
        cbn [andb]; intros Heq; try discriminate; injection Heq as <-; lia
    end.
Qed.

Lemma nth_error_set_nth_same {A} (l : list A) (n : nat) (x : A) :
  (n < List.length l)%nat -> nth_error (set_nth l n x) n = Some x.
Proof.
  revert n. induction l as [|a l IH]; intros [|n] H; cbn in *; try lia.
  - reflexivity.
  - apply IH. lia.
Qed.

Lemma nth_error_set_nth_other {A} (l : list A) (n m : nat) (x : A) :
  n <> m -> nth_error (set_nth l n x) m = nth_error l m.
Proof.
  revert n m. induction l as [|a l IH]; intros [|n] [|m] H; cbn; try reflexivity.
  - contradiction.
  - apply IH. congruence.
Qed.

Lemma set_nth_set_nth {A} (l : list A) (n : nat) (x y : A) :
  set_nth (set_nth l n x) n y = set_nth l n y.
Proof.
  revert n. induction l as [|a l IH]; intros [|n]; cbn; try reflexivity.
  rewrite IH. reflexivity.
Qed.

Lemma set_nth_same {A} (l : list A) (n : nat) (x : A) :
  nth_error l n = Some x -> set_nth l n x = l.
Proof.
  revert n. induction l as [|a l IH]; intros [|n] H; cbn in *; try discriminate.
  - injection H as ->. reflexivity.
  - rewrite (IH _ H). reflexivity.
Qed.

Lemma remove_nth_split {A} (l : list A) (n : nat) :
  remove_nth l n = (firstn n l ++ skipn (S n) l)%list.
Proof.
  revert n. induction l as [|a l IH]; intros [|n]; cbn; try reflexivity.
  rewrite IH. reflexivity.
Qed.

Lemma set_nth_split {A} (l : list A) (n : nat) (x : A) :
  (n < List.length l)%nat ->
  set_nth l n x = (firstn n l ++ x :: skipn (S n) l)%list.
Proof.
  revert n. induction l as [|a l IH]; intros [|n] H; cbn in *; try lia.
  - reflexivity.
  - rewrite IH by lia. reflexivity.
Qed.

Lemma getitem_norm {A} (l : list A) (i : Z) (n : nat) (x : A) :
  norm_index (List.length l) i = Some n -> nth_error l n = Some x ->
  getitem l i = Ok x.
Proof. intros Hn Hx. unfold getitem. rewrite Hn, Hx. reflexivity. Qed.

Lemma set_field_norm (L : labels) (i : Z) (n : nat) (r : record)
    (k : string) (v : obj) :
  norm_index (List.length L) i = Some n -> nth_error L n = Some r ->
  set_field L i k v = Ok (set_nth L n (dict_set r k v)).
Proof.
  intros Hn Hr. unfold set_field. rewrite (getitem_norm _ _ _ _ Hn Hr).
  cbn [Py.bind]. unfold setitem. rewrite Hn. reflexivity.
Qed.

(** X1.  [_set_value] on the record [r] that a (possibly negative) index
    selects: when [r] has no field [column] the call raises [KeyError]
    and the labels are untouched (the field is not created); so it does
    when the [new_<column>] argument is missing; otherwise the field is
    overwritten in that record and every other record is left alone. *)
Theorem set_value_spec (L : labels) (target kwargs : Py.dict obj) (i : Z)
    (n : nat) (r : record) (column : string) :
  dict_get target "index" = Some (OInt i) ->
  norm_index (List.length L) i = Some n ->
  nth_error L n = Some r ->
  (dict_get r column = None ->
   _set_value (ODict target) (OStr column) kwargs L = (Raise KeyError, L)) /\
  (dict_get kwargs ("new_" ++ column) = None ->
   _set_value (ODict target) (OStr column) kwargs L = (Raise KeyError, L)) /\
  (forall old v,
     dict_get r column = Some old ->
     dict_get kwargs ("new_" ++ column) = Some v ->
     exists L',
       _set_value (ODict target) (OStr column) kwargs L = (Ok ONone, L') /\
       List.length L' = List.length L /\
       nth_error L' n = Some (dict_set r column v) /\
       forall m, m <> n -> nth_error L' m = nth_error L m).
Proof.
  intros Hidx Hn Hr.
  assert (Hlt := norm_index_bound _ _ _ Hn).
  unfold _set_value, subscript, field. rewrite Hidx.
  cbn [Py.bind Py.of_option as_index as_key str_of].
  rewrite (getitem_norm _ _ _ _ Hn Hr). cbn [Py.bind Py.of_option].
  repeat split.
  - intros ->. reflexivity.
  - intros Hnew. destruct (dict_get r column); cbn [Py.bind Py.of_option];
      [rewrite Hnew|]; reflexivity.
  - intros old v -> Hnew. cbn [Py.bind Py.of_option]. rewrite Hnew.
    cbn [Py.bind Py.of_option].
    rewrite (set_field_norm _ _ _ _ _ _ Hn Hr).
    eexists. split; [reflexivity|]. split; [apply set_nth_length|].
    split; [apply nth_error_set_nth_same; exact Hlt|].
    intros m Hm. apply nth_error_set_nth_other. congruence.
Qed.

(** X1, witness: renaming the last test label through the index [-1]. *)
Lemma set_value_spec_witness :
  exists L',
    _set_value (ODict [("index", OInt (-1))]) (OStr "name")
               [("new_name", OStr "z")] TEST_LABELS = (Ok ONone, L') /\
    List.length L' = List.length TEST_LABELS /\
    nth_error L' 3 = Some (dict_set (interval (47 # 10) 5 "d") "name" (OStr "z")) /\
    forall m, m <> 3%nat -> nth_error L' m = nth_error TEST_LABELS m.
Proof.
  apply (set_value_spec TEST_LABELS [("index", OInt (-1))]
           [("new_name", OStr "z")] (-1) 3 (interval (47 # 10) 5 "d") "name"
           eq_refl eq_refl eq_refl) with (old := OStr "d"); reflexivity.
Defined.

Lemma remove_after_set {A} (l : list A) (n : nat) (x : A) :
  (n < List.length l)%nat ->
  remove_nth (set_nth l n x) (S n)
  = (firstn n l ++ x :: skipn (S (S n)) l)%list.
Proof.
  revert n. induction l as [|a l IH]; intros [|n] H; cbn in *; try lia.
  - destruct l; reflexivity.
  - rewrite IH by lia. reflexivity.
Qed.

Lemma nth_error_lt {A} (l : list A) (n : nat) (x : A) :
  nth_error l n = Some x -> (n < List.length l)%nat.
Proof. intros H. apply nth_error_Some. rewrite H. discriminate. Qed.

(** X2.  [_merge_next] at a position [i >= 0]: with a successor, record
    [i] takes the successor's [stop] and the new name, keeps its other
    fields, and the successor is removed; at the last position the call
    raises [IndexError] and the labels are untouched. *)
Theorem merge_next_spec (L : labels) (target kwargs : Py.dict obj) (i : Z)
    (r : record) :
  dict_get target "index" = Some (OInt i) ->
  0 <= i ->
  nth_error L (Z.to_nat i) = Some r ->
  (forall rnext stop name,
     nth_error L (S (Z.to_nat i)) = Some rnext ->
     dict_get rnext "stop" = Some stop ->
     dict_get kwargs "new_name" = Some name ->
     _merge_next (ODict target) kwargs L =
     (Ok ONone,
      (firstn (Z.to_nat i) L
       ++ dict_set (dict_set r "stop" stop) "name" name
       :: skipn (S (S (Z.to_nat i))) L)%list)) /\
  (nth_error L (S (Z.to_nat i)) = None ->
   _merge_next (ODict target) kwargs L = (Raise IndexError, L)).
Proof.
  intros Hidx Hi Hr. assert (Hlt := nth_error_lt _ _ _ Hr).
  assert (Hn : norm_index (List.length L) i = Some (Z.to_nat i))
    by (apply norm_index_nonneg; lia).
  split.
  - intros rnext stop name Hnext Hstop Hname.
    assert (Hlt' := nth_error_lt _ _ _ Hnext).
    assert (Hn' : forall l : labels, List.length l = List.length L ->
                  norm_index (List.length l) (i + 1) = Some (S (Z.to_nat i))).
    { intros l Hl. rewrite norm_index_nonneg by lia. f_equal. lia. }
    unfold _merge_next, subscript, field. rewrite Hidx.
    cbn [Py.bind Py.of_option as_index].
    rewrite (getitem_norm _ _ _ _ (Hn' L eq_refl) Hnext). cbn [Py.bind].
    rewrite Hstop. cbn [Py.bind Py.of_option].
    rewrite (set_field_norm _ _ _ _ _ _ Hn Hr). cbn [Py.bind].
    rewrite Hname. cbn [Py.of_option].
    rewrite (set_field_norm (set_nth L (Z.to_nat i) (dict_set r "stop" stop))
               i (Z.to_nat i) (dict_set r "stop" stop) "name" name);
      [| rewrite set_nth_length; exact Hn
       | apply nth_error_set_nth_same; exact Hlt].
    rewrite set_nth_set_nth. unfold pop.
    rewrite (Hn' _ (set_nth_length _ _ _)).
    rewrite nth_error_set_nth_other by lia. rewrite Hnext.
    rewrite remove_after_set by exact Hlt. reflexivity.
  - intros Hnone. apply nth_error_None in Hnone.
    unfold _merge_next, subscript, field. rewrite Hidx.
    cbn [Py.bind Py.of_option as_index]. unfold getitem.
    rewrite norm_index_out by lia. reflexivity.
Qed.

(** X2, witness: merging the first two test labels, and trying to merge
    the last one. *)
Lemma merge_next_spec_witness :
  _merge_next (ODict [("index", OInt 0)]) [("new_name", OStr "ab")] TEST_LABELS
  = (Ok ONone, TEST_LABELS_MERGED)
  /\ _merge_next (ODict [("index", OInt 3)]) [("new_name", OStr "ab")] TEST_LABELS
     = (Raise IndexError, TEST_LABELS).
Proof.
  split.
  - apply (merge_next_spec TEST_LABELS [("index", OInt 0)] [("new_name", OStr "ab")]
             0 (interval 1 (21 # 10) "a") eq_refl ltac:(lia) eq_refl)
      with (rnext := interval (21 # 10) (35 # 10) "b"); reflexivity.
  - apply (merge_next_spec TEST_LABELS [("index", OInt 3)] [("new_name", OStr "ab")]
             3 (interval (47 # 10) 5 "d") eq_refl ltac:(lia) eq_refl). reflexivity.
Defined.

(** X3.  [_merge_next] called without a [new_name] argument raises
    [KeyError] only after it has overwritten the [stop] of record [i]: the
    labels are left changed, with both records still in the list. *)
Theorem merge_next_without_name (L : labels) (target kwargs : Py.dict obj)
    (i : Z) (r rnext : record) (stop : obj) :
  dict_get target "index" = Some (OInt i) ->
  0 <= i ->
  nth_error L (Z.to_nat i) = Some r ->
  nth_error L (S (Z.to_nat i)) = Some rnext ->
  dict_get rnext "stop" = Some stop ->
  dict_get kwargs "new_name" = None ->
  _merge_next (ODict target) kwargs L =
  (Raise KeyError, set_nth L (Z.to_nat i) (dict_set r "stop" stop)).
Proof.
  intros Hidx Hi Hr Hnext Hstop Hname.
  assert (Hlt' := nth_error_lt _ _ _ Hnext).
  unfold _merge_next, subscript, field. rewrite Hidx.
  cbn [Py.bind Py.of_option as_index].
  rewrite (getitem_nonneg L (i + 1) rnext) by
    (try lia; replace (Z.to_nat (i + 1)) with (S (Z.to_nat i)) by lia; exact Hnext).
  cbn [Py.bind]. rewrite Hstop. cbn [Py.bind Py.of_option].
  assert (Hlt := nth_error_lt _ _ _ Hr).
  assert (Hn : norm_index (List.length L) i = Some (Z.to_nat i))
    by (apply norm_index_nonneg; lia).
  rewrite (set_field_norm _ _ _ _ _ _ Hn Hr).
  cbn [Py.bind]. rewrite Hname. reflexivity.
Qed.

(** X3, witness: on the test labels the first interval is left with the
    stop time of the second. *)
Lemma merge_next_without_name_witness :
  _merge_next (ODict [("index", OInt 0)]) [] TEST_LABELS
  = (Raise KeyError,
     interval 1 (35 # 10) "a" :: tl TEST_LABELS).
Proof.
  apply (merge_next_without_name TEST_LABELS [("index", OInt 0)] [] 0
           (interval 1 (21 # 10) "a") (interval (21 # 10) (35 # 10) "b")
           (OFloat (35 # 10)) eq_refl ltac:(lia) eq_refl eq_refl eq_refl eq_refl).
Defined.

(** X4.  [_delete] removes the record at position [i], a negative [i]
    counting from the end; outside [-len, len) it raises [IndexError] and
    the labels are untouched. *)
Theorem delete_spec (L : labels) (target kwargs : Py.dict obj) (i : Z) :
  dict_get target "index" = Some (OInt i) ->
  let len := Z.of_nat (List.length L) in
  (0 <= i < len ->
   _delete (ODict target) kwargs L =
   (Ok ONone, (firstn (Z.to_nat i) L ++ skipn (S (Z.to_nat i)) L)%list)) /\
  (- len <= i < 0 ->
   _delete (ODict target) kwargs L =
   (Ok ONone, (firstn (Z.to_nat (i + len)) L
               ++ skipn (S (Z.to_nat (i + len))) L)%list)) /\
  (i < - len \/ len <= i ->
   _delete (ODict target) kwargs L = (Raise IndexError, L)).
Proof.
  intros Hidx len. subst len.
  unfold _delete, subscript, field, pop. rewrite Hidx.
  cbn [Py.bind Py.of_option as_index].
  repeat split; intros Hi.
  - rewrite (norm_index_nonneg _ _ Hi).
    destruct (nth_error L (Z.to_nat i)) eqn:E;
      [| apply nth_error_None in E; lia].
    rewrite remove_nth_split. reflexivity.
  - rewrite (norm_index_neg _ _ Hi).
    destruct (nth_error L (Z.to_nat (i + _))) eqn:E;
      [| apply nth_error_None in E; lia].
    rewrite remove_nth_split. reflexivity.
  - rewrite (norm_index_out _ _ Hi). reflexivity.
Qed.

(** X4, witness: deleting the last test label through the index [-1],
    and an index past the end. *)
Lemma delete_spec_witness :
  _delete (ODict [("index", OInt (-1))]) [] TEST_LABELS
  = (Ok ONone, firstn 3 TEST_LABELS)
  /\ _delete (ODict [("index", OInt 4)]) [] TEST_LABELS
     = (Raise IndexError, TEST_LABELS).
Proof.
  split.
  - apply (delete_spec TEST_LABELS [("index", OInt (-1))] [] (-1) eq_refl).
    cbn. lia.
  - apply (delete_spec TEST_LABELS [("index", OInt 4)] [] 4 eq_refl).
    cbn. lia.
Defined.

(** ** Dictionaries: deletion and update *)

Lemma dict_keys_del_in {V} (d : Py.dict V) (k k' : string) :
  In k' (dict_keys (dict_del d k)) -> In k' (dict_keys d).
Proof.
  induction d as [|[k0 v0] d IH]; cbn; [tauto|].
  destruct (String.eqb k0 k); cbn; tauto.
Qed.

Lemma dict_del_NoDup {V} (d : Py.dict V) (k : string) :
  NoDup (dict_keys d) -> NoDup (dict_keys (dict_del d k)).
Proof.
  induction d as [|[k0 v0] d IH]; cbn; intros H; [constructor|].
  inversion H as [|? ? Hnotin Hnd]; subst.
  destruct (String.eqb k0 k); cbn; [assumption|].
  constructor; [|auto]. intros Hin. apply Hnotin.
  exact (dict_keys_del_in _ _ _ Hin).
Qed.

Lemma dict_get_del_same {V} (d : Py.dict V) (k : string) :
  NoDup (dict_keys d) -> dict_get (dict_del d k) k = None.
Proof.
  induction d as [|[k0 v0] d IH]; cbn; intros H; [reflexivity|].
  inversion H as [|? ? Hnotin Hnd]; subst.
  destruct (String.eqb_spec k0 k) as [->|Hne].
  - apply dict_get_not_key. exact Hnotin.
  - cbn. destruct (String.eqb_spec k0 k); [contradiction|]. auto.
Qed.

Lemma dict_get_del_other {V} (d : Py.dict V) (k k' : string) :
  k <> k' -> dict_get (dict_del d k) k' = dict_get d k'.
Proof.
  intros Hne. induction d as [|[k0 v0] d IH]; cbn; [reflexivity|].
  destruct (String.eqb_spec k0 k) as [->|Hk0]; cbn.
  - destruct (String.eqb_spec k k'); [contradiction|reflexivity].
  - rewrite IH. reflexivity.
Qed.

Lemma dict_get_update {V} (e : Py.dict V) :
  forall (d : Py.dict V) (k : string),
  NoDup (dict_keys e) ->
  dict_get (dict_update d e) k =
  match dict_get e k with
  | Some v => Some v
  | None => dict_get d k
  end.
Proof.
  unfold dict_update.
  induction e as [|[k0 v0] e IH]; intros d k Hnd; cbn; [reflexivity|].
  inversion Hnd as [|? ? Hnotin Hnd']; subst.
  rewrite (IH _ _ Hnd').
  destruct (String.eqb_spec k0 k) as [->|Hne].
  - rewrite (dict_get_not_key _ _ Hnotin). apply dict_get_set_same.
  - rewrite (dict_get_set_other _ _ _ _ Hne). reflexivity.
Qed.

Lemma insert_in_range {A} (l : list A) (i : Z) (x : A) :
  0 <= i <= Z.of_nat (List.length l) ->
  insert l i x = (firstn (Z.to_nat i) l ++ x :: skipn (Z.to_nat i) l)%list.
Proof.
  intros Hi. unfold insert. destruct (Z.ltb_spec i 0); [lia|].
  rewrite Z.min_l by lia. reflexivity.
Qed.

Lemma insert_past_end {A} (l : list A) (i : Z) (x : A) :
  Z.of_nat (List.length l) <= i -> insert l i x = (l ++ [x])%list.
Proof.
  intros Hi. unfold insert. destruct (Z.ltb_spec i 0); [lia|].
  rewrite Z.min_r by lia. rewrite Nat2Z.id, firstn_all, skipn_all. reflexivity.
Qed.

(** X5.  [_create] with a target that holds an integer [index]: when
    [start], [stop] and [name] are present it inserts a new record that
    has every field of the target but [index], unchanged; an index within
    the list is the position of the new record and an index past the end
    appends it.  When one of the three fields is missing the call raises
    [KeyError] and the labels are untouched. *)
Theorem create_spec (L : labels) (d kwargs : Py.dict obj) (i : Z) :
  NoDup (dict_keys d) ->
  dict_get d "index" = Some (OInt i) ->
  (forall start stop name,
     dict_get d "start" = Some start ->
     dict_get d "stop" = Some stop ->
     dict_get d "name" = Some name ->
     exists new_point,
       _create (ODict d) kwargs L = (Ok ONone, insert L i new_point) /\
       dict_get new_point "index" = None /\
       (forall k, k <> "index" -> dict_get new_point k = dict_get d k) /\
       (0 <= i <= Z.of_nat (List.length L) ->
        insert L i new_point =
        (firstn (Z.to_nat i) L ++ new_point :: skipn (Z.to_nat i) L)%list) /\
       (Z.of_nat (List.length L) <= i ->
        insert L i new_point = (L ++ [new_point])%list)) /\
  (dict_get d "start" = None \/ dict_get d "stop" = None
   \/ dict_get d "name" = None ->
   _create (ODict d) kwargs L = (Raise KeyError, L)).
Proof.
  intros Hnd Hidx. split.
  - intros start stop name Hstart Hstop Hname.
    unfold _create, subscript, field.
    rewrite Hidx, Hstart, Hstop, Hname. cbn [Py.bind Py.of_option as_index].
    eexists. split; [reflexivity|].
    set (d4 := dict_del (dict_del (dict_del (dict_del d "start") "stop") "name")
                 "index").
    assert (Hnd4 : NoDup (dict_keys d4)) by (repeat apply dict_del_NoDup; exact Hnd).
    assert (Hget : forall k, dict_get d4 k =
                   if String.eqb k "start" || String.eqb k "stop"
                      || String.eqb k "name" || String.eqb k "index"
                   then None else dict_get d k).
    { intros k. unfold d4.
      destruct (String.eqb_spec k "index") as [->|H4].
      { rewrite orb_true_r. apply dict_get_del_same.
        repeat apply dict_del_NoDup. exact Hnd. }
      rewrite dict_get_del_other by congruence.
      destruct (String.eqb_spec k "name") as [->|H3].
      { rewrite orb_true_r. apply dict_get_del_same.
        repeat apply dict_del_NoDup. exact Hnd. }
      rewrite dict_get_del_other by congruence.
      destruct (String.eqb_spec k "stop") as [->|H2].
      { rewrite orb_true_r. apply dict_get_del_same.
        repeat apply dict_del_NoDup. exact Hnd. }
      rewrite dict_get_del_other by congruence.
      destruct (String.eqb_spec k "start") as [->|H1].
      { apply dict_get_del_same. exact Hnd. }
      rewrite dict_get_del_other by congruence. reflexivity. }
    repeat split.
    + rewrite (dict_get_update _ _ _ Hnd4), Hget. reflexivity.
    + intros k Hk. rewrite (dict_get_update _ _ _ Hnd4), Hget.
      destruct (String.eqb_spec k "start") as [->|H1]; [symmetry; exact Hstart|].
      destruct (String.eqb_spec k "stop") as [->|H2]; [symmetry; exact Hstop|].
      destruct (String.eqb_spec k "name") as [->|H3]; [symmetry; exact Hname|].
      destruct (String.eqb_spec k "index") as [->|H4]; [contradiction|].
      cbn [orb]. destruct (dict_get d k) eqn:E; [reflexivity|].
      cbn [dict_get].
      destruct (String.eqb_spec "start" k); [congruence|].
      destruct (String.eqb_spec "stop" k); [congruence|].
      destruct (String.eqb_spec "name" k); [congruence|]. reflexivity.
    + apply insert_in_range.
    + apply insert_past_end.
  - intros Hmiss. unfold _create, subscript, field. rewrite Hidx.
    cbn [Py.bind Py.of_option].
    destruct (dict_get d "start"); cbn [Py.bind Py.of_option]; [|reflexivity].
    destruct (dict_get d "stop"); cbn [Py.bind Py.of_option]; [|reflexivity].
    destruct (dict_get d "name"); cbn [Py.bind Py.of_option]; [|reflexivity].
    destruct Hmiss as [H|[H|H]]; discriminate.
Qed.

(** X5, witness: the creation test of the test suite; the extra field
    [tier] is kept and [index] is not. *)
Lemma create_spec_witness :
  exists new_point,
    _create (ODict CREATE_TARGET) [] TEST_LABELS
    = (Ok ONone, insert TEST_LABELS 2 new_point) /\
    dict_get new_point "index" = None /\
    dict_get new_point "tier" = Some (OStr "female").
Proof.
  assert (Hnd : NoDup (dict_keys CREATE_TARGET)).
  { repeat constructor; cbn; intuition discriminate. }
  destruct (create_spec TEST_LABELS CREATE_TARGET [] 2 Hnd eq_refl) as [Hok _].
  destruct (Hok (OFloat (31 # 10)) (OFloat (33 # 10)) (OStr "c2")
              eq_refl eq_refl eq_refl) as (np & Hrun & Hidx & Hk & _).
  exists np. split; [exact Hrun|]. split; [exact Hidx|].
  rewrite Hk by discriminate. reflexivity.
Defined.

(** * Evaluating generated commands *)

Lemma eval_pairs_cons (k v : obj) (rest : list obj) (acc : kwargs_acc)
    (L : labels) :
  eval_pairs (k :: v :: rest) acc L =
  match evaluate v L with
  | (Raise e, L') => (Raise e, L')
  | (Ok x, L') =>
      match add_kwarg acc k x with
      | Raise e => (Raise e, L')
      | Ok acc' => eval_pairs rest acc' L'
      end
  end.
Proof. reflexivity. Qed.

Lemma flatten_items_cons (k : string) (v : obj) (d : Py.dict obj) :
  flatten_items ((k, v) :: d) = OKey k :: v :: flatten_items d.
Proof. reflexivity. Qed.

Lemma flatten_items_values (d : Py.dict obj) :
  plain_values d -> values_self_evaluating (flatten_items d) = true.
Proof.
  induction 1 as [|[k v] d Hv _ IH]; [reflexivity|].
  rewrite flatten_items_cons. cbn [values_self_evaluating].
  cbn [snd] in Hv. rewrite Hv, IH. reflexivity.
Qed.

Lemma flatten_items_keys (d : Py.dict obj) :
  keys_are_strings (flatten_items d) = true.
Proof.
  induction d as [|[k v] d IH]; [reflexivity|].
  rewrite flatten_items_cons. cbn [keys_are_strings is_str str_of andb]. exact IH.
Qed.

Lemma flatten_items_kwargs (d : Py.dict obj) (acc : Py.dict obj) :
  kwargs_of (flatten_items d) acc = dict_update acc d.
Proof.
  unfold dict_update. revert acc.
  induction d as [|[k v] d IH]; intros acc; [reflexivity|].
  rewrite flatten_items_cons. cbn [kwargs_of str_of fold_left fst snd]. apply IH.
Qed.

Lemma dict_set_fresh {V} (d : Py.dict V) (k : string) (v : V) :
  ~ In k (dict_keys d) -> dict_set d k v = (d ++ [(k, v)])%list.
Proof.
  induction d as [|[k' v'] d IH]; cbn; intros H; [reflexivity|].
  destruct (String.eqb_spec k' k); [tauto|]. rewrite IH by tauto. reflexivity.
Qed.

Lemma dict_update_fresh {V} (e d : Py.dict V) :
  NoDup (dict_keys d ++ dict_keys e) -> dict_update d e = (d ++ e)%list.
Proof.
  unfold dict_update. revert d.
  induction e as [|[k v] e IH]; intros d H; cbn.
  - rewrite app_nil_r. reflexivity.
  - cbn in H. assert (Hk : ~ In k (dict_keys d)).
    { apply NoDup_remove_2 in H. intros Hin. apply H. apply in_or_app. auto. }
    rewrite (dict_set_fresh _ _ _ Hk).
    rewrite IH.
    + rewrite <- app_assoc. reflexivity.
    + unfold dict_keys in *. rewrite map_app. cbn. rewrite <- app_assoc. exact H.
Qed.

Lemma evaluate_record_form (tname : string) (d : Py.dict obj) (L : labels) :
  tname = "interval" \/ tname = "interval_pair" ->
  plain_values d ->
  evaluate (OList (OSym tname :: flatten_items d)) L
  = (Ok (ODict (dict_update [] d)), L).
Proof.
  intros Ht Hd. rewrite evaluate_form.
  assert (Hhead : evaluate (OSym tname) L = (Ok ODictClass, L))
    by (destruct Ht as [-> | ->]; reflexivity).
  rewrite Hhead.
  rewrite (eval_pairs_strings _ _ _ (flatten_items_values _ Hd)
             (flatten_items_keys _)).
  cbn [acc_bad acc_items call]. rewrite flatten_items_kwargs. reflexivity.
Qed.

(** Evaluating a command built by [_gen_code]: the primitive bound to the
    operation name is called with the label list, the target as a
    dictionary and the other arguments as keywords. *)
Lemma evaluate_generated (op tname : string) (p : proc)
    (target other : Py.dict obj) (L : labels) :
  dict_get make_env op = Some (OProc p) ->
  tname = "interval" \/ tname = "interval_pair" ->
  plain_values target -> plain_values other ->
  evaluate (OList (_gen_code op tname target other)) L
  = call_proc p (dict_update [("labels", OLabels);
                              ("target", ODict (dict_update [] target))] other) L.
Proof.
  intros Hop Ht Htarget Hother. unfold _gen_code. cbn [app].
  rewrite evaluate_form.
  assert (Hhead : evaluate (OSym op) L = (Ok (OProc p), L)).
  { cbn [evaluate]. unfold field. rewrite Hop. reflexivity. }
  rewrite Hhead. rewrite eval_pairs_cons.
  change (evaluate (OSym "labels") L) with (@Ok obj OLabels, L).
  cbn [add_kwarg str_of acc_items acc_bad dict_set].
  rewrite eval_pairs_cons, (evaluate_record_form _ _ _ Ht Htarget).
  cbn [add_kwarg str_of acc_items acc_bad dict_set String.eqb Ascii.eqb Bool.eqb].
  rewrite (eval_pairs_strings _ _ _ (flatten_items_values _ Hother)
             (flatten_items_keys _)).
  cbn [acc_bad acc_items call]. rewrite flatten_items_kwargs. reflexivity.
Qed.

(** * Inverting generated commands *)

Lemma is_new_key_self (o : obj) : self_evaluating o = true -> is_new_key o = None.
Proof. destruct o; cbn; intros H; try discriminate; reflexivity. Qed.

Lemma invert_step_skip (tpos i : nat) (st : inv_state) (curr : obj) :
  ist_read tpos st i = Ok curr -> is_new_key curr = None ->
  invert_step tpos st i = Ok st.
Proof. intros Hr Hk. unfold invert_step. rewrite Hr. cbn [Py.bind]. rewrite Hk. reflexivity. Qed.

Lemma invert_step_swap (tpos i : nat) (st : inv_state) (curr : obj)
    (oldname : string) (t : list obj) (p : nat) (oldval newval : obj) :
  ist_read tpos st i = Ok curr -> is_new_key curr = Some oldname ->
  ist_target st = OList t ->
  index_str t oldname = Ok p ->
  nth_error t (S p) = Some oldval ->
  ist_read tpos st (S i) = Ok newval ->
  invert_step tpos st i =
  Ok {| ist_target := OList (set_nth t (S p) newval);
        ist_sexpr := set_nth (ist_sexpr st) (S i) oldval;
        ist_attached := ist_attached st && negb (Nat.eqb (S i) tpos) |}.
Proof.
  intros Hr Hk Ht Hp Ho Hn. unfold invert_step.
  rewrite Hr. cbn [Py.bind]. rewrite Hk, Ht, Hp. cbn [Py.bind].
  rewrite Ho. cbn [Py.bind Py.of_option]. rewrite Hn. reflexivity.
Qed.

Lemma invert_loop_S (tpos n i : nat) (st : inv_state) :
  invert_loop tpos (S n) i st =
  (st' <- invert_step tpos st i ;; invert_loop tpos n (S i) st').
Proof. reflexivity. Qed.

(** One iteration over an element that is no [new_] keyword. *)
Ltac invert_skip :=
  rewrite invert_loop_S;
  erewrite invert_step_skip;
  [ cbn [Py.bind] | reflexivity | first [reflexivity | assumption] ].

(** One iteration over a [new_] keyword whose field is found in the
    target. *)
Ltac invert_swap :=
  rewrite invert_loop_S;
  erewrite invert_step_swap;
  [ cbn [Py.bind ist_target ist_sexpr ist_attached set_nth andb negb Nat.eqb]
  | reflexivity | reflexivity | reflexivity | reflexivity | reflexivity
  | reflexivity ].

Lemma invert_set_command (column : string) (i : Z) (old new : obj) :
  In column ["name"; "start"; "stop"] ->
  self_evaluating old = true -> self_evaluating new = true ->
  invert (set_command column i old new)
  = Ok (set_command column i new old, set_command column i new old).
Proof.
  intros Hcol Hold Hnew.
  assert (Ho := is_new_key_self _ Hold). assert (Hn := is_new_key_self _ Hnew).
  destruct Hcol as [<-|[<-|[<-|[]]]];
    unfold invert, set_command, _gen_code;
    cbn [app flatten_items flat_map fst snd nth_error List.length];
    cbn [Py.bind Py.of_option inverse_of str_of];
    match goal with
    | |- context [index_str ?s "target"] =>
        change (index_str s "target") with (@Ok nat 3%nat)
    end;
    cbn [Py.bind Py.of_option nth_error];
    do 5 invert_skip; invert_swap; invert_skip;
    reflexivity.
Qed.

Lemma no_new_keys_loop (tpos : nat) (target : obj) (s : list obj) (n i : nat) :
  nth_error s tpos = Some target ->
  Forall (fun x => is_new_key x = None) s ->
  (i + n <= List.length s)%nat ->
  invert_loop tpos n i
    {| ist_target := target; ist_sexpr := s; ist_attached := true |}
  = Ok {| ist_target := target; ist_sexpr := s; ist_attached := true |}.
Proof.
  intros Ht Hall. revert i. induction n as [|n IH]; intros i Hlen; [reflexivity|].
  rewrite invert_loop_S.
  destruct (nth_error s i) as [curr|] eqn:Hcurr;
    [| apply nth_error_None in Hcurr; lia].
  rewrite (invert_step_skip tpos i _ curr).
  - cbn [Py.bind]. apply IH. lia.
  - unfold ist_read. cbn [ist_attached ist_target ist_sexpr andb].
    destruct (Nat.eqb_spec i tpos) as [->|Hne].
    + rewrite Ht in Hcurr. injection Hcurr as ->. reflexivity.
    + rewrite Hcurr. reflexivity.
  - rewrite Forall_forall in Hall. apply Hall. eapply nth_error_In. exact Hcurr.
Qed.

Lemma invert_no_new_keys (s : list obj) (op target : obj) (inverse : string)
    (k : nat) :
  nth_error s 0 = Some op -> inverse_of op = Ok inverse ->
  index_str s "target" = Ok k -> nth_error s (S k) = Some target ->
  Forall (fun x => is_new_key x = None) s ->
  invert s = Ok (OSym inverse :: tl s, s).
Proof.
  intros Hop Hinv Hk Ht Hall. unfold invert.
  rewrite Hop. cbn [Py.bind Py.of_option]. rewrite Hinv. cbn [Py.bind].
  rewrite Hk. cbn [Py.bind]. rewrite Ht. cbn [Py.bind Py.of_option].
  rewrite (no_new_keys_loop _ _ _ _ _ Ht Hall) by lia.
  cbn [Py.bind]. unfold ist_contents. cbn [ist_attached ist_sexpr ist_target].
  rewrite (set_nth_same _ _ _ Ht). reflexivity.
Qed.

(** X6.  The commands of [codegen_delete] and [codegen_create] carry no
    [new_] argument.  On a command of [codegen_delete], whose head is
    [delete], [invert] returns the command with the head [create] in place
    of [delete] and leaves the command itself unmodified; inverting the
    result gives the [delete] command back.  On a command of
    [codegen_create] it is the other way round.  This holds whatever the
    record holds. *)
Theorem invert_delete_create (c : list obj) :
  ((exists L i, codegen_delete L i = Ok c) ->
   hd_error c = Some (OSym "delete") /\
   invert c = Ok (OSym "create" :: tl c, c) /\
   invert (OSym "create" :: tl c) = Ok (c, OSym "create" :: tl c)) /\
  ((exists i start kwargs, codegen_create i start kwargs = Ok c) ->
   hd_error c = Some (OSym "create") /\
   invert c = Ok (OSym "delete" :: tl c, c) /\
   invert (OSym "delete" :: tl c) = Ok (c, OSym "delete" :: tl c)).
Proof.
  split.
  - intros (L & i & H). unfold codegen_delete in H.
    destruct (getitem L i) as [r|e]; cbn [Py.bind] in H; [|discriminate].
    injection H as <-.
    split; [reflexivity|]. split.
    + eapply invert_no_new_keys; try reflexivity. repeat constructor.
    + eapply invert_no_new_keys; try reflexivity. repeat constructor.
  - intros (i & start & kwargs & H). unfold codegen_create in H.
    destruct (dict_get kwargs "index"); [discriminate|].
    destruct (dict_get kwargs "start"); [discriminate|].
    injection H as <-.
    split; [reflexivity|]. split.
    + eapply invert_no_new_keys; try reflexivity. repeat constructor.
    + eapply invert_no_new_keys; try reflexivity. repeat constructor.
Qed.

(** X6, witness: the command deleting the last test label, whose inverse
    is the command creating it. *)
Lemma invert_delete_create_witness :
  hd_error DELETE_CMD = Some (OSym "delete") /\
  invert DELETE_CMD = Ok (CREATE_CMD, DELETE_CMD) /\
  invert CREATE_CMD = Ok (DELETE_CMD, CREATE_CMD).
Proof.
  apply (proj1 (invert_delete_create DELETE_CMD)).
  exists TEST_LABELS, 3. reflexivity.
Defined.

(** * Renaming and moving a boundary, through the stack *)

Lemma getitem_inv {A} (l : list A) (i : Z) (x : A) :
  getitem l i = Ok x ->
  exists n, norm_index (List.length l) i = Some n /\ nth_error l n = Some x.
Proof.
  unfold getitem. destruct (norm_index (List.length l) i) as [n|]; [|discriminate].
  destruct (nth_error l n) as [y|] eqn:E; cbn; [|discriminate].
  intros H. injection H as ->. exists n. auto.
Qed.

Lemma plain_values_get (d : Py.dict obj) (k : string) (v : obj) :
  plain_values d -> dict_get d k = Some v -> self_evaluating v = true.
Proof.
  induction 1 as [|[k' v'] d Hv _ IH]; cbn; [discriminate|].
  destruct (String.eqb k' k); [|exact IH].
  intros H. injection H as <-. exact Hv.
Qed.

Lemma codegen_set_shape (L : labels) (i : Z) (v : obj) (c : list obj) :
  codegen_rename L i v = Ok c \/ codegen_set_start L i v = Ok c
  \/ codegen_set_stop L i v = Ok c ->
  exists column r old,
    In column ["name"; "start"; "stop"] /\
    getitem L i = Ok r /\ dict_get r column = Some old /\
    c = set_command column i old v.
Proof.
  unfold codegen_rename, codegen_set_start, codegen_set_stop, field.
  intros [H|[H|H]];
    destruct (getitem L i) as [r|e]; cbn [Py.bind] in H; try discriminate;
    match type of H with
    | context [dict_get r ?col] =>
        destruct (dict_get r col) as [old|] eqn:E; cbn [Py.bind Py.of_option] in H;
        [|discriminate]; injection H as <-;
        exists col, r, old; cbn [In]; auto 6
    end.
Qed.

Lemma _set_value_run (L : labels) (target kwargs : Py.dict obj) (i : Z)
    (n : nat) (r : record) (column : string) (old v : obj) :
  dict_get target "index" = Some (OInt i) ->
  norm_index (List.length L) i = Some n ->
  nth_error L n = Some r ->
  dict_get r column = Some old ->
  dict_get kwargs ("new_" ++ column) = Some v ->
  _set_value (ODict target) (OStr column) kwargs L
  = (Ok ONone, set_nth L n (dict_set r column v)).
Proof.
  intros Hidx Hn Hr Hold Hnew.
  unfold _set_value, subscript, field. rewrite Hidx.
  cbn [Py.bind Py.of_option as_index as_key str_of].
  rewrite (getitem_norm _ _ _ _ Hn Hr). cbn [Py.bind Py.of_option].
  rewrite Hold. cbn [Py.bind Py.of_option]. rewrite Hnew.
  cbn [Py.bind Py.of_option].
  rewrite (set_field_norm _ _ _ _ _ _ Hn Hr). reflexivity.
Qed.

Lemma evaluate_set_command (column : string) (i : Z) (old new cur : obj)
    (L : labels) (n : nat) (r : record) :
  In column ["name"; "start"; "stop"] ->
  self_evaluating old = true -> self_evaluating new = true ->
  norm_index (List.length L) i = Some n ->
  nth_error L n = Some r ->
  dict_get r column = Some cur ->
  evaluate (OList (set_command column i old new)) L
  = (Ok ONone, set_nth L n (dict_set r column new)).
Proof.
  intros Hcol Hold Hnew Hn Hr Hcur.
  assert (Hplain : plain_values [("index", OInt i); (column, old)])
    by (repeat constructor; assumption).
  assert (Hplain' : plain_values [("new_" ++ column, new)])
    by (repeat constructor; assumption).
  unfold set_command.
  destruct Hcol as [<-|[<-|[<-|[]]]].
  - rewrite (evaluate_generated ("set_" ++ "name") "interval" (PSetValue "name")
               _ _ L eq_refl (or_introl eq_refl) Hplain Hplain').
    change (_set_value (ODict [("index", OInt i); ("name", old)]) (OStr "name")
              [("new_name", new)] L
            = (Ok ONone, set_nth L n (dict_set r "name" new))).
    apply _set_value_run with (i := i) (old := cur);
      [reflexivity | exact Hn | exact Hr | exact Hcur | reflexivity].
  - rewrite (evaluate_generated ("set_" ++ "start") "interval" (PSetValue "start")
               _ _ L eq_refl (or_introl eq_refl) Hplain Hplain').
    change (_set_value (ODict [("index", OInt i); ("start", old)]) (OStr "start")
              [("new_start", new)] L
            = (Ok ONone, set_nth L n (dict_set r "start" new))).
    apply _set_value_run with (i := i) (old := cur);
      [reflexivity | exact Hn | exact Hr | exact Hcur | reflexivity].
  - rewrite (evaluate_generated ("set_" ++ "stop") "interval" (PSetValue "stop")
               _ _ L eq_refl (or_introl eq_refl) Hplain Hplain').
    change (_set_value (ODict [("index", OInt i); ("stop", old)]) (OStr "stop")
              [("new_stop", new)] L
            = (Ok ONone, set_nth L n (dict_set r "stop" new))).
    apply _set_value_run with (i := i) (old := cur);
      [reflexivity | exact Hn | exact Hr | exact Hcur | reflexivity].
Qed.

(** X7.  A command of [codegen_rename], [codegen_set_start] or
    [codegen_set_stop] records the current value of the field beside the
    new one; for values that are numbers, strings or null, [invert]
    returns the same command with the two values exchanged, and inverting
    that gives the generated command back. *)
Theorem invert_twice_set_commands (L : labels) (i : Z) (v : obj) (c : list obj) :
  codegen_rename L i v = Ok c \/ codegen_set_start L i v = Ok c
  \/ codegen_set_stop L i v = Ok c ->
  Forall plain_values L ->
  self_evaluating v = true ->
  exists column r old,
    getitem L i = Ok r /\ dict_get r column = Some old /\
    c = set_command column i old v /\
    invert_value c = Ok (set_command column i v old) /\
    invert_value (set_command column i v old) = Ok c.
Proof.
  intros Hgen HL Hv.
  destruct (codegen_set_shape _ _ _ _ Hgen) as (col & r & old & Hcol & Hget & Hold & ->).
  destruct (getitem_inv _ _ _ Hget) as (n & Hn & Hr).
  assert (Hplain : plain_values r).
  { rewrite Forall_forall in HL. apply HL. eapply nth_error_In. exact Hr. }
  assert (Ho := plain_values_get _ _ _ Hplain Hold).
  exists col, r, old. unfold invert_value.
  rewrite (invert_set_command _ _ _ _ Hcol Ho Hv).
  rewrite (invert_set_command _ _ _ _ Hcol Hv Ho).
  repeat split; assumption.
Qed.

(** X7, witness: the rename command of the test labels. *)
Lemma invert_twice_set_commands_witness :
  exists column r old,
    getitem TEST_LABELS 0 = Ok r /\ dict_get r column = Some old /\
    RENAME_CMD = set_command column 0 old (OStr "q") /\
    invert_value RENAME_CMD = Ok (set_command column 0 (OStr "q") old) /\
    invert_value (set_command column 0 (OStr "q") old) = Ok RENAME_CMD.
Proof.
  apply (invert_twice_set_commands TEST_LABELS 0 (OStr "q") RENAME_CMD).
  - left. reflexivity.
  - repeat constructor.
  - reflexivity.
Defined.

Lemma push_set_command (cs : CorrectionStack) (column : string) (i : Z)
    (old new cur : obj) (n : nat) (r : record) :
  In column ["name"; "start"; "stop"] ->
  self_evaluating old = true -> self_evaluating new = true ->
  norm_index (List.length (cs_labels cs)) i = Some n ->
  nth_error (cs_labels cs) n = Some r ->
  dict_get r column = Some cur ->
  push (OList (set_command column i old new)) cs
  = (Ok ONone,
     mk_stack (set_nth (cs_labels cs) n (dict_set r column new))
              (undo_stack cs ++ [OList (set_command column i old new)]) []
              (cs_file cs) (cs_uuid cs) (label_hash cs)).
Proof.
  intros Hcol Hold Hnew Hn Hr Hcur. unfold push, _apply.
  cbn [with_stacks cs_labels].
  rewrite (evaluate_set_command _ _ _ _ _ _ _ _ Hcol Hold Hnew Hn Hr Hcur).
  reflexivity.
Qed.

Lemma undo_set_command (L : labels) (u rd : list obj) (f id h : string)
    (column : string) (i : Z) (old new cur : obj) (n : nat) (r : record) :
  In column ["name"; "start"; "stop"] ->
  self_evaluating old = true -> self_evaluating new = true ->
  norm_index (List.length L) i = Some n ->
  nth_error L n = Some r ->
  dict_get r column = Some cur ->
  undo (mk_stack L (u ++ [OList (set_command column i old new)]) rd f id h)
  = (Ok ONone,
     mk_stack (set_nth L n (dict_set r column old)) u
              (rd ++ [OList (set_command column i new old)]) f id h).
Proof.
  intros Hcol Hold Hnew Hn Hr Hcur. unfold undo.
  cbn [undo_stack]. rewrite pop_right_app.
  unfold invert_entry, invert_value.
  rewrite (invert_set_command _ _ _ _ Hcol Hold Hnew). cbn [Py.bind].
  unfold _apply. cbn [with_stacks cs_labels undo_stack redo_stack].
  rewrite (evaluate_set_command _ _ _ _ _ _ _ _ Hcol Hnew Hold Hn Hr Hcur).
  reflexivity.
Qed.

Lemma redo_set_command (L : labels) (u rd : list obj) (f id h : string)
    (column : string) (i : Z) (old new cur : obj) (n : nat) (r : record) :
  In column ["name"; "start"; "stop"] ->
  self_evaluating old = true -> self_evaluating new = true ->
  norm_index (List.length L) i = Some n ->
  nth_error L n = Some r ->
  dict_get r column = Some cur ->
  redo (mk_stack L u (rd ++ [OList (set_command column i old new)]) f id h)
  = (Ok ONone,
     mk_stack (set_nth L n (dict_set r column old))
              (u ++ [OList (set_command column i new old)]) rd f id h).
Proof.
  intros Hcol Hold Hnew Hn Hr Hcur. unfold redo.
  cbn [redo_stack]. rewrite pop_right_app.
  unfold invert_entry, invert_value.
  rewrite (invert_set_command _ _ _ _ Hcol Hold Hnew). cbn [Py.bind].
  unfold _apply. cbn [with_stacks cs_labels undo_stack redo_stack].
  rewrite (evaluate_set_command _ _ _ _ _ _ _ _ Hcol Hnew Hold Hn Hr Hcur).
  reflexivity.
Qed.

(** X8.  [rename], [set_start] and [set_stop] followed by [undo()] and
    [redo()], on labels whose values are numbers, strings or null and for
    such a new value: when the operation returns, [undo()] succeeds and
    gives back the labels and the undo stack exactly as they were before
    the operation, and [redo()] then succeeds and gives back the whole
    stack object exactly as the operation left it. *)
Theorem set_operations_undo_redo (cs s1 : CorrectionStack) (i : Z) (v : obj) :
  Forall plain_values (cs_labels cs) ->
  self_evaluating v = true ->
  rename i v cs = (Ok ONone, s1) \/ set_start i v cs = (Ok ONone, s1)
  \/ set_stop i v cs = (Ok ONone, s1) ->
  exists s2,
    undo s1 = (Ok ONone, s2) /\
    cs_labels s2 = cs_labels cs /\
    undo_stack s2 = undo_stack cs /\
    redo s2 = (Ok ONone, s1).
Proof.
  intros HL Hv Hop.
  assert (Hgen : exists c,
            (codegen_rename (cs_labels cs) i v = Ok c
             \/ codegen_set_start (cs_labels cs) i v = Ok c
             \/ codegen_set_stop (cs_labels cs) i v = Ok c)
            /\ push (OList c) cs = (Ok ONone, s1)).
  { unfold rename, set_start, set_stop, push_generated in Hop.
    destruct Hop as [H|[H|H]];
      match type of H with
      | context [match ?g with _ => _ end] =>
          destruct g as [c|e] eqn:E; [|discriminate]; exists c; auto
      end. }
  destruct Hgen as (c & Hgen & Hpush).
  destruct (codegen_set_shape _ _ _ _ Hgen)
    as (col & r & old & Hcol & Hget & Hold & ->).
  destruct (getitem_inv _ _ _ Hget) as (n & Hn & Hr).
  assert (Hplain : plain_values r).
  { rewrite Forall_forall in HL. apply HL. eapply nth_error_In. exact Hr. }
  assert (Ho := plain_values_get _ _ _ Hplain Hold).
  assert (Hlt := norm_index_bound _ _ _ Hn).
  rewrite (push_set_command cs col i old v old n r Hcol Ho Hv Hn Hr Hold) in Hpush.
  injection Hpush as <-.
  set (L1 := set_nth (cs_labels cs) n (dict_set r col v)).
  assert (Hn1 : norm_index (List.length L1) i = Some n)
    by (unfold L1; rewrite set_nth_length; exact Hn).
  assert (Hr1 : nth_error L1 n = Some (dict_set r col v))
    by (apply nth_error_set_nth_same; exact Hlt).
  assert (Hback : set_nth L1 n (dict_set (dict_set r col v) col old) = cs_labels cs).
  { unfold L1. rewrite set_nth_set_nth, dict_set_set, (dict_set_get_same _ _ _ Hold).
    apply set_nth_same. exact Hr. }
  rewrite (undo_set_command L1 (undo_stack cs) [] _ _ _ col i old v v n _
             Hcol Ho Hv Hn1 Hr1 (dict_get_set_same _ _ _)).
  eexists. split; [reflexivity|]. cbn [cs_labels undo_stack].
  split; [exact Hback|]. split; [reflexivity|].
  rewrite Hback. cbn [app].
  change [OList (set_command col i v old)]
    with ([] ++ [OList (set_command col i v old)])%list.
  rewrite (redo_set_command (cs_labels cs) (undo_stack cs) [] _ _ _ col i v old old n r
             Hcol Hv Ho Hn Hr Hold).
  reflexivity.
Qed.

(** X8, witness: renaming the first test label. *)
Lemma set_operations_undo_redo_witness :
  exists s1 s2,
    rename 0 (OStr "q") (fresh_stack TEST_LABELS) = (Ok ONone, s1) /\
    undo s1 = (Ok ONone, s2) /\
    cs_labels s2 = TEST_LABELS /\
    undo_stack s2 = [] /\
    redo s2 = (Ok ONone, s1).
Proof.
  eexists.
  destruct (set_operations_undo_redo (fresh_stack TEST_LABELS) _ 0 (OStr "q")
              ltac:(repeat constructor) eq_refl (or_introl eq_refl))
    as (s2 & H1 & H2 & H3 & H4).
  exists s2. split; [reflexivity|]. auto.
Defined.

(** * Deleting and restoring, through the stack *)

(** The record [_create] builds from a target: every field but [index]. *)
Lemma create_point_fields (d : Py.dict obj) (start stop name : obj) (k : string) :
  NoDup (dict_keys d) ->
  dict_get d "start" = Some start ->
  dict_get d "stop" = Some stop ->
  dict_get d "name" = Some name ->
  dict_get
    (dict_update [("start", start); ("stop", stop); ("name", name)]
       (dict_del (dict_del (dict_del (dict_del d "start") "stop") "name") "index"))
    k
  = if String.eqb k "index" then None else dict_get d k.
Proof.
  intros Hnd Hstart Hstop Hname.
  rewrite dict_get_update by (repeat apply dict_del_NoDup; exact Hnd).
  destruct (String.eqb_spec k "index") as [->|H4].
  { rewrite dict_get_del_same by (repeat apply dict_del_NoDup; exact Hnd).
    reflexivity. }
  rewrite dict_get_del_other by congruence.
  destruct (String.eqb_spec k "name") as [->|H3].
  { rewrite dict_get_del_same by (repeat apply dict_del_NoDup; exact Hnd).
    rewrite Hname. reflexivity. }
  rewrite dict_get_del_other by congruence.
  destruct (String.eqb_spec k "stop") as [->|H2].
  { rewrite dict_get_del_same by (repeat apply dict_del_NoDup; exact Hnd).
    rewrite Hstop. reflexivity. }
  rewrite dict_get_del_other by congruence.
  destruct (String.eqb_spec k "start") as [->|H1].
  { rewrite dict_get_del_same by exact Hnd. rewrite Hstart. reflexivity. }
  rewrite dict_get_del_other by congruence.
  destruct (dict_get d k) eqn:E; [reflexivity|].
  cbn [dict_get].
  destruct (String.eqb_spec "start" k); [congruence|].
  destruct (String.eqb_spec "stop" k); [congruence|].
  destruct (String.eqb_spec "name" k); [congruence|]. reflexivity.
Qed.

Lemma dict_update_nil {V} (d : Py.dict V) :
  NoDup (dict_keys d) -> dict_update [] d = d.
Proof. intros H. apply (dict_update_fresh d []). exact H. Qed.

Lemma firstn_remove_nth {A} (l : list A) (n : nat) :
  firstn n (remove_nth l n) = firstn n l.
Proof.
  revert n. induction l as [|a l IH]; intros [|n]; cbn; try reflexivity.
  rewrite IH. reflexivity.
Qed.

Lemma skipn_remove_nth {A} (l : list A) (n : nat) :
  skipn n (remove_nth l n) = skipn (S n) l.
Proof.
  revert n. induction l as [|a l IH]; intros [|n]; cbn; try reflexivity.
  apply IH.
Qed.

Lemma remove_nth_length {A} (l : list A) (n : nat) :
  (n < List.length l)%nat -> S (List.length (remove_nth l n)) = List.length l.
Proof.
  revert n. induction l as [|a l IH]; intros [|n] H; cbn in *; try lia.
  rewrite IH by lia. reflexivity.
Qed.

(** X9.  [delete(i)] followed by [undo()], for [i >= 0] and a record
    whose values are numbers, strings or null and which has the fields
    [start], [stop] and [name] and no field named [index]: the deletion
    removes record [i]; the undo puts a record back at position [i] that
    has exactly the fields and values of the deleted one, extra fields
    included, and leaves the other records and the undo stack as they
    were.  When the deleted record listed [start], [stop], [name] first,
    the labels are restored exactly. *)
Theorem delete_undo_restores (cs : CorrectionStack) (i : Z) (r : record)
    (start stop name : obj) :
  0 <= i ->
  nth_error (cs_labels cs) (Z.to_nat i) = Some r ->
  NoDup (dict_keys r) -> plain_values r ->
  dict_get r "index" = None ->
  dict_get r "start" = Some start ->
  dict_get r "stop" = Some stop ->
  dict_get r "name" = Some name ->
  exists s1 s2 r',
    delete i cs = (Ok ONone, s1) /\
    cs_labels s1 = (firstn (Z.to_nat i) (cs_labels cs)
                    ++ skipn (S (Z.to_nat i)) (cs_labels cs))%list /\
    undo s1 = (Ok ONone, s2) /\
    cs_labels s2 = (firstn (Z.to_nat i) (cs_labels cs)
                    ++ r' :: skipn (S (Z.to_nat i)) (cs_labels cs))%list /\
    (forall k, dict_get r' k = dict_get r k) /\
    undo_stack s2 = undo_stack cs /\
    (firstn 3 (dict_keys r) = ["start"; "stop"; "name"] ->
     cs_labels s2 = cs_labels cs).
Proof.
  intros Hi Hr Hnd Hplain Hnoidx Hstart Hstop Hname.
  destruct cs as [L u rd f id h]. cbn [cs_labels undo_stack] in *.
  set (n := Z.to_nat i) in *.
  assert (Hlt := nth_error_lt _ _ _ Hr).
  assert (Hn : norm_index (List.length L) i = Some n)
    by (apply norm_index_nonneg; lia).
  set (tgt := ("index", OInt i) :: r).
  assert (Htgt : dict_update [("index", OInt i)] r = tgt).
  { apply (dict_update_fresh r [("index", OInt i)]). cbn.
    constructor; [|exact Hnd]. intros Hin.
    apply in_map_iff in Hin. destruct Hin as ([k v] & Hk & Hin). cbn in Hk. subst k.
    clear - Hin Hnoidx. induction r as [|[k' v'] r IH]; [contradiction|].
    cbn in Hnoidx. destruct (String.eqb_spec k' "index") as [->|Hne]; [discriminate|].
    destruct Hin as [Hin|Hin]; [congruence | auto]. }
  assert (Hndt : NoDup (dict_keys tgt)).
  { cbn. constructor; [|exact Hnd]. intros Hin.
    apply in_map_iff in Hin. destruct Hin as ([k v] & Hk & Hin). cbn in Hk. subst k.
    clear - Hin Hnoidx. induction r as [|[k' v'] r IH]; [contradiction|].
    cbn in Hnoidx. destruct (String.eqb_spec k' "index") as [->|Hne]; [discriminate|].
    destruct Hin as [Hin|Hin]; [congruence | auto]. }
  assert (Hpt : plain_values tgt) by (constructor; [reflexivity | exact Hplain]).
  assert (Hgen : codegen_delete L i = Ok (_gen_code "delete" "interval" tgt [])).
  { unfold codegen_delete. rewrite (getitem_norm _ _ _ _ Hn Hr). cbn [Py.bind].
    rewrite Htgt. reflexivity. }
  assert (Heval : forall op p (L0 : labels),
            dict_get make_env op = Some (OProc p) ->
            evaluate (OList (_gen_code op "interval" tgt [])) L0
            = call_proc p [("labels", OLabels); ("target", ODict tgt)] L0).
  { intros op p L0 Hop.
    rewrite (evaluate_generated op "interval" p tgt [] L0 Hop (or_introl eq_refl)
               Hpt ltac:(constructor)).
    rewrite (dict_update_nil _ Hndt). reflexivity. }
  set (L1 := remove_nth L n).
  assert (Hdel : evaluate (OList (_gen_code "delete" "interval" tgt [])) L
                 = (Ok ONone, L1)).
  { rewrite (Heval "delete" PDelete L eq_refl).
    change (_delete (ODict tgt) [] L = (Ok ONone, L1)).
    unfold _delete, subscript, field, pop.
    change (dict_get tgt "index") with (Some (OInt i)).
    cbn [Py.bind Py.of_option as_index]. rewrite Hn, Hr. reflexivity. }
  set (np := dict_update [("start", start); ("stop", stop); ("name", name)]
               (dict_del (dict_del (dict_del (dict_del tgt "start") "stop") "name")
                  "index")).
  assert (Hget : forall k, dict_get tgt k
                 = if String.eqb k "index" then Some (OInt i) else dict_get r k).
  { intros k. cbn [tgt dict_get]. rewrite String.eqb_sym. reflexivity. }
  assert (Hcre : evaluate (OList (_gen_code "create" "interval" tgt [])) L1
                 = (Ok ONone, (firstn n L ++ np :: skipn (S n) L)%list)).
  { rewrite (Heval "create" PCreate L1 eq_refl).
    change (_create (ODict tgt) [] L1
            = (Ok ONone, (firstn n L ++ np :: skipn (S n) L)%list)).
    unfold _create, subscript, field.
    change (dict_get tgt "index") with (Some (OInt i)).
    change (dict_get tgt "start") with (dict_get r "start").
    change (dict_get tgt "stop") with (dict_get r "stop").
    change (dict_get tgt "name") with (dict_get r "name").
    rewrite Hstart, Hstop, Hname. cbn [Py.bind Py.of_option as_index].
    fold np. rewrite insert_in_range.
    - fold n. unfold L1. rewrite firstn_remove_nth, skipn_remove_nth. reflexivity.
    - unfold L1. pose proof (remove_nth_length L n Hlt). lia. }
  assert (Hinv : invert (_gen_code "delete" "interval" tgt [])
                 = Ok (_gen_code "create" "interval" tgt [],
                       _gen_code "delete" "interval" tgt [])).
  { exact (invert_no_new_keys (_gen_code "delete" "interval" tgt [])
             (OSym "delete") (OList (OSym "interval" :: flatten_items tgt))
             "create" 3 eq_refl eq_refl eq_refl eq_refl
             ltac:(repeat constructor)). }
  exists (mk_stack L1 (u ++ [OList (_gen_code "delete" "interval" tgt [])]) [] f id h).
  exists (mk_stack (firstn n L ++ np :: skipn (S n) L)%list u
            [OList (_gen_code "create" "interval" tgt [])] f id h).
  exists np.
  assert (Hfields : forall k, dict_get np k = dict_get r k).
  { intros k. unfold np.
    rewrite (create_point_fields tgt start stop name k Hndt);
      [| rewrite Hget; exact Hstart | rewrite Hget; exact Hstop
       | rewrite Hget; exact Hname].
    rewrite Hget. destruct (String.eqb_spec k "index") as [->|]; [|reflexivity].
    symmetry. exact Hnoidx. }
  split.
  { unfold delete, push_generated. cbn [cs_labels]. rewrite Hgen.
    unfold push, _apply. cbn [with_stacks cs_labels]. rewrite Hdel. reflexivity. }
  split; [cbn [cs_labels]; unfold L1; apply remove_nth_split|].
  split.
  { unfold undo. cbn [undo_stack]. rewrite pop_right_app.
    unfold invert_entry, invert_value. rewrite Hinv. cbn [Py.bind].
    unfold _apply. cbn [with_stacks cs_labels undo_stack redo_stack app].
    rewrite Hcre. reflexivity. }
  split; [reflexivity|]. split; [exact Hfields|]. split; [reflexivity|].
  intros Horder. cbn [cs_labels].
  assert (Hnp : np = r).
  { destruct r as [|[k1 v1] [|[k2 v2] [|[k3 v3] extras]]]; try discriminate.
    cbn in Horder. injection Horder as -> -> ->.
    cbn in Hstart, Hstop, Hname.
    injection Hstart as ->. injection Hstop as ->. injection Hname as ->.
    unfold np, tgt. cbn [dict_del String.eqb Ascii.eqb Bool.eqb].
    apply (dict_update_fresh extras
             [("start", start); ("stop", stop); ("name", name)]).
    exact Hnd. }
  transitivity (set_nth L n r).
  - rewrite (set_nth_split L n r Hlt). f_equal. f_equal. exact Hnp.
  - apply set_nth_same. exact Hr.
Qed.

(** X9, witness: deleting the second of two labels with an extra field
    and undoing it restores the labels. *)
Lemma delete_undo_restores_witness :
  exists s1 s2,
    delete 1 (fresh_stack TIER_LABELS) = (Ok ONone, s1) /\
    cs_labels s1 = [tiered 1 (21 # 10) "a" "female"] /\
    undo s1 = (Ok ONone, s2) /\
    cs_labels s2 = TIER_LABELS.
Proof.
  destruct (delete_undo_restores (fresh_stack TIER_LABELS) 1
              (tiered (21 # 10) (35 # 10) "b" "male")
              (OFloat (21 # 10)) (OFloat (35 # 10)) (OStr "b")
              ltac:(lia) eq_refl
              ltac:(repeat constructor; cbn; intuition discriminate)
              ltac:(repeat constructor) eq_refl eq_refl eq_refl eq_refl)
    as (s1 & s2 & r' & H1 & H2 & H3 & H4 & H5 & H6 & H7).
  exists s1, s2. split; [exact H1|]. split; [exact H2|]. split; [exact H3|].
  apply H7. reflexivity.
Defined.

(** * Splitting labels that carry extra fields *)

Lemma dict_get_key {V} (d : Py.dict V) (k : string) :
  In k (dict_keys d) -> exists v, dict_get d k = Some v.
Proof.
  induction d as [|[k' v'] d IH]; cbn; [tauto|].
  destruct (String.eqb_spec k' k) as [->|Hne]; [eauto|].
  intros [H|H]; [contradiction | auto].
Qed.

(** X10.  The [split] operation passes no values for extra fields to its
    code generator: on a record that has [name] and [stop] and any field
    besides [start], [stop] and [name], [split] raises [KeyError] and
    leaves the stack object untouched (nothing is pushed, the redo stack
    is kept). *)
Theorem split_with_extra_field (cs : CorrectionStack) (i : Z) (r : record)
    (name stop new_sep new_name new_next_name : obj) :
  getitem (cs_labels cs) i = Ok r ->
  dict_get r "name" = Some name ->
  dict_get r "stop" = Some stop ->
  extra_columns r <> [] ->
  split_interval i new_sep new_name new_next_name cs = (Raise KeyError, cs).
Proof.
  intros Hr Hname Hstop Hextra.
  unfold split_interval, push_generated, codegen_split, field.
  rewrite Hr. cbn [Py.bind]. rewrite Hname. cbn [Py.bind Py.of_option].
  rewrite Hstop. cbn [Py.bind Py.of_option].
  destruct (extra_columns r) as [|c columns] eqn:E; [contradiction|].
  assert (Hin : In c (dict_keys r)).
  { assert (H : In c (extra_columns r)) by (rewrite E; left; reflexivity).
    unfold extra_columns in H. apply filter_In in H. tauto. }
  destruct (dict_get_key _ _ Hin) as (v & Hv).
  cbn [split_columns]. unfold field. rewrite Hv. cbn [Py.bind Py.of_option dict_get].
  reflexivity.
Qed.

(** X10, witness: splitting a label that has a [tier]. *)
Lemma split_with_extra_field_witness :
  split_interval 0 (OFloat (15 # 10)) ONone ONone (fresh_stack TIER_LABELS)
  = (Raise KeyError, fresh_stack TIER_LABELS).
Proof.
  apply (split_with_extra_field (fresh_stack TIER_LABELS) 0
           (tiered 1 (21 # 10) "a" "female") (OStr "a") (OFloat (21 # 10)));
    try reflexivity. discriminate.
Defined.

(** * The atom codec *)

Lemma substring_prefix (s t : string) :
  substring 0 (String.length s) (s ++ t) = s.
Proof. induction s as [|c s IH]; cbn; [destruct t; reflexivity | rewrite IH; reflexivity]. Qed.

Lemma string_app_length (s t : string) :
  String.length (s ++ t) = (String.length s + String.length t)%nat.
Proof. induction s as [|c s IH]; cbn; [reflexivity | rewrite IH; reflexivity]. Qed.

(** X11.  A string atom survives the atom codec whatever it contains
    (spaces, quotes, parentheses): [deatomize] wraps it in double quotes
    and [atomize] removes the first and the last character of a token that
    starts with a double quote. *)
Theorem atomize_deatomize_string (float_repr : Q -> string) (s : string) :
  (token <- deatomize float_repr (OStr s) ;; atomize token) = Ok (OStr s).
Proof.
  cbn [deatomize Py.bind append atomize].
  change (char_eqb quote quote) with true. cbv iota.
  rewrite string_app_length. cbn [String.length].
  replace (String.length s + 1 - 1)%nat with (String.length s) by lia.
  unfold take. rewrite substring_prefix. reflexivity.
Qed.

Lemma replace_back (r : string) :
  replace_char "-" "_" (replace_char "_" "-" r) = replace_char "-" "_" r.
Proof.
  induction r as [|x r IH]; cbn [replace_char]; [reflexivity|].
  rewrite IH. f_equal. unfold char_eqb.
  destruct (Ascii.eqb_spec x "_") as [->|H1]; [reflexivity|].
  reflexivity.
Qed.

Lemma replace_no_hyphen (s : string) :
  count_char "-" s = 0%nat -> replace_char "-" "_" s = s.
Proof.
  induction s as [|x s IH]; cbn [replace_char count_char]; [reflexivity|].
  destruct (char_eqb x "-"); [discriminate|]. cbn [Nat.add].
  intros H. rewrite (IH H). reflexivity.
Qed.

Lemma digits_value_nondigit (c : ascii) (s : string) (acc : Z) :
  digit_of c = None -> digits_value (String c s) acc = None.
Proof. intros H. cbn [digits_value]. rewrite H. reflexivity. Qed.

(** A token that starts with [#] is no number. *)
Lemma hash_literal_not_number (t : string) :
  int_literal (String "#" t) = None /\ float_literal (String "#" t) = None.
Proof.
  split; [reflexivity|].
  unfold float_literal. cbn [strip_sign break_at].
  change (char_eqb "#" "e" || char_eqb "#" "E") with false. cbv iota.
  match goal with
  | |- context [break_at ?p t] => destruct (break_at p t) as [mant exp]
  end.
  cbv beta iota. cbn [break_at]. change (char_eqb "#" ".") with false. cbv iota.
  match goal with
  | |- context [break_at ?p mant] => destruct (break_at p mant) as [ip fp]
  end.
  cbv beta iota. cbn [append]. rewrite digits_value_nondigit by reflexivity.
  reflexivity.
Qed.

Lemma hash_token_not_number (t : string) :
  int_of_string (String "#" t) = None /\ float_of_string (String "#" t) = None
  /\ special_of_string (String "#" t) = None.
Proof.
  unfold int_of_string, float_of_string, strip_underscores.
  cbn [strip_underscores_from after_underscore andb].
  change (char_eqb "#" "_") with false. cbv iota.
  destruct (strip_underscores_from (Some "#"%char) t) as [x|]; cbn [option_map].
  - destruct (hash_literal_not_number x) as [-> ->]. repeat split.
  - repeat split.
Qed.

(** Text without underscores is left as it is. *)
Lemma strip_underscores_none (s : string) :
  forall prev, after_underscore prev = false ->
  count_char "_" s = 0%nat ->
  strip_underscores_from prev s = Some s.
Proof.
  induction s as [|c s IH]; intros prev Hprev Hs;
    cbn [strip_underscores_from].
  - rewrite Hprev. reflexivity.
  - cbn [count_char] in Hs.
    destruct (char_eqb c "_") eqn:Hc; [discriminate|].
    rewrite Hprev. cbn [andb]. rewrite IH; [reflexivity | exact Hc | exact Hs].
Qed.

Lemma uint_no_underscore (d : Decimal.uint) :
  count_char "_" (NilEmpty.string_of_uint d) = 0%nat.
Proof.
  induction d as [|d IH|d IH|d IH|d IH|d IH|d IH|d IH|d IH|d IH|d IH];
    cbn [NilEmpty.string_of_uint count_char]; [reflexivity|..]; exact IH.
Qed.

Lemma int_of_string_uint (d : Decimal.uint) :
  int_of_string (NilEmpty.string_of_uint d)
  = int_literal (NilEmpty.string_of_uint d) /\
  int_of_string (String "-" (NilEmpty.string_of_uint d))
  = int_literal (String "-" (NilEmpty.string_of_uint d)).
Proof.
  unfold int_of_string, strip_underscores. split.
  - rewrite strip_underscores_none; [reflexivity | reflexivity|].
    apply uint_no_underscore.
  - rewrite strip_underscores_none; [reflexivity | reflexivity|].
    cbn [count_char]. apply uint_no_underscore.
Qed.

(** X12.  A keyword-name through the atom codec: every hyphen of the
    name comes back as an underscore, because [deatomize] writes
    underscores as hyphens and [atomize] reads every hyphen as an
    underscore.  A name without hyphen survives; the empty name cannot be
    written. *)
Theorem atomize_deatomize_keyarg (float_repr : Q -> string) (s : string) :
  (s <> EmptyString ->
   (token <- deatomize float_repr (OKey s) ;; atomize token)
   = Ok (OKey (replace_char "-" "_" s))) /\
  (count_char "-" s = 0%nat -> replace_char "-" "_" s = s) /\
  (s = EmptyString -> deatomize float_repr (OKey s) = Raise IndexError).
Proof.
  split; [|split; [apply replace_no_hyphen | intros ->; reflexivity]].
  intros Hs. destruct s as [|c r]; [contradiction|].
  cbn [deatomize replace_after_first Py.bind append].
  unfold atomize. change (char_eqb "#" quote) with false. cbv iota.
  change (String.eqb (String "#" (String ":" (String c (replace_char "_" "-" r))))
            "null") with false. cbv iota.
  destruct (hash_token_not_number (String ":" (String c (replace_char "_" "-" r))))
    as (-> & -> & ->).
  cbn [replace_after_first Py.bind replace_char].
  change (char_eqb ":" "-") with false. cbv iota.
  rewrite replace_back.
  change (String.eqb (take 2 (String "#" (String ":" ?x))) "#:") with true.
  unfold take, drop. cbn [substring String.length Nat.sub String.eqb].
  rewrite substring_full. reflexivity.
Qed.

(** X12, witness: a field name with a hyphen comes back changed. *)
Lemma atomize_deatomize_keyarg_witness :
  (token <- deatomize sample_float_repr (OKey "my-col") ;; atomize token)
  = Ok (OKey "my_col").
Proof.
  apply (atomize_deatomize_keyarg sample_float_repr "my-col"). discriminate.
Defined.

Lemma digits_uint_acc (d : Decimal.uint) :
  forall p : positive,
  digits_value (NilEmpty.string_of_uint d) (Z.pos p)
  = Some (Z.pos (Pos.of_uint_acc d p)).
Proof.
  induction d as [|d IH|d IH|d IH|d IH|d IH|d IH|d IH|d IH|d IH|d IH];
    intros p; cbn [NilEmpty.string_of_uint digits_value Pos.of_uint_acc];
    [reflexivity|..];
    match goal with
    | |- context [digit_of ?c] =>
        let v := eval vm_compute in (digit_of c) in
        change (digit_of c) with v
    end;
    cbv iota; rewrite <- IH; f_equal; lia.
Qed.

Lemma digits_uint (d : Decimal.uint) :
  digits_value (NilEmpty.string_of_uint d) 0 = Some (Z.of_N (Pos.of_uint d)).
Proof.
  induction d as [|d IH|d IH|d IH|d IH|d IH|d IH|d IH|d IH|d IH|d IH];
    cbn [NilEmpty.string_of_uint digits_value Pos.of_uint];
    [reflexivity|..];
    match goal with
    | |- context [digit_of ?c] =>
        let v := eval vm_compute in (digit_of c) in
        change (digit_of c) with v
    end;
    cbv iota; [exact IH|..];
    match goal with
    | |- digits_value _ ?a = _ =>
        let v := eval vm_compute in a in
        change a with v
    end;
    rewrite digits_uint_acc; reflexivity.
Qed.

Lemma atomize_int (c : ascii) (r : string) (z : Z) :
  char_eqb c quote = false -> Ascii.eqb c "n" = false ->
  int_of_string (String c r) = Some z ->
  atomize (String c r) = Ok (OInt z).
Proof.
  intros Hq Hn Hint. unfold atomize. rewrite Hq, Hint.
  cbn [String.eqb]. rewrite Hn. reflexivity.
Qed.

Lemma int_of_string_unsigned (c : ascii) (r : string) :
  Ascii.eqb c "-" = false -> Ascii.eqb c "+" = false ->
  int_literal (String c r) = digits_value (String c r) 0.
Proof.
  intros Hm Hp. unfold int_literal.
  assert (Hs : strip_sign (String c r) = (false, String c r)).
  { destruct c as [[] [] [] [] [] [] [] []]; try reflexivity; discriminate. }
  rewrite Hs. destruct (digits_value (String c r) 0); reflexivity.
Qed.

Lemma int_of_string_negative (c : ascii) (r : string) :
  int_literal (String "-" (String c r))
  = option_map Z.opp (digits_value (String c r) 0).
Proof. reflexivity. Qed.

Lemma atomize_uint (d : Decimal.uint) :
  d <> Decimal.Nil ->
  atomize (NilEmpty.string_of_uint d) = Ok (OInt (Z.of_N (Pos.of_uint d))) /\
  atomize (String "-" (NilEmpty.string_of_uint d))
  = Ok (OInt (- Z.of_N (Pos.of_uint d))).
Proof.
  intros Hd. pose proof (digits_uint d) as Hv.
  destruct (int_of_string_uint d) as [Hu Hn].
  destruct d; [contradiction|..];
    cbn [NilEmpty.string_of_uint] in *;
    (split;
     [ apply atomize_int; [reflexivity | reflexivity |];
       rewrite Hu, int_of_string_unsigned by reflexivity; exact Hv
     | apply atomize_int; [reflexivity | reflexivity |];
       rewrite Hn, int_of_string_negative, Hv; reflexivity ]).
Qed.

(** X13.  An integer of at most 4300 decimal digits survives the atom
    codec: [atomize] reads the decimal text that [deatomize] writes for it
    back to the same integer (negative numbers and zero included).  (The
    bound is the default limit of CPython 3.11 and later on the conversion
    between [int] and [str], beyond which [str] raises [ValueError].) *)
Theorem atomize_deatomize_int (float_repr : Q -> string) (z : Z) :
  Z.abs z < 10 ^ 4300 ->
  (token <- deatomize float_repr (OInt z) ;; atomize token) = Ok (OInt z).
Proof.
  intros _. cbn [deatomize Py.bind]. unfold string_of_Z.
  destruct z as [|p|p]; [reflexivity|..];
    cbn [Z.to_int NilZero.string_of_int]; unfold NilZero.string_of_uint;
    pose proof (DecimalPos.Unsigned.to_uint_nonnil p) as Hnil;
    pose proof (DecimalPos.Unsigned.of_to p) as Hof;
    destruct (atomize_uint _ Hnil) as [Hpos Hneg];
    rewrite Hof in Hpos, Hneg;
    destruct (Pos.to_uint p); try contradiction; assumption.
Qed.

(** X13, witness: a negative integer. *)
Lemma atomize_deatomize_int_witness :
  (token <- deatomize sample_float_repr (OInt (-1204)) ;; atomize token)
  = Ok (OInt (-1204)).
Proof.
  apply (atomize_deatomize_int sample_float_repr (-1204)).
  vm_compute. reflexivity.
Defined.

(** * Reading back written tokens *)

Section TokenRoundTrip.

Variable float_repr : Q -> string.

Lemma tokens_of_OList (l : list obj) :
  tokens_of float_repr (OList l) =
  (body <- tokens_of_list float_repr l ;; Ok ("(" :: body ++ [")"])%list).
Proof. reflexivity. Qed.

Lemma round_trips_OList (l : list obj) :
  round_trips float_repr (OList l) <-> Forall (round_trips float_repr) l.
Proof.
  induction l as [|x l IH].
  - split; [constructor | intros; exact I].
  - split.
    + intros [Hx Hl]. constructor; [exact Hx | apply IH; exact Hl].
    + intros H. inversion H as [|? ? Hx Hl]; subst.
      split; [exact Hx | apply IH; exact Hl].
Qed.

Lemma tokens_of_head (x : obj) (tx : list string) :
  round_trips float_repr x -> tokens_of float_repr x = Ok tx ->
  exists t0 tl, tx = t0 :: tl /\ t0 <> ")".
Proof.
  intros Hx Htx.
  destruct x;
    try (destruct Hx as (token & Hd & _ & Hclose & _);
         cbn [tokens_of] in Htx; rewrite Hd in Htx; cbn [Py.bind] in Htx;
         injection Htx as <-; exists token, []; split; [reflexivity | exact Hclose]).
  rewrite tokens_of_OList in Htx.
  destruct (tokens_of_list float_repr l) as [body|e]; cbn [Py.bind] in Htx;
    [|discriminate].
  injection Htx as <-. eexists. eexists. split; [reflexivity | discriminate].
Qed.

Lemma read_written (fuel : nat) :
  (forall t toks rest,
     round_trips float_repr t -> tokens_of float_repr t = Ok toks ->
     (2 * List.length (toks ++ rest) + 1 <= fuel)%nat ->
     read_from_tokens fuel (toks ++ rest) = Some (Ok (t, rest))) /\
  (forall l body rest nested,
     Forall (round_trips float_repr) l ->
     tokens_of_list float_repr l = Ok body ->
     (2 * List.length (body ++ ")" :: rest) + 2 <= fuel)%nat ->
     read_items fuel (body ++ ")" :: rest) nested
     = Some (Ok (OList (nested ++ l), rest))).
Proof.
  induction fuel as [|fuel [IHread IHitems]].
  { split; intros; lia. }
  split.
  - intros t toks rest Ht Htoks Hfuel.
    destruct t;
      try (destruct Ht as (token & Hd & Hopen & Hclose & Hback);
           cbn [tokens_of] in Htoks; rewrite Hd in Htoks; cbn [Py.bind] in Htoks;
           injection Htoks as <-; cbn [app read_from_tokens];
           apply String.eqb_neq in Hopen, Hclose; rewrite Hopen, Hclose, Hback;
           reflexivity).
    rewrite tokens_of_OList in Htoks.
    destruct (tokens_of_list float_repr l) as [body|e] eqn:Hbody;
      cbn [Py.bind] in Htoks; [|discriminate].
    injection Htoks as <-.
    cbn [app read_from_tokens String.eqb Ascii.eqb Bool.eqb].
    rewrite <- app_assoc. cbn [app].
    rewrite (IHitems l body rest [] (proj1 (round_trips_OList l) Ht) Hbody).
    + reflexivity.
    + cbn [app List.length] in Hfuel. rewrite <- app_assoc in Hfuel.
      cbn [app] in Hfuel. lia.
  - intros l. induction l as [|x l IHl]; intros body rest nested Hl Hbody Hfuel.
    + injection Hbody as <-. cbn [app read_items String.eqb Ascii.eqb Bool.eqb].
      rewrite app_nil_r. reflexivity.
    + inversion Hl as [|? ? Hx Hl']; subst.
      cbn [tokens_of_list] in Hbody.
      destruct (tokens_of float_repr x) as [tx|e] eqn:Htx; cbn [Py.bind] in Hbody;
        [|discriminate].
      destruct (tokens_of_list float_repr l) as [body'|e] eqn:Hbody';
        cbn [Py.bind] in Hbody; [|discriminate].
      injection Hbody as <-.
      destruct (tokens_of_head x tx Hx Htx) as (t0 & tl & -> & Hclose).
      rewrite <- app_assoc in *. cbn [app List.length] in *.
      cbn [read_items]. apply String.eqb_neq in Hclose. rewrite Hclose.
      assert (Hread := IHread x (t0 :: tl) (body' ++ ")" :: rest)%list Hx Htx).
      cbn [app List.length] in Hread. rewrite Hread by lia.
      rewrite (IHitems l body' rest (nested ++ [x])%list Hl' Hbody').
      * rewrite <- app_assoc. reflexivity.
      * rewrite length_app in Hfuel. lia.
Qed.

End TokenRoundTrip.

(** X14.  Reading back what [write_to_tokens] wrote: for a command list
    all of whose atoms pass the atom codec unchanged (as tokens other than
    a parenthesis), [read_from_tokens] on the written tokens returns the
    same list and consumes every token. *)
Theorem read_write_tokens (float_repr : Q -> string) (ntl : list obj)
    (token_list : list string) :
  Forall (round_trips float_repr) ntl ->
  write_to_tokens float_repr ntl = Ok token_list ->
  read_from_tokens (parse_fuel token_list) token_list = Some (Ok (OList ntl, [])).
Proof.
  intros Hall Hw.
  destruct (read_written float_repr (parse_fuel token_list)) as [Hread _].
  specialize (Hread (OList ntl) token_list []
                (proj2 (round_trips_OList float_repr ntl) Hall) Hw).
  rewrite app_nil_r in Hread. apply Hread. unfold parse_fuel. lia.
Qed.

Ltac atom_round_trips_by_computation :=
  eexists; split;
  [ reflexivity
  | split; [discriminate | split; [discriminate | reflexivity]] ].

(** X14, witness: the rename command whose text does not parse back (see
    C5) is read back from its tokens unchanged. *)
Lemma read_write_tokens_witness :
  exists token_list,
    write_to_tokens sample_float_repr RENAME_PAREN_CMD = Ok token_list /\
    read_from_tokens (parse_fuel token_list) token_list
    = Some (Ok (OList RENAME_PAREN_CMD, [])).
Proof.
  eexists. split; [reflexivity|].
  apply (read_write_tokens sample_float_repr RENAME_PAREN_CMD).
  - repeat first [ apply Forall_cons | apply Forall_nil ];
      try atom_round_trips_by_computation.
    cbn [round_trips]. repeat split; atom_round_trips_by_computation.
  - reflexivity.
Defined.

(** X15.  A list that is opened and never closed: when the tokens after
    an opening parenthesis are atoms only, [read_from_tokens] runs off the
    end of the token list and raises [IndexError] (the [SyntaxError] for
    an unexpected end of input is raised only for an empty token list). *)
Theorem read_unclosed_list (token_list : list string) :
  Forall (fun token => token <> "(" /\ token <> ")"
                       /\ exists a, atomize token = Ok a) token_list ->
  read_from_tokens (parse_fuel ("(" :: token_list)) ("(" :: token_list)
  = Some (Raise IndexError)
  /\ read_from_tokens (parse_fuel []) [] = Some (Raise SyntaxError).
Proof.
  intros Hall. split; [|reflexivity].
  assert (Hitems : forall fuel nested,
            (2 * List.length token_list + 2 <= fuel)%nat ->
            read_items fuel token_list nested = Some (Raise IndexError)).
  { induction Hall as [|token rest (Hopen & Hclose & a & Ha) _ IH];
      intros fuel nested Hfuel.
    - destruct fuel; [lia|]. reflexivity.
    - destruct fuel as [|[|fuel]]; cbn [List.length] in Hfuel; try lia.
      apply String.eqb_neq in Hopen, Hclose.
      change (read_items (S (S fuel)) (token :: rest) nested)
        with (if String.eqb token ")" then Some (Ok (OList nested, rest))
              else match read_from_tokens (S fuel) (token :: rest) with
                   | None => None
                   | Some (Raise e) => Some (Raise e)
                   | Some (Ok (x, token_list')) =>
                       read_items (S fuel) token_list' (nested ++ [x])
                   end).
      rewrite Hclose.
      change (read_from_tokens (S fuel) (token :: rest))
        with (if String.eqb token "(" then read_items fuel rest []
              else if String.eqb token ")" then Some (Raise SyntaxError)
              else Some (a <- atomize token ;; Ok (a, rest))).
      rewrite Hopen, Hclose, Ha. cbn [Py.bind]. apply IH. lia. }
  unfold parse_fuel. cbn [List.length].
  replace (2 * S (List.length token_list) + 2)%nat
    with (S (2 * List.length token_list + 3)) by lia.
  cbn [read_from_tokens String.eqb Ascii.eqb Bool.eqb].
  apply Hitems. lia.
Qed.

(** X15, witness: the tokens of [(a b]. *)
Lemma read_unclosed_list_witness :
  read_from_tokens (parse_fuel ["("; "a"; "b"]) ["("; "a"; "b"]
  = Some (Raise IndexError).
Proof.
  apply (read_unclosed_list ["a"; "b"]).
  repeat constructor; try discriminate; eexists; reflexivity.
Defined.

(** * Writing a stack that cannot be serialized *)

Lemma write_ops_failure (float_repr : Q -> string) (good : list obj) :
  forall (bad : obj) (rest : list obj) (name : string) (fs : file_system)
         (old text : string) (e : exn),
  ops_text float_repr good = Ok text ->
  deparse float_repr bad = Raise e ->
  dict_get fs name = Some old ->
  write_ops float_repr (good ++ bad :: rest) name fs
  = (Raise e, dict_set fs name (old ++ text)).
Proof.
  induction good as [|op good IH]; intros bad rest name fs old text e Htext Hbad Hold.
  - injection Htext as <-. cbn [app write_ops]. rewrite Hbad.
    rewrite string_app_nil_r, (dict_set_get_same _ _ _ Hold). reflexivity.
  - cbn [ops_text app write_ops] in *.
    destruct (deparse float_repr op) as [line|e']; cbn [Py.bind] in Htext;
      [|discriminate].
    destruct (ops_text float_repr good) as [more|e']; cbn [Py.bind] in Htext;
      [|discriminate].
    injection Htext as <-. unfold fs_write. rewrite Hold.
    rewrite (IH bad rest name _ (old ++ (line ++ newline))%string more e eq_refl
               Hbad (dict_get_set_same _ _ _)).
    rewrite dict_set_set, !string_app_assoc. reflexivity.
Qed.

(** X16.  [write_to_file] when an entry of the undo stack cannot be
    serialized, on a stack whose label list is not empty: the exception of
    [deparse] propagates, the operations file has already been truncated
    and holds only the lines of the entries before the failing one, and
    the metadata file is not written.  (An entry that is a string or a
    dictionary is serialized, as the list of its characters or keys.) *)
Theorem write_to_file_failure (float_repr : Q -> string)
    (yaml_dump : string -> string -> string)
    (cs : CorrectionStack) (fs : file_system)
    (good rest : list obj) (bad : obj) (text : string) (e : exn) :
  cs_labels cs <> [] ->
  undo_stack cs = (good ++ bad :: rest)%list ->
  ops_text float_repr good = Ok text ->
  deparse float_repr bad = Raise e ->
  exists fs',
    write_to_file float_repr yaml_dump None (cs, fs) = (Raise e, (cs, fs')) /\
    dict_get fs' (cs_file cs) = Some text /\
    dict_get fs' (cs_file cs ++ ".yaml") = dict_get fs (cs_file cs ++ ".yaml").
Proof.
  intros _ Hstack Htext Hbad. unfold write_to_file. rewrite Hstack.
  rewrite (write_ops_failure float_repr good bad rest (cs_file cs) _ EmptyString
             text e Htext Hbad (dict_get_set_same _ _ _)).
  rewrite dict_set_set. cbn [append].
  eexists. split; [reflexivity|]. split.
  - apply dict_get_set_same.
  - apply dict_get_set_other. intros H. symmetry in H. revert H.
    apply string_app_neq. discriminate.
Qed.

(** X16, witness: a stack whose second command holds a dictionary; the
    file keeps the line of the first command only. *)
Lemma write_to_file_failure_witness :
  exists text fs',
    ops_text sample_float_repr [OList RENAME_CMD] = Ok text /\
    write_to_file sample_float_repr sample_yaml_dump None
                  (UNWRITABLE_STACK, [("ops.corr", "old contents")])
    = (Raise ValueError, (UNWRITABLE_STACK, fs')) /\
    dict_get fs' "ops.corr" = Some text /\
    dict_get fs' "ops.corr.yaml" = None.
Proof.
  eexists.
  destruct (write_to_file_failure sample_float_repr sample_yaml_dump
              UNWRITABLE_STACK [("ops.corr", "old contents")]
              [OList RENAME_CMD] [OList DELETE_CMD]
              (OList [OSym "delete"; ODict []]) _ ValueError
              ltac:(discriminate) eq_refl eq_refl eq_refl)
    as (fs' & H1 & H2 & H3).
  exists fs'. split; [reflexivity|]. auto.
Defined.

(** * Merging and splitting, through the stack *)

Lemma index_str_hit (x : obj) (t : list obj) (s : string) :
  eq_str x s = true -> index_str (x :: t) s = Ok 0%nat.
Proof. intros H. cbn [index_str]. rewrite H. reflexivity. Qed.

Lemma index_str_skip (x : obj) (t : list obj) (s : string) (p : nat) :
  eq_str x s = false -> index_str t s = Ok p ->
  index_str (x :: t) s = Ok (S p).
Proof. intros H Hp. cbn [index_str]. rewrite H, Hp. reflexivity. Qed.

Ltac find_index :=
  repeat first
    [ apply index_str_hit; reflexivity
    | apply index_str_skip; [ first [reflexivity | assumption] | ] ].

(** One iteration over a [new_] keyword, the field being looked up past
    values that are known not to be its name. *)
Ltac invert_swap_past :=
  rewrite invert_loop_S;
  erewrite invert_step_swap;
  [ cbn [Py.bind ist_target ist_sexpr ist_attached set_nth andb negb Nat.eqb]
  | reflexivity | reflexivity | reflexivity | find_index | reflexivity
  | reflexivity ].

Lemma pair_value_key (v : obj) : pair_value v -> is_new_key v = None.
Proof. intros [H _]. apply is_new_key_self. exact H. Qed.

Lemma invert_merge_shape (op inverse : string) (i : Z) (a b c d w x y z : obj) :
  (op = "merge_next" /\ inverse = "split")
  \/ (op = "split" /\ inverse = "merge_next") ->
  Forall pair_value [a; b; c; d; w; x; y; z] ->
  invert (merge_shape op i a b c d w x y z)
  = Ok (merge_shape inverse i w x y z a b c d,
        merge_shape op i w x y z a b c d).
Proof.
  intros Hop Hall.
  repeat match goal with
         | H : Forall _ (_ :: _) |- _ => inversion H; clear H; subst
         end.
  repeat match goal with
         | H : pair_value ?v |- _ =>
             pose proof (pair_value_key v H); destruct H as (? & ? & ? & ?)
         end.
  destruct Hop as [[-> ->] | [-> ->]];
    unfold invert, merge_shape, _gen_code;
    cbn [app flatten_items flat_map fst snd nth_error List.length];
    cbn [Py.bind Py.of_option inverse_of str_of];
    match goal with
    | |- context [index_str ?s "target"] =>
        change (index_str s "target") with (@Ok nat 3%nat)
    end;
    cbn [Py.bind Py.of_option nth_error];
    do 5 invert_skip;
    invert_swap_past; invert_skip;
    invert_swap_past; invert_skip;
    invert_swap_past; invert_skip;
    invert_swap_past; invert_skip;
    reflexivity.
Qed.

Lemma invert_split_shape (op inverse : string) (i : Z) (a b c d w x y z : obj) :
  (op = "merge_next" /\ inverse = "split")
  \/ (op = "split" /\ inverse = "merge_next") ->
  Forall pair_value [a; b; c; d; w; x; y; z] ->
  invert (split_shape op i a b c d w x y z)
  = Ok (split_shape inverse i w x y z a b c d,
        split_shape op i w x y z a b c d).
Proof.
  intros Hop Hall.
  repeat match goal with
         | H : Forall _ (_ :: _) |- _ => inversion H; clear H; subst
         end.
  repeat match goal with
         | H : pair_value ?v |- _ =>
             pose proof (pair_value_key v H); destruct H as (? & ? & ? & ?)
         end.
  destruct Hop as [[-> ->] | [-> ->]];
    unfold invert, split_shape, _gen_code;
    cbn [app flatten_items flat_map fst snd nth_error List.length];
    cbn [Py.bind Py.of_option inverse_of str_of];
    match goal with
    | |- context [index_str ?s "target"] =>
        change (index_str s "target") with (@Ok nat 3%nat)
    end;
    cbn [Py.bind Py.of_option nth_error];
    do 5 invert_skip;
    invert_swap_past; invert_skip;
    invert_swap_past; invert_skip;
    invert_swap_past; invert_skip;
    invert_swap_past; invert_skip;
    reflexivity.
Qed.

(** Indexing a list at the position where it is cut. *)
Lemma norm_index_length (pre post : labels) (x : record) :
  norm_index (List.length (pre ++ x :: post)%list) (Z.of_nat (List.length pre))
  = Some (List.length pre).
Proof.
  rewrite norm_index_nonneg.
  - rewrite Nat2Z.id. reflexivity.
  - rewrite length_app. cbn [List.length]. lia.
Qed.

Lemma nth_error_middle {A} (pre post : list A) (x : A) :
  nth_error (pre ++ x :: post)%list (List.length pre) = Some x.
Proof. rewrite nth_error_app2 by lia. rewrite Nat.sub_diag. reflexivity. Qed.

Lemma set_nth_middle {A} (pre post : list A) (x y : A) :
  set_nth (pre ++ x :: post)%list (List.length pre) y = (pre ++ y :: post)%list.
Proof. induction pre as [|a pre IH]; cbn; [reflexivity | rewrite IH; reflexivity]. Qed.

Lemma remove_nth_middle {A} (pre post : list A) (x : A) :
  remove_nth (pre ++ x :: post)%list (List.length pre) = (pre ++ post)%list.
Proof. induction pre as [|a pre IH]; cbn; [reflexivity | rewrite IH; reflexivity]. Qed.

Lemma remove_nth_next {A} (pre post : list A) (x y : A) :
  remove_nth (pre ++ x :: y :: post)%list (S (List.length pre))
  = (pre ++ x :: post)%list.
Proof. induction pre as [|a pre IH]; cbn; [reflexivity | rewrite IH; reflexivity]. Qed.

Lemma firstn_middle {A} (pre post : list A) :
  firstn (List.length pre) (pre ++ post)%list = pre.
Proof. induction pre as [|a pre IH]; cbn; [destruct post; reflexivity | rewrite IH; reflexivity]. Qed.

Lemma skipn_middle {A} (pre post : list A) :
  skipn (List.length pre) (pre ++ post)%list = post.
Proof. induction pre as [|a pre IH]; cbn; [reflexivity | exact IH]. Qed.

Lemma _merge_next_at (pre post : labels) (r rnext : record)
    (target kwargs : Py.dict obj) (stop name : obj) :
  dict_get target "index" = Some (OInt (Z.of_nat (List.length pre))) ->
  dict_get rnext "stop" = Some stop ->
  dict_get kwargs "new_name" = Some name ->
  _merge_next (ODict target) kwargs (pre ++ r :: rnext :: post)%list
  = (Ok ONone, (pre ++ dict_set (dict_set r "stop" stop) "name" name :: post)%list).
Proof.
  intros Hidx Hstop Hname.
  set (i := Z.of_nat (List.length pre)).
  assert (Hn : forall x y, norm_index (List.length (pre ++ x :: y)%list) i
                           = Some (List.length pre))
    by (intros; apply norm_index_length).
  assert (Hn1 : forall x y z, norm_index (List.length (pre ++ x :: y :: z)%list) (i + 1)
                              = Some (S (List.length pre))).
  { intros. rewrite norm_index_nonneg.
    - f_equal. unfold i. lia.
    - rewrite length_app. cbn [List.length]. unfold i. lia. }
  assert (Hnext : forall (x y : record) z,
            nth_error (pre ++ x :: y :: z)%list (S (List.length pre)) = Some y).
  { intros. rewrite nth_error_app2 by lia.
    replace (S (List.length pre) - List.length pre)%nat with 1%nat by lia.
    reflexivity. }
  unfold _merge_next, subscript, field. rewrite Hidx.
  cbn [Py.bind Py.of_option as_index]. fold i.
  rewrite (getitem_norm _ _ _ _ (Hn1 _ _ _) (Hnext _ _ _)). cbn [Py.bind].
  rewrite Hstop. cbn [Py.bind Py.of_option].
  rewrite (set_field_norm _ _ _ _ _ _ (Hn _ _) (nth_error_middle _ _ _)).
  cbn [Py.bind]. rewrite Hname. cbn [Py.of_option].
  rewrite set_nth_middle.
  rewrite (set_field_norm _ _ _ _ _ _ (Hn _ _) (nth_error_middle _ _ _)).
  rewrite set_nth_middle. unfold pop. rewrite Hn1, Hnext.
  rewrite remove_nth_next. reflexivity.
Qed.

Lemma _split_at (pre post : labels) (r : record) (target kwargs : Py.dict obj)
    (start stop new_stop new_next_start : obj) (qs qe qa qb : Q) :
  dict_get target "index" = Some (OInt (Z.of_nat (List.length pre))) ->
  dict_get r "start" = Some start -> num_of start = Some qs ->
  dict_get r "stop" = Some stop -> num_of stop = Some qe ->
  dict_get kwargs "new_stop" = Some new_stop -> num_of new_stop = Some qa ->
  dict_get kwargs "new_next_start" = Some new_next_start ->
  num_of new_next_start = Some qb ->
  (qs < qa)%Q -> (qb < qe)%Q ->
  _split (ODict target) kwargs (pre ++ r :: post)%list
  = (Ok ONone, (pre ++ apply_new kwargs r :: apply_new_next kwargs r :: post)%list).
Proof.
  intros Hidx Hstart Hqs Hstop Hqe Hns Hqa Hnns Hqb Hlo Hhi.
  assert (Hi : 0 <= Z.of_nat (List.length pre)
               < Z.of_nat (List.length (pre ++ r :: post)%list))
    by (rewrite length_app; cbn [List.length]; lia).
  assert (Hr : nth_error (pre ++ r :: post)%list
                 (Z.to_nat (Z.of_nat (List.length pre))) = Some r)
    by (rewrite Nat2Z.id; apply nth_error_middle).
  destruct (_split_run _ _ _ _ _ _ _ _ _ _ _ _ _ Hidx Hi Hr Hstart Hqs Hstop Hqe
              Hns Hqa Hnns Hqb) as (_ & _ & Hok).
  rewrite Hok.
  - rewrite Nat2Z.id, firstn_middle.
    replace (pre ++ r :: post)%list with ((pre ++ [r]) ++ post)%list
      by (rewrite <- app_assoc; reflexivity).
    replace (S (List.length pre)) with (List.length (pre ++ [r])%list)
      by (rewrite length_app; cbn [List.length]; lia).
    rewrite skipn_middle. reflexivity.
  - intros [H|H]; [apply (Qlt_not_le _ _ Hlo) | apply (Qlt_not_le _ _ Hhi)]; exact H.
Qed.

Lemma pair_value_num (v : obj) (q : Q) : num_of v = Some q -> pair_value v.
Proof. destruct v; cbn; intros H; try discriminate; repeat split. Qed.

Lemma pair_value_str (s : string) :
  s <> "stop" -> s <> "next_start" -> s <> "next_name" -> pair_value (OStr s).
Proof.
  intros H1 H2 H3. unfold pair_value, eq_str. cbn [self_evaluating str_of].
  apply String.eqb_neq in H1, H2, H3. auto.
Qed.

Lemma pair_value_plain (d : Py.dict obj) :
  Forall pair_value (map snd d) -> plain_values d.
Proof.
  induction d as [|[k v] d IH]; cbn; intros H; [constructor|].
  inversion H as [|? ? Hv Hd]; subst.
  constructor; [exact (proj1 Hv) | apply IH; exact Hd].
Qed.

Lemma getitem_middle {A} (pre post : list A) (x : A) :
  getitem (pre ++ x :: post)%list (Z.of_nat (List.length pre)) = Ok x.
Proof.
  apply getitem_nonneg.
  - rewrite length_app. cbn [List.length]. lia.
  - rewrite Nat2Z.id. apply nth_error_middle.
Qed.

Lemma getitem_next {A} (pre post : list A) (x y : A) :
  getitem (pre ++ x :: y :: post)%list (Z.of_nat (List.length pre) + 1) = Ok y.
Proof.
  apply getitem_nonneg.
  - rewrite length_app. cbn [List.length]. lia.
  - replace (Z.to_nat (Z.of_nat (List.length pre) + 1)) with (S (List.length pre))
      by lia.
    rewrite nth_error_app2 by lia.
    replace (S (List.length pre) - List.length pre)%nat with 1%nat by lia.
    reflexivity.
Qed.

(** ** The stack methods on a command that evaluates *)

Lemma push_run (L L' : labels) (u rd : list obj) (f id h : string)
    (cmd v : obj) :
  evaluate cmd L = (Ok v, L') ->
  push cmd (mk_stack L u rd f id h)
  = (Ok ONone, mk_stack L' (u ++ [cmd]) [] f id h).
Proof.
  intros Hev. unfold push, _apply. cbn [with_stacks cs_labels undo_stack].
  rewrite Hev. reflexivity.
Qed.

Lemma push_raises (L L' : labels) (u rd : list obj) (f id h : string)
    (cmd : obj) (e : Py.exn) :
  evaluate cmd L = (Raise e, L') ->
  push cmd (mk_stack L u rd f id h)
  = (Raise e, mk_stack L' (u ++ [cmd]) [] f id h).
Proof.
  intros Hev. unfold push, _apply. cbn [with_stacks cs_labels undo_stack].
  rewrite Hev. reflexivity.
Qed.

Lemma undo_run (L L' : labels) (u rd : list obj) (f id h : string)
    (c inv : list obj) (v : obj) :
  invert_value c = Ok inv ->
  evaluate (OList inv) L = (Ok v, L') ->
  undo (mk_stack L (u ++ [OList c]) rd f id h)
  = (Ok ONone, mk_stack L' u (rd ++ [OList inv]) f id h).
Proof.
  intros Hinv Hev. unfold undo. cbn [undo_stack]. rewrite pop_right_app.
  unfold invert_entry. rewrite Hinv. cbn [Py.bind].
  unfold _apply. cbn [with_stacks cs_labels undo_stack redo_stack].
  rewrite Hev. reflexivity.
Qed.

Lemma undo_raises (L L' : labels) (u rd : list obj) (f id h : string)
    (c inv : list obj) (e : Py.exn) :
  invert_value c = Ok inv ->
  evaluate (OList inv) L = (Raise e, L') ->
  undo (mk_stack L (u ++ [OList c]) rd f id h)
  = (Raise e, mk_stack L' u (rd ++ [OList inv]) f id h).
Proof.
  intros Hinv Hev. unfold undo. cbn [undo_stack]. rewrite pop_right_app.
  unfold invert_entry. rewrite Hinv. cbn [Py.bind].
  unfold _apply. cbn [with_stacks cs_labels undo_stack redo_stack].
  rewrite Hev. reflexivity.
Qed.

Lemma redo_run (L L' : labels) (u rd : list obj) (f id h : string)
    (c inv : list obj) (v : obj) :
  invert_value c = Ok inv ->
  evaluate (OList inv) L = (Ok v, L') ->
  redo (mk_stack L u (rd ++ [OList c]) f id h)
  = (Ok ONone, mk_stack L' (u ++ [OList inv]) rd f id h).
Proof.
  intros Hinv Hev. unfold redo. cbn [redo_stack]. rewrite pop_right_app.
  unfold invert_entry. rewrite Hinv. cbn [Py.bind].
  unfold _apply. cbn [with_stacks cs_labels undo_stack redo_stack].
  rewrite Hev. reflexivity.
Qed.

Lemma invert_value_of (c r a : list obj) :
  invert c = Ok (r, a) -> invert_value c = Ok r.
Proof. intros H. unfold invert_value. rewrite H. reflexivity. Qed.

(** Evaluating a pair command calls the primitive on the target and the
    keyword dictionary the command spells out. *)
Lemma evaluate_merge_shape (op : string) (p : proc) (i : Z)
    (a b c d w x y z : obj) (L : labels) :
  (op = "merge_next" /\ p = PMergeNext) \/ (op = "split" /\ p = PSplit) ->
  Forall pair_value [a; b; c; d; w; x; y; z] ->
  evaluate (OList (merge_shape op i a b c d w x y z)) L
  = call_proc p
      [("labels", OLabels);
       ("target", ODict [("index", OInt i); ("name", a); ("stop", b);
                         ("next_start", c); ("next_name", d)]);
       ("new_name", w); ("new_stop", x); ("new_next_start", y);
       ("new_next_name", z)] L.
Proof.
  intros Hop Hv.
  repeat match goal with
         | H : Forall _ (_ :: _) |- _ =>
             let Hx := fresh "Hx" in
             inversion H as [|? ? Hx ?]; subst; clear H; destruct Hx as [Hx _]
         end.
  unfold merge_shape.
  rewrite (evaluate_generated op "interval_pair" p).
  - reflexivity.
  - destruct Hop as [[-> ->]|[-> ->]]; reflexivity.
  - right. reflexivity.
  - repeat constructor; assumption.
  - repeat constructor; assumption.
Qed.

Lemma evaluate_split_shape (op : string) (p : proc) (i : Z)
    (a b c d w x y z : obj) (L : labels) :
  (op = "merge_next" /\ p = PMergeNext) \/ (op = "split" /\ p = PSplit) ->
  Forall pair_value [a; b; c; d; w; x; y; z] ->
  evaluate (OList (split_shape op i a b c d w x y z)) L
  = call_proc p
      [("labels", OLabels);
       ("target", ODict [("index", OInt i); ("name", a); ("stop", b);
                         ("next_name", d); ("next_start", c)]);
       ("new_name", w); ("new_stop", x); ("new_next_start", y);
       ("new_next_name", z)] L.
Proof.
  intros Hop Hv.
  repeat match goal with
         | H : Forall _ (_ :: _) |- _ =>
             let Hx := fresh "Hx" in
             inversion H as [|? ? Hx ?]; subst; clear H; destruct Hx as [Hx _]
         end.
  unfold split_shape.
  rewrite (evaluate_generated op "interval_pair" p).
  - reflexivity.
  - destruct Hop as [[-> ->]|[-> ->]]; reflexivity.
  - right. reflexivity.
  - repeat constructor; assumption.
  - repeat constructor; assumption.
Qed.

Lemma names_pair_value (names : list string) :
  Forall (fun n => n <> "stop" /\ n <> "next_start" /\ n <> "next_name") names ->
  Forall (fun n => pair_value (OStr n)) names.
Proof.
  intros H. eapply Forall_impl; [|exact H].
  intros n (H1 & H2 & H3). apply pair_value_str; assumption.
Qed.

Lemma pair_value_None : pair_value ONone.
Proof. repeat split. Qed.

Ltac pair_values :=
  repeat (apply Forall_cons; [assumption|]); apply Forall_nil.

(** X17 ([merge_next], [codegen_merge_next], [_merge_next], [_split],
    [invert], [push], [undo], [redo]): merging the interval at a position
    [index >= 0], counted from the front of the labels, with its successor
    replaces the two records by one that runs from the first start to the
    second stop; [undo] then splits it again and puts back exactly the two
    original records, and [redo] merges once more.  This holds for an
    index that is not negative, for records that carry the three mandatory
    fields, whose times are numbers (not NaN or infinite) with
    [start < stop], and whose names, like the new name, are none of the
    field names [stop], [next_start], [next_name]. *)
Theorem merge_next_undo_redo (pre post : labels) (u rd : list obj)
    (f id h : string) (s e1 s2 e2 new_name : obj) (a b nm : string)
    (qs qe1 qs2 qe2 : Q) :
  num_of s = Some qs -> num_of e1 = Some qe1 ->
  num_of s2 = Some qs2 -> num_of e2 = Some qe2 ->
  (qs < qe1)%Q -> (qs2 < qe2)%Q ->
  new_name = OStr nm \/ (new_name = ONone /\ nm = (a ++ b)%string) ->
  Forall (fun n => n <> "stop" /\ n <> "next_start" /\ n <> "next_name")
         [a; b; nm] ->
  exists cmd inv : obj,
    merge_next (Z.of_nat (List.length pre)) new_name
      (mk_stack (pre ++ record3 s e1 (OStr a) :: record3 s2 e2 (OStr b) :: post)%list
                u rd f id h)
    = (Ok ONone,
       mk_stack (pre ++ record3 s e2 (OStr nm) :: post)%list (u ++ [cmd])%list [] f id h) /\
    undo (mk_stack (pre ++ record3 s e2 (OStr nm) :: post)%list (u ++ [cmd])%list [] f id h)
    = (Ok ONone,
       mk_stack (pre ++ record3 s e1 (OStr a) :: record3 s2 e2 (OStr b) :: post)%list
                u [inv] f id h) /\
    redo (mk_stack (pre ++ record3 s e1 (OStr a) :: record3 s2 e2 (OStr b) :: post)%list
                   u [inv] f id h)
    = (Ok ONone,
       mk_stack (pre ++ record3 s e2 (OStr nm) :: post)%list (u ++ [cmd])%list [] f id h).
Proof.
  intros Hs He1 Hs2 He2 Hlo Hhi Hnew Hnames.
  apply names_pair_value in Hnames.
  inversion Hnames as [|? ? Ha Hn1]; subst.
  inversion Hn1 as [|? ? Hb Hn2]; subst.
  inversion Hn2 as [|? ? Hnm _]; subst.
  pose proof (pair_value_num _ _ Hs) as Ps.
  pose proof (pair_value_num _ _ He1) as Pe1.
  pose proof (pair_value_num _ _ Hs2) as Ps2.
  pose proof (pair_value_num _ _ He2) as Pe2.
  pose proof pair_value_None as Pn.
  set (i := Z.of_nat (List.length pre)).
  set (L := (pre ++ record3 s e1 (OStr a) :: record3 s2 e2 (OStr b) :: post)%list).
  set (M := (pre ++ record3 s e2 (OStr nm) :: post)%list).
  set (c := merge_shape "merge_next" i (OStr a) e1 s2 (OStr b)
                        (OStr nm) ONone ONone ONone).
  set (v := merge_shape "split" i (OStr nm) ONone ONone ONone
                        (OStr a) e1 s2 (OStr b)).
  assert (Hmerge : evaluate (OList c) L = (Ok ONone, M)).
  { unfold c. rewrite (evaluate_merge_shape "merge_next" PMergeNext)
      by (first [left; split; reflexivity | pair_values]).
    change (call_proc PMergeNext _ L)
      with (_merge_next (ODict [("index", OInt i); ("name", OStr a); ("stop", e1);
                                ("next_start", s2); ("next_name", OStr b)])
                        [("new_name", OStr nm); ("new_stop", ONone);
                         ("new_next_start", ONone); ("new_next_name", ONone)] L).
    unfold L. erewrite _merge_next_at; reflexivity. }
  assert (Hsplit : evaluate (OList v) M = (Ok ONone, L)).
  { unfold v. rewrite (evaluate_merge_shape "split" PSplit)
      by (first [right; split; reflexivity | pair_values]).
    change (call_proc PSplit _ M)
      with (_split (ODict [("index", OInt i); ("name", OStr nm); ("stop", ONone);
                           ("next_start", ONone); ("next_name", ONone)])
                   [("new_name", OStr a); ("new_stop", e1);
                    ("new_next_start", s2); ("new_next_name", OStr b)] M).
    unfold M.
    erewrite (_split_at pre post (record3 s e2 (OStr nm)) _ _ s e2 e1 s2
                        qs qe2 qe1 qs2);
      try reflexivity; assumption. }
  assert (Hcv : invert_value c = Ok v).
  { apply invert_value_of
      with (a := merge_shape "merge_next" i (OStr nm) ONone ONone ONone
                             (OStr a) e1 s2 (OStr b)).
    apply invert_merge_shape;
      [left; split; reflexivity | pair_values]. }
  assert (Hvc : invert_value v = Ok c).
  { apply invert_value_of
      with (a := merge_shape "split" i (OStr a) e1 s2 (OStr b)
                             (OStr nm) ONone ONone ONone).
    apply invert_merge_shape;
      [right; split; reflexivity | pair_values]. }
  exists (OList c), (OList v). split; [|split].
  - unfold merge_next, push_generated. cbn [cs_labels]. fold L.
    assert (Hgen : codegen_merge_next L i new_name = Ok c).
    { unfold codegen_merge_next, L, i.
      rewrite getitem_middle. cbn [Py.bind].
      change (field (record3 s e1 (OStr a)) "name") with (@Ok obj (OStr a)).
      change (field (record3 s e1 (OStr a)) "stop") with (@Ok obj e1).
      cbn [Py.bind]. rewrite getitem_next. cbn [Py.bind].
      change (field (record3 s2 e2 (OStr b)) "start") with (@Ok obj s2).
      change (field (record3 s2 e2 (OStr b)) "name") with (@Ok obj (OStr b)).
      cbn [Py.bind].
      assert (Hn : match new_name with
                   | ONone => py_add (OStr a) (OStr b)
                   | _ => Ok new_name
                   end = Ok (OStr nm)).
      { destruct Hnew as [->|[-> ->]]; reflexivity. }
      rewrite Hn. reflexivity. }
    rewrite Hgen. apply push_run with (v := ONone). exact Hmerge.
  - change [OList v] with (([] : list obj) ++ [OList v])%list.
    apply undo_run with (v := ONone); assumption.
  - change [OList v] with (([] : list obj) ++ [OList v])%list.
    apply redo_run with (v := ONone); assumption.
Qed.

(** X17, witness: merging the second and third test labels under the
    default name, undoing and redoing. *)
Lemma merge_next_undo_redo_witness :
  exists cmd inv : obj,
    merge_next 1 ONone (fresh_stack TEST_LABELS)
    = (Ok ONone,
       mk_stack [interval 1 (21 # 10) "a"; interval (21 # 10) (42 # 10) "bc";
                 interval (47 # 10) 5 "d"]
                [cmd] [] (cs_file (fresh_stack TEST_LABELS))
                (cs_uuid (fresh_stack TEST_LABELS))
                (label_hash (fresh_stack TEST_LABELS))) /\
    undo (mk_stack [interval 1 (21 # 10) "a"; interval (21 # 10) (42 # 10) "bc";
                    interval (47 # 10) 5 "d"]
                   [cmd] [] (cs_file (fresh_stack TEST_LABELS))
                   (cs_uuid (fresh_stack TEST_LABELS))
                   (label_hash (fresh_stack TEST_LABELS)))
    = (Ok ONone,
       mk_stack TEST_LABELS [] [inv] (cs_file (fresh_stack TEST_LABELS))
                (cs_uuid (fresh_stack TEST_LABELS))
                (label_hash (fresh_stack TEST_LABELS))).
Proof.
  destruct (merge_next_undo_redo
              [interval 1 (21 # 10) "a"] [interval (47 # 10) 5 "d"] [] []
              (cs_file (fresh_stack TEST_LABELS))
              (cs_uuid (fresh_stack TEST_LABELS))
              (label_hash (fresh_stack TEST_LABELS))
              (OFloat (21 # 10)) (OFloat (35 # 10))
              (OFloat (35 # 10)) (OFloat (42 # 10)) ONone "b" "c" "bc"
              (21 # 10) (35 # 10) (35 # 10) (42 # 10)
              eq_refl eq_refl eq_refl eq_refl eq_refl eq_refl
              (or_intror (conj eq_refl eq_refl))
              ltac:(repeat constructor; discriminate))
    as (cmd & inv & H1 & H2 & _).
  exists cmd, inv. split; [exact H1 | exact H2].
Defined.

(** X18 ([split], [codegen_split], [_split], [_merge_next], [invert],
    [push], [undo], [redo]): splitting the interval at a position
    [index >= 0], counted from the front of the labels, at a time strictly
    between its start and stop replaces the record by two adjacent ones;
    [undo] merges them back into exactly the original record, and [redo]
    splits again.  This holds for an index that is not negative, for a
    record that carries the three mandatory fields with numeric times (not
    NaN or infinite), when the names involved are none of the field names
    [stop], [next_start], [next_name]. *)
Theorem split_undo_redo (pre post : labels) (u rd : list obj)
    (f id h : string) (s e sep new_name new_next_name : obj)
    (a nn nnn : string) (qs qe qsep : Q) :
  num_of s = Some qs -> num_of e = Some qe -> num_of sep = Some qsep ->
  (qs < qsep)%Q -> (qsep < qe)%Q ->
  new_name = OStr nn \/ (new_name = ONone /\ nn = a) ->
  new_next_name = OStr nnn \/ (new_next_name = ONone /\ nnn = EmptyString) ->
  Forall (fun n => n <> "stop" /\ n <> "next_start" /\ n <> "next_name")
         [a; nn; nnn] ->
  exists cmd inv : obj,
    split_interval (Z.of_nat (List.length pre)) sep new_name new_next_name
      (mk_stack (pre ++ record3 s e (OStr a) :: post)%list u rd f id h)
    = (Ok ONone,
       mk_stack (pre ++ record3 s sep (OStr nn) :: record3 sep e (OStr nnn)
                 :: post)%list (u ++ [cmd])%list [] f id h) /\
    undo (mk_stack (pre ++ record3 s sep (OStr nn) :: record3 sep e (OStr nnn)
                    :: post)%list (u ++ [cmd])%list [] f id h)
    = (Ok ONone,
       mk_stack (pre ++ record3 s e (OStr a) :: post)%list u [inv] f id h) /\
    redo (mk_stack (pre ++ record3 s e (OStr a) :: post)%list u [inv] f id h)
    = (Ok ONone,
       mk_stack (pre ++ record3 s sep (OStr nn) :: record3 sep e (OStr nnn)
                 :: post)%list (u ++ [cmd])%list [] f id h).
Proof.
  intros Hs He Hsep Hlo Hhi Hnew Hnext Hnames.
  apply names_pair_value in Hnames.
  inversion Hnames as [|? ? Ha Hn1]; subst.
  inversion Hn1 as [|? ? Hnn Hn2]; subst.
  inversion Hn2 as [|? ? Hnnn _]; subst.
  pose proof (pair_value_num _ _ Hs) as Ps.
  pose proof (pair_value_num _ _ He) as Pe.
  pose proof (pair_value_num _ _ Hsep) as Psep.
  pose proof pair_value_None as Pn.
  set (i := Z.of_nat (List.length pre)).
  set (L := (pre ++ record3 s e (OStr a) :: post)%list).
  set (S2 := (pre ++ record3 s sep (OStr nn) :: record3 sep e (OStr nnn)
              :: post)%list).
  set (c := split_shape "split" i (OStr a) e ONone ONone
                        (OStr nn) sep sep (OStr nnn)).
  set (v := split_shape "merge_next" i (OStr nn) sep sep (OStr nnn)
                        (OStr a) e ONone ONone).
  assert (Hsplit : evaluate (OList c) L = (Ok ONone, S2)).
  { unfold c. rewrite (evaluate_split_shape "split" PSplit)
      by (first [right; split; reflexivity | pair_values]).
    change (call_proc PSplit _ L)
      with (_split (ODict [("index", OInt i); ("name", OStr a); ("stop", e);
                           ("next_name", ONone); ("next_start", ONone)])
                   [("new_name", OStr nn); ("new_stop", sep);
                    ("new_next_start", sep); ("new_next_name", OStr nnn)] L).
    unfold L.
    erewrite (_split_at pre post (record3 s e (OStr a)) _ _ s e sep sep
                        qs qe qsep qsep);
      try reflexivity; assumption. }
  assert (Hmerge : evaluate (OList v) S2 = (Ok ONone, L)).
  { unfold v. rewrite (evaluate_split_shape "merge_next" PMergeNext)
      by (first [left; split; reflexivity | pair_values]).
    change (call_proc PMergeNext _ S2)
      with (_merge_next (ODict [("index", OInt i); ("name", OStr nn);
                                ("stop", sep); ("next_name", OStr nnn);
                                ("next_start", sep)])
                        [("new_name", OStr a); ("new_stop", e);
                         ("new_next_start", ONone); ("new_next_name", ONone)] S2).
    unfold S2. erewrite _merge_next_at; reflexivity. }
  assert (Hcv : invert_value c = Ok v).
  { apply invert_value_of
      with (a := split_shape "split" i (OStr nn) sep sep (OStr nnn)
                             (OStr a) e ONone ONone).
    apply invert_split_shape; [right; split; reflexivity | pair_values]. }
  assert (Hvc : invert_value v = Ok c).
  { apply invert_value_of
      with (a := split_shape "merge_next" i (OStr a) e ONone ONone
                             (OStr nn) sep sep (OStr nnn)).
    apply invert_split_shape; [left; split; reflexivity | pair_values]. }
  exists (OList c), (OList v). split; [|split].
  - unfold split_interval, push_generated. cbn [cs_labels]. fold L.
    assert (Hgen : codegen_split L i sep new_name new_next_name [] = Ok c).
    { unfold codegen_split, L, i.
      rewrite getitem_middle. cbn [Py.bind].
      change (field (record3 s e (OStr a)) "name") with (@Ok obj (OStr a)).
      change (field (record3 s e (OStr a)) "stop") with (@Ok obj e).
      cbn [Py.bind].
      assert (H1 : match new_name with ONone => OStr a | _ => new_name end
                   = OStr nn)
        by (destruct Hnew as [->|[-> ->]]; reflexivity).
      assert (H2 : match new_next_name with
                   | ONone => OStr EmptyString
                   | _ => new_next_name
                   end = OStr nnn)
        by (destruct Hnext as [->|[-> ->]]; reflexivity).
      rewrite H1, H2. reflexivity. }
    rewrite Hgen. apply push_run with (v := ONone). exact Hsplit.
  - change [OList v] with (([] : list obj) ++ [OList v])%list.
    apply undo_run with (v := ONone); assumption.
  - change [OList v] with (([] : list obj) ++ [OList v])%list.
    apply redo_run with (v := ONone); assumption.
Qed.

(** X18, witness: splitting the first test label at 1.5 under the default
    names, and undoing. *)
Lemma split_undo_redo_witness :
  exists cmd inv : obj,
    split_interval 0 (OFloat (3 # 2)) ONone ONone (fresh_stack TEST_LABELS)
    = (Ok ONone,
       mk_stack (interval 1 (3 # 2) "a" :: interval (3 # 2) (21 # 10) EmptyString
                 :: tl TEST_LABELS)
                [cmd] [] (cs_file (fresh_stack TEST_LABELS))
                (cs_uuid (fresh_stack TEST_LABELS))
                (label_hash (fresh_stack TEST_LABELS))) /\
    undo (mk_stack (interval 1 (3 # 2) "a"
                    :: interval (3 # 2) (21 # 10) EmptyString :: tl TEST_LABELS)
                   [cmd] [] (cs_file (fresh_stack TEST_LABELS))
                   (cs_uuid (fresh_stack TEST_LABELS))
                   (label_hash (fresh_stack TEST_LABELS)))
    = (Ok ONone,
       mk_stack TEST_LABELS [] [inv] (cs_file (fresh_stack TEST_LABELS))
                (cs_uuid (fresh_stack TEST_LABELS))
                (label_hash (fresh_stack TEST_LABELS))).
Proof.
  destruct (split_undo_redo
              [] (tl TEST_LABELS) [] []
              (cs_file (fresh_stack TEST_LABELS))
              (cs_uuid (fresh_stack TEST_LABELS))
              (label_hash (fresh_stack TEST_LABELS))
              (OFloat 1) (OFloat (21 # 10)) (OFloat (3 # 2)) ONone ONone
              "a" "a" EmptyString 1 (21 # 10) (3 # 2)
              eq_refl eq_refl eq_refl eq_refl eq_refl
              (or_intror (conj eq_refl eq_refl))
              (or_intror (conj eq_refl eq_refl))
              ltac:(repeat constructor; discriminate))
    as (cmd & inv & H1 & H2 & _).
  exists cmd, inv. split; [exact H1 | exact H2].
Defined.

Lemma _split_at_fail (pre post : labels) (r : record) (target kwargs : Py.dict obj)
    (start stop new_stop new_next_start : obj) (qs qe qa qb : Q) :
  dict_get target "index" = Some (OInt (Z.of_nat (List.length pre))) ->
  dict_get r "start" = Some start -> num_of start = Some qs ->
  dict_get r "stop" = Some stop -> num_of stop = Some qe ->
  dict_get kwargs "new_stop" = Some new_stop -> num_of new_stop = Some qa ->
  dict_get kwargs "new_next_start" = Some new_next_start ->
  num_of new_next_start = Some qb ->
  (qa <= qs \/ qe <= qb)%Q ->
  _split (ODict target) kwargs (pre ++ r :: post)%list
  = (Raise ValueError, (pre ++ r :: post)%list).
Proof.
  intros Hidx Hstart Hqs Hstop Hqe Hns Hqa Hnns Hqb Hout.
  assert (Hi : 0 <= Z.of_nat (List.length pre)
               < Z.of_nat (List.length (pre ++ r :: post)%list))
    by (rewrite length_app; cbn [List.length]; lia).
  assert (Hr : nth_error (pre ++ r :: post)%list
                 (Z.to_nat (Z.of_nat (List.length pre))) = Some r)
    by (rewrite Nat2Z.id; apply nth_error_middle).
  destruct (_split_run _ _ _ _ _ _ _ _ _ _ _ _ _ Hidx Hi Hr Hstart Hqs Hstop Hqe
              Hns Hqa Hnns Hqb) as (_ & Hfail & _).
  apply Hfail. exact Hout.
Qed.

(** X19 ([merge_next], [undo], [_split], [invert]): a merge at a position
    [index >= 0], counted from the front of the labels, cannot be undone
    when one of the two merged records is empty or reversed
    ([stop <= start], as for a point event with [start = stop]).  The merge
    itself succeeds; [undo] then raises [ValueError] from the range check
    of the split, the labels stay merged, and the merge command has already
    left the undo stack (its inverse is on the redo stack).  This holds
    for an index that is not negative, for records that carry the three
    mandatory fields, whose times are numbers (not NaN or infinite), and
    whose names, like the new name, are none of the field names [stop],
    [next_start], [next_name]. *)
Theorem merge_next_undo_point (pre post : labels) (u rd : list obj)
    (f id h : string) (s e1 s2 e2 new_name : obj) (a b nm : string)
    (qs qe1 qs2 qe2 : Q) :
  num_of s = Some qs -> num_of e1 = Some qe1 ->
  num_of s2 = Some qs2 -> num_of e2 = Some qe2 ->
  (qe1 <= qs \/ qe2 <= qs2)%Q ->
  new_name = OStr nm \/ (new_name = ONone /\ nm = (a ++ b)%string) ->
  Forall (fun n => n <> "stop" /\ n <> "next_start" /\ n <> "next_name")
         [a; b; nm] ->
  exists cmd inv : obj,
    merge_next (Z.of_nat (List.length pre)) new_name
      (mk_stack (pre ++ record3 s e1 (OStr a) :: record3 s2 e2 (OStr b)
                 :: post)%list u rd f id h)
    = (Ok ONone,
       mk_stack (pre ++ record3 s e2 (OStr nm) :: post)%list
                (u ++ [cmd])%list [] f id h) /\
    undo (mk_stack (pre ++ record3 s e2 (OStr nm) :: post)%list
                   (u ++ [cmd])%list [] f id h)
    = (Raise ValueError,
       mk_stack (pre ++ record3 s e2 (OStr nm) :: post)%list u [inv] f id h).
Proof.
  intros Hs He1 Hs2 He2 Hout Hnew Hnames.
  apply names_pair_value in Hnames.
  inversion Hnames as [|? ? Ha Hn1]; subst.
  inversion Hn1 as [|? ? Hb Hn2]; subst.
  inversion Hn2 as [|? ? Hnm _]; subst.
  pose proof (pair_value_num _ _ Hs) as Ps.
  pose proof (pair_value_num _ _ He1) as Pe1.
  pose proof (pair_value_num _ _ Hs2) as Ps2.
  pose proof (pair_value_num _ _ He2) as Pe2.
  pose proof pair_value_None as Pn.
  set (i := Z.of_nat (List.length pre)).
  set (L := (pre ++ record3 s e1 (OStr a) :: record3 s2 e2 (OStr b) :: post)%list).
  set (M := (pre ++ record3 s e2 (OStr nm) :: post)%list).
  set (c := merge_shape "merge_next" i (OStr a) e1 s2 (OStr b)
                        (OStr nm) ONone ONone ONone).
  set (v := merge_shape "split" i (OStr nm) ONone ONone ONone
                        (OStr a) e1 s2 (OStr b)).
  assert (Hmerge : evaluate (OList c) L = (Ok ONone, M)).
  { unfold c. rewrite (evaluate_merge_shape "merge_next" PMergeNext)
      by (first [left; split; reflexivity | pair_values]).
    change (call_proc PMergeNext _ L)
      with (_merge_next (ODict [("index", OInt i); ("name", OStr a); ("stop", e1);
                                ("next_start", s2); ("next_name", OStr b)])
                        [("new_name", OStr nm); ("new_stop", ONone);
                         ("new_next_start", ONone); ("new_next_name", ONone)] L).
    unfold L. erewrite _merge_next_at; reflexivity. }
  assert (Hsplit : evaluate (OList v) M = (Raise ValueError, M)).
  { unfold v. rewrite (evaluate_merge_shape "split" PSplit)
      by (first [right; split; reflexivity | pair_values]).
    change (call_proc PSplit _ M)
      with (_split (ODict [("index", OInt i); ("name", OStr nm); ("stop", ONone);
                           ("next_start", ONone); ("next_name", ONone)])
                   [("new_name", OStr a); ("new_stop", e1);
                    ("new_next_start", s2); ("new_next_name", OStr b)] M).
    unfold M.
    apply (_split_at_fail pre post (record3 s e2 (OStr nm)) _ _ s e2 e1 s2
                          qs qe2 qe1 qs2);
      try reflexivity; assumption. }
  assert (Hcv : invert_value c = Ok v).
  { apply invert_value_of
      with (a := merge_shape "merge_next" i (OStr nm) ONone ONone ONone
                             (OStr a) e1 s2 (OStr b)).
    apply invert_merge_shape; [left; split; reflexivity | pair_values]. }
  exists (OList c), (OList v). split.
  - unfold merge_next, push_generated. cbn [cs_labels]. fold L.
    assert (Hgen : codegen_merge_next L i new_name = Ok c).
    { unfold codegen_merge_next, L, i.
      rewrite getitem_middle. cbn [Py.bind].
      change (field (record3 s e1 (OStr a)) "name") with (@Ok obj (OStr a)).
      change (field (record3 s e1 (OStr a)) "stop") with (@Ok obj e1).
      cbn [Py.bind]. rewrite getitem_next. cbn [Py.bind].
      change (field (record3 s2 e2 (OStr b)) "start") with (@Ok obj s2).
      change (field (record3 s2 e2 (OStr b)) "name") with (@Ok obj (OStr b)).
      cbn [Py.bind].
      assert (Hn : match new_name with
                   | ONone => py_add (OStr a) (OStr b)
                   | _ => Ok new_name
                   end = Ok (OStr nm)).
      { destruct Hnew as [->|[-> ->]]; reflexivity. }
      rewrite Hn. reflexivity. }
    rewrite Hgen. apply push_run with (v := ONone). exact Hmerge.
  - change [OList v] with (([] : list obj) ++ [OList v])%list.
    apply undo_raises; assumption.
Qed.

(** X19, witness: a point event at 2.1 followed by an interval. *)
Lemma merge_next_undo_point_witness :
  exists cmd inv : obj,
    merge_next 0 ONone
      (fresh_stack [interval (21 # 10) (21 # 10) "p";
                    interval (21 # 10) (35 # 10) "b"])
    = (Ok ONone,
       mk_stack [interval (21 # 10) (35 # 10) "pb"] [cmd] []
                (cs_file (fresh_stack [])) (cs_uuid (fresh_stack []))
                (label_hash (fresh_stack []))) /\
    undo (mk_stack [interval (21 # 10) (35 # 10) "pb"] [cmd] []
                   (cs_file (fresh_stack [])) (cs_uuid (fresh_stack []))
                   (label_hash (fresh_stack [])))
    = (Raise ValueError,
       mk_stack [interval (21 # 10) (35 # 10) "pb"] [] [inv]
                (cs_file (fresh_stack [])) (cs_uuid (fresh_stack []))
                (label_hash (fresh_stack []))).
Proof.
  apply (merge_next_undo_point
           [] [] [] []
           (cs_file (fresh_stack [])) (cs_uuid (fresh_stack []))
           (label_hash (fresh_stack []))
           (OFloat (21 # 10)) (OFloat (21 # 10))
           (OFloat (21 # 10)) (OFloat (35 # 10)) ONone "p" "b" "pb"
           (21 # 10) (21 # 10) (21 # 10) (35 # 10)
           eq_refl eq_refl eq_refl eq_refl).
  - left. discriminate.
  - right. split; reflexivity.
  - repeat constructor; discriminate.
Defined.

(** * Creating an interval, through the stack *)

Lemma evaluate_create_shape (i : Z) (s e n : obj) (L : labels) :
  self_evaluating s = true -> self_evaluating e = true ->
  self_evaluating n = true ->
  evaluate (OList (create_shape "create" i s e n)) L
  = (Ok ONone, insert L i (record3 s e n)).
Proof.
  intros Hs He Hn. unfold create_shape.
  rewrite (evaluate_generated "create" "interval" PCreate);
    [reflexivity | reflexivity | left; reflexivity
    | repeat constructor; assumption | constructor].
Qed.

Lemma evaluate_delete_shape (i : Z) (s e n : obj) (L : labels) :
  self_evaluating s = true -> self_evaluating e = true ->
  self_evaluating n = true ->
  evaluate (OList (create_shape "delete" i s e n)) L
  = match pop L i with
    | Raise x => (Raise x, L)
    | Ok (_, L') => (Ok ONone, L')
    end.
Proof.
  intros Hs He Hn. unfold create_shape.
  rewrite (evaluate_generated "delete" "interval" PDelete);
    [reflexivity | reflexivity | left; reflexivity
    | repeat constructor; assumption | constructor].
Qed.

Lemma invert_create_shape (op inverse : string) (i : Z) (s e n : obj) :
  (op = "create" /\ inverse = "delete") \/ (op = "delete" /\ inverse = "create") ->
  invert_value (create_shape op i s e n) = Ok (create_shape inverse i s e n).
Proof.
  intros Hop.
  apply invert_value_of with (a := create_shape op i s e n).
  destruct Hop as [[-> ->]|[-> ->]];
    (eapply invert_no_new_keys; [reflexivity .. | repeat constructor]).
Qed.

Lemma insert_middle {A} (pre post : list A) (x : A) :
  insert (pre ++ post)%list (Z.of_nat (List.length pre)) x
  = (pre ++ x :: post)%list.
Proof.
  rewrite insert_in_range by (rewrite length_app; lia).
  rewrite Nat2Z.id, firstn_middle, skipn_middle. reflexivity.
Qed.

Lemma pop_middle {A} (pre post : list A) (x : A) :
  pop (pre ++ x :: post)%list (Z.of_nat (List.length pre))
  = Ok (x, (pre ++ post)%list).
Proof.
  unfold pop. rewrite norm_index_nonneg
    by (rewrite length_app; cbn [List.length]; lia).
  rewrite Nat2Z.id, nth_error_middle, remove_nth_middle. reflexivity.
Qed.

Lemma codegen_create_shape (i : Z) (s e n : obj) :
  codegen_create i s [("stop", e); ("name", n)]
  = Ok (create_shape "create" i s e n).
Proof. reflexivity. Qed.

(** X20 ([create], [codegen_create], [_create], [_delete], [invert],
    [push], [undo], [redo]): creating an interval at a position
    [0 <= index <= len(labels)] from its start, stop and name inserts the
    record [{start, stop, name}] at that position; [undo] removes it and
    gives back the labels as they were, and [redo] inserts it again. *)
Theorem create_undo_redo (pre post : labels) (u rd : list obj)
    (f id h : string) (s e n : obj) :
  self_evaluating s = true -> self_evaluating e = true ->
  self_evaluating n = true ->
  exists cmd inv : obj,
    create (Z.of_nat (List.length pre)) s [("stop", e); ("name", n)]
      (mk_stack (pre ++ post)%list u rd f id h)
    = (Ok ONone,
       mk_stack (pre ++ record3 s e n :: post)%list (u ++ [cmd])%list []
                f id h) /\
    undo (mk_stack (pre ++ record3 s e n :: post)%list (u ++ [cmd])%list []
                   f id h)
    = (Ok ONone, mk_stack (pre ++ post)%list u [inv] f id h) /\
    redo (mk_stack (pre ++ post)%list u [inv] f id h)
    = (Ok ONone,
       mk_stack (pre ++ record3 s e n :: post)%list (u ++ [cmd])%list []
                f id h).
Proof.
  intros Hs He Hn.
  set (i := Z.of_nat (List.length pre)).
  assert (Hcreate : evaluate (OList (create_shape "create" i s e n))
                      (pre ++ post)%list
                    = (Ok ONone, (pre ++ record3 s e n :: post)%list)).
  { rewrite evaluate_create_shape by assumption.
    unfold i. rewrite insert_middle. reflexivity. }
  assert (Hdelete : evaluate (OList (create_shape "delete" i s e n))
                      (pre ++ record3 s e n :: post)%list
                    = (Ok ONone, (pre ++ post)%list)).
  { rewrite evaluate_delete_shape by assumption.
    unfold i. rewrite pop_middle. reflexivity. }
  exists (OList (create_shape "create" i s e n)),
         (OList (create_shape "delete" i s e n)).
  split; [|split].
  - unfold create, push_generated. rewrite codegen_create_shape.
    apply push_run with (v := ONone). exact Hcreate.
  - change [OList (create_shape "delete" i s e n)]
      with (([] : list obj) ++ [OList (create_shape "delete" i s e n)])%list.
    apply undo_run with (v := ONone); [|exact Hdelete].
    apply invert_create_shape. left. split; reflexivity.
  - change [OList (create_shape "delete" i s e n)]
      with (([] : list obj) ++ [OList (create_shape "delete" i s e n)])%list.
    apply redo_run with (v := ONone); [|exact Hcreate].
    apply invert_create_shape. right. split; reflexivity.
Qed.

(** X20, witness: creating an interval between the second and third test
    labels, and undoing. *)
Lemma create_undo_redo_witness :
  exists cmd inv : obj,
    create 2 (OFloat (31 # 10))
      [("stop", OFloat (33 # 10)); ("name", OStr "c2")]
      (fresh_stack TEST_LABELS)
    = (Ok ONone,
       mk_stack [interval 1 (21 # 10) "a"; interval (21 # 10) (35 # 10) "b";
                 interval (31 # 10) (33 # 10) "c2";
                 interval (35 # 10) (42 # 10) "c"; interval (47 # 10) 5 "d"]
                [cmd] [] "ops.corr" "uuid" "hash") /\
    undo (mk_stack [interval 1 (21 # 10) "a"; interval (21 # 10) (35 # 10) "b";
                    interval (31 # 10) (33 # 10) "c2";
                    interval (35 # 10) (42 # 10) "c"; interval (47 # 10) 5 "d"]
                   [cmd] [] "ops.corr" "uuid" "hash")
    = (Ok ONone, mk_stack TEST_LABELS [] [inv] "ops.corr" "uuid" "hash").
Proof.
  destruct (create_undo_redo
              [interval 1 (21 # 10) "a"; interval (21 # 10) (35 # 10) "b"]
              [interval (35 # 10) (42 # 10) "c"; interval (47 # 10) 5 "d"]
              [] [] "ops.corr" "uuid" "hash"
              (OFloat (31 # 10)) (OFloat (33 # 10)) (OStr "c2")
              eq_refl eq_refl eq_refl)
    as (cmd & inv & H1 & H2 & _).
  exists cmd, inv. split; [exact H1 | exact H2].
Defined.

Lemma norm_index_past_end (len : nat) (i : Z) :
  Z.of_nat len <= i -> norm_index len i = None.
Proof.
  intros H. unfold norm_index.
  destruct (Z.ltb_spec i 0); [lia|].
  destruct (Z.ltb_spec i (Z.of_nat len)); [lia|].
  rewrite andb_false_r. reflexivity.
Qed.

(** X21 ([create], [_create], [_delete], [undo]): [create] with an index
    beyond the end of the labels appends the new record (list insertion
    clamps the position), and this cannot be undone: [undo] raises
    [IndexError] because the inverse deletes at the index as given, the
    appended record stays in the labels, and the command has left the undo
    stack. *)
Theorem create_past_end_undo (L : labels) (u rd : list obj)
    (f id h : string) (i : Z) (s e n : obj) :
  Z.of_nat (List.length L) < i ->
  self_evaluating s = true -> self_evaluating e = true ->
  self_evaluating n = true ->
  exists cmd inv : obj,
    create i s [("stop", e); ("name", n)] (mk_stack L u rd f id h)
    = (Ok ONone,
       mk_stack (L ++ [record3 s e n])%list (u ++ [cmd])%list [] f id h) /\
    undo (mk_stack (L ++ [record3 s e n])%list (u ++ [cmd])%list [] f id h)
    = (Raise IndexError,
       mk_stack (L ++ [record3 s e n])%list u [inv] f id h).
Proof.
  intros Hi Hs He Hn.
  exists (OList (create_shape "create" i s e n)),
         (OList (create_shape "delete" i s e n)).
  split.
  - unfold create, push_generated. rewrite codegen_create_shape.
    apply push_run with (v := ONone).
    rewrite evaluate_create_shape by assumption.
    rewrite insert_past_end by lia. reflexivity.
  - change [OList (create_shape "delete" i s e n)]
      with (([] : list obj) ++ [OList (create_shape "delete" i s e n)])%list.
    apply undo_raises.
    + apply invert_create_shape. left. split; reflexivity.
    + rewrite evaluate_delete_shape by assumption.
      unfold pop. rewrite norm_index_past_end; [reflexivity|].
      rewrite length_app. cbn [List.length]. lia.
Qed.

(** X21, witness: creating at index 9 on the four test labels. *)
Lemma create_past_end_undo_witness :
  exists cmd inv : obj,
    create 9 (OFloat 6) [("stop", OFloat 7); ("name", OStr "e")]
      (fresh_stack TEST_LABELS)
    = (Ok ONone,
       mk_stack (TEST_LABELS ++ [interval 6 7 "e"])%list [cmd] []
                "ops.corr" "uuid" "hash") /\
    undo (mk_stack (TEST_LABELS ++ [interval 6 7 "e"])%list [cmd] []
                   "ops.corr" "uuid" "hash")
    = (Raise IndexError,
       mk_stack (TEST_LABELS ++ [interval 6 7 "e"])%list [] [inv]
                "ops.corr" "uuid" "hash").
Proof.
  apply (create_past_end_undo TEST_LABELS [] [] "ops.corr" "uuid" "hash" 9
           (OFloat 6) (OFloat 7) (OStr "e")).
  - cbn. lia.
  - reflexivity.
  - reflexivity.
  - reflexivity.
Defined.

Lemma insert_negative {A} (pre post : list A) (x y : A) :
  insert (pre ++ x :: post)%list (- Z.of_nat (S (List.length post))) y
  = (pre ++ y :: x :: post)%list.
Proof.
  unfold insert. rewrite length_app. cbn [List.length].
  destruct (Z.ltb_spec (- Z.of_nat (S (List.length post))) 0); [|lia].
  replace (Z.to_nat (Z.max 0 (- Z.of_nat (S (List.length post))
             + Z.of_nat (List.length pre + S (List.length post)))))
    with (List.length pre) by lia.
  rewrite firstn_middle, skipn_middle. reflexivity.
Qed.

Lemma pop_negative {A} (pre post : list A) (x y : A) :
  pop (pre ++ y :: x :: post)%list (- Z.of_nat (S (List.length post)))
  = Ok (x, (pre ++ y :: post)%list).
Proof.
  unfold pop, norm_index. rewrite length_app. cbn [List.length].
  destruct (Z.ltb_spec (- Z.of_nat (S (List.length post))) 0); [|lia].
  set (j := - Z.of_nat (S (List.length post))
            + Z.of_nat (List.length pre + S (S (List.length post)))).
  assert (Hj : j = Z.of_nat (S (List.length pre))) by (unfold j; lia).
  destruct (Z.leb_spec 0 j); [|lia].
  destruct (Z.ltb_spec j (Z.of_nat (List.length pre + S (S (List.length post)))));
    [|lia].
  cbn [andb]. rewrite Hj, Nat2Z.id.
  rewrite nth_error_app2 by lia.
  replace (S (List.length pre) - List.length pre)%nat with 1%nat by lia.
  cbn [nth_error]. rewrite remove_nth_next. reflexivity.
Qed.

(** X22 ([create], [_create], [_delete], [undo]): with a negative index
    [create] and its inverse do not address the same position.  Creating
    at index [-k] inserts the new record before the [k]-th record from the
    right; the inverse deletes at [-k] in the longer list, which is that
    old record.  After [create] and [undo] the new record has taken the
    place of the old one. *)
Theorem create_negative_undo (pre post : labels) (x : record)
    (u rd : list obj) (f id h : string) (s e n : obj) :
  self_evaluating s = true -> self_evaluating e = true ->
  self_evaluating n = true ->
  exists cmd inv : obj,
    create (- Z.of_nat (S (List.length post))) s [("stop", e); ("name", n)]
      (mk_stack (pre ++ x :: post)%list u rd f id h)
    = (Ok ONone,
       mk_stack (pre ++ record3 s e n :: x :: post)%list (u ++ [cmd])%list []
                f id h) /\
    undo (mk_stack (pre ++ record3 s e n :: x :: post)%list (u ++ [cmd])%list
                   [] f id h)
    = (Ok ONone, mk_stack (pre ++ record3 s e n :: post)%list u [inv] f id h) /\
    (record3 s e n <> x ->
     (pre ++ record3 s e n :: post)%list <> (pre ++ x :: post)%list).
Proof.
  intros Hs He Hn.
  set (i := - Z.of_nat (S (List.length post))).
  exists (OList (create_shape "create" i s e n)),
         (OList (create_shape "delete" i s e n)).
  split; [|split].
  - unfold create, push_generated. rewrite codegen_create_shape.
    apply push_run with (v := ONone).
    rewrite evaluate_create_shape by assumption.
    unfold i. rewrite insert_negative. reflexivity.
  - change [OList (create_shape "delete" i s e n)]
      with (([] : list obj) ++ [OList (create_shape "delete" i s e n)])%list.
    apply undo_run with (v := ONone).
    + apply invert_create_shape. left. split; reflexivity.
    + rewrite evaluate_delete_shape by assumption.
      unfold i. rewrite pop_negative. reflexivity.
  - intros Hne Heq. apply app_inv_head in Heq. injection Heq as Heq.
    apply Hne. exact Heq.
Qed.

(** X22, witness: creating at index -1 on the test labels and undoing
    loses the last label. *)
Lemma create_negative_undo_witness :
  exists cmd inv : obj,
    create (-1) (OFloat (43 # 10)) [("stop", OFloat (45 # 10)); ("name", OStr "x")]
      (fresh_stack TEST_LABELS)
    = (Ok ONone,
       mk_stack [interval 1 (21 # 10) "a"; interval (21 # 10) (35 # 10) "b";
                 interval (35 # 10) (42 # 10) "c";
                 interval (43 # 10) (45 # 10) "x"; interval (47 # 10) 5 "d"]
                [cmd] [] "ops.corr" "uuid" "hash") /\
    undo (mk_stack [interval 1 (21 # 10) "a"; interval (21 # 10) (35 # 10) "b";
                    interval (35 # 10) (42 # 10) "c";
                    interval (43 # 10) (45 # 10) "x"; interval (47 # 10) 5 "d"]
                   [cmd] [] "ops.corr" "uuid" "hash")
    = (Ok ONone,
       mk_stack [interval 1 (21 # 10) "a"; interval (21 # 10) (35 # 10) "b";
                 interval (35 # 10) (42 # 10) "c";
                 interval (43 # 10) (45 # 10) "x"]
                [] [inv] "ops.corr" "uuid" "hash").
Proof.
  destruct (create_negative_undo
              [interval 1 (21 # 10) "a"; interval (21 # 10) (35 # 10) "b";
               interval (35 # 10) (42 # 10) "c"] []
              (interval (47 # 10) 5 "d") [] [] "ops.corr" "uuid" "hash"
              (OFloat (43 # 10)) (OFloat (45 # 10)) (OStr "x")
              eq_refl eq_refl eq_refl)
    as (cmd & inv & H1 & H2 & _).
  exists cmd, inv. split; [exact H1 | exact H2].
Defined.

Lemma getitem_negative {A} (pre post : list A) (x : A) :
  getitem (pre ++ x :: post)%list (- Z.of_nat (S (List.length post))) = Ok x.
Proof.
  apply getitem_norm with (n := List.length pre); [|apply nth_error_middle].
  unfold norm_index. rewrite length_app. cbn [List.length].
  destruct (Z.ltb_spec (- Z.of_nat (S (List.length post))) 0); [|lia].
  set (j := - Z.of_nat (S (List.length post))
            + Z.of_nat (List.length pre + S (List.length post))).
  assert (Hj : j = Z.of_nat (List.length pre)) by (unfold j; lia).
  destruct (Z.leb_spec 0 j); [|lia].
  destruct (Z.ltb_spec j (Z.of_nat (List.length pre + S (List.length post))));
    [|lia].
  cbn [andb]. rewrite Hj, Nat2Z.id. reflexivity.
Qed.

(** X23 ([delete], [codegen_delete], [_delete], [_create], [undo]): with
    a negative index, deleting and undoing does not restore the order of
    the labels.  Deleting at index [-k] removes the [k]-th record from the
    right; the inverse inserts it at [-k] in the shorter list, which is one
    place further left: the restored record ends up before its former left
    neighbour. *)
Theorem delete_negative_undo (pre post : labels) (y : record)
    (u rd : list obj) (f id h : string) (s e n : obj) :
  self_evaluating s = true -> self_evaluating e = true ->
  self_evaluating n = true ->
  exists cmd inv : obj,
    delete (- Z.of_nat (S (List.length post)))
      (mk_stack (pre ++ y :: record3 s e n :: post)%list u rd f id h)
    = (Ok ONone, mk_stack (pre ++ y :: post)%list (u ++ [cmd])%list [] f id h) /\
    undo (mk_stack (pre ++ y :: post)%list (u ++ [cmd])%list [] f id h)
    = (Ok ONone,
       mk_stack (pre ++ record3 s e n :: y :: post)%list u [inv] f id h) /\
    (record3 s e n <> y ->
     (pre ++ record3 s e n :: y :: post)%list
     <> (pre ++ y :: record3 s e n :: post)%list).
Proof.
  intros Hs He Hn.
  set (i := - Z.of_nat (S (List.length post))).
  exists (OList (create_shape "delete" i s e n)),
         (OList (create_shape "create" i s e n)).
  split; [|split].
  - unfold delete, push_generated. cbn [cs_labels].
    assert (Hgen : codegen_delete (pre ++ y :: record3 s e n :: post)%list i
                   = Ok (create_shape "delete" i s e n)).
    { unfold codegen_delete, i.
      replace (pre ++ y :: record3 s e n :: post)%list
        with ((pre ++ [y]) ++ record3 s e n :: post)%list
        by (rewrite <- app_assoc; reflexivity).
      rewrite getitem_negative. reflexivity. }
    rewrite Hgen. apply push_run with (v := ONone).
    rewrite evaluate_delete_shape by assumption.
    unfold i. rewrite pop_negative. reflexivity.
  - change [OList (create_shape "create" i s e n)]
      with (([] : list obj) ++ [OList (create_shape "create" i s e n)])%list.
    apply undo_run with (v := ONone).
    + apply invert_create_shape. right. split; reflexivity.
    + rewrite evaluate_create_shape by assumption.
      unfold i. rewrite insert_negative. reflexivity.
  - intros Hne Heq. apply app_inv_head in Heq. injection Heq as Heq _.
    apply Hne. exact Heq.
Qed.

(** X23, witness: deleting the last test label by index -1 and undoing
    puts it back before the third label. *)
Lemma delete_negative_undo_witness :
  exists cmd inv : obj,
    delete (-1) (fresh_stack TEST_LABELS)
    = (Ok ONone,
       mk_stack [interval 1 (21 # 10) "a"; interval (21 # 10) (35 # 10) "b";
                 interval (35 # 10) (42 # 10) "c"]
                [cmd] [] "ops.corr" "uuid" "hash") /\
    undo (mk_stack [interval 1 (21 # 10) "a"; interval (21 # 10) (35 # 10) "b";
                    interval (35 # 10) (42 # 10) "c"]
                   [cmd] [] "ops.corr" "uuid" "hash")
    = (Ok ONone,
       mk_stack [interval 1 (21 # 10) "a"; interval (21 # 10) (35 # 10) "b";
                 interval (47 # 10) 5 "d"; interval (35 # 10) (42 # 10) "c"]
                [] [inv] "ops.corr" "uuid" "hash").
Proof.
  destruct (delete_negative_undo
              [interval 1 (21 # 10) "a"; interval (21 # 10) (35 # 10) "b"] []
              (interval (35 # 10) (42 # 10) "c") [] [] "ops.corr" "uuid" "hash"
              (OFloat (47 # 10)) (OFloat 5) (OStr "d")
              eq_refl eq_refl eq_refl)
    as (cmd & inv & H1 & H2 & _).
  exists cmd, inv. split; [exact H1 | exact H2].
Defined.

(** X24 ([create], [codegen_create], [_create], [push], [undo]):
    [create(index, start)] without the keywords [stop] and [name] raises
    [KeyError]; the labels are unchanged, but [push] has already recorded
    the command and emptied the redo stack.  A following [undo] inverts the
    recorded command to a deletion and removes the record that was at
    [index]. *)
Theorem create_without_stop (pre post : labels) (x : record)
    (u rd : list obj) (f id h : string) (s : obj) :
  self_evaluating s = true ->
  exists cmd inv : obj,
    create (Z.of_nat (List.length pre)) s []
      (mk_stack (pre ++ x :: post)%list u rd f id h)
    = (Raise KeyError,
       mk_stack (pre ++ x :: post)%list (u ++ [cmd])%list [] f id h) /\
    undo (mk_stack (pre ++ x :: post)%list (u ++ [cmd])%list [] f id h)
    = (Ok ONone, mk_stack (pre ++ post)%list u [inv] f id h).
Proof.
  intros Hs.
  set (i := Z.of_nat (List.length pre)).
  exists (OList (create_bare "create" i s)), (OList (create_bare "delete" i s)).
  split.
  - unfold create, push_generated.
    change (codegen_create i s []) with (@Ok (list obj) (create_bare "create" i s)).
    apply push_raises. unfold create_bare.
    rewrite (evaluate_generated "create" "interval" PCreate);
      [reflexivity | reflexivity | left; reflexivity
      | repeat constructor; assumption | constructor].
  - change [OList (create_bare "delete" i s)]
      with (([] : list obj) ++ [OList (create_bare "delete" i s)])%list.
    apply undo_run with (v := ONone).
    + apply invert_value_of with (a := create_bare "create" i s).
      eapply invert_no_new_keys; [reflexivity .. | repeat constructor].
    + unfold create_bare.
      rewrite (evaluate_generated "delete" "interval" PDelete);
        [| reflexivity | left; reflexivity
         | repeat constructor; assumption | constructor].
      change (call_proc PDelete _ (pre ++ x :: post)%list)
        with (match pop (pre ++ x :: post)%list i with
              | Raise err => (@Raise obj err, (pre ++ x :: post)%list)
              | Ok (_, L') => (Ok ONone, L')
              end).
      unfold i. rewrite pop_middle. reflexivity.
Qed.

(** X24, witness: [create(1, 2.0)] on the test labels, then [undo]. *)
Lemma create_without_stop_witness :
  exists cmd inv : obj,
    create 1 (OFloat 2) [] (fresh_stack TEST_LABELS)
    = (Raise KeyError, mk_stack TEST_LABELS [cmd] [] "ops.corr" "uuid" "hash") /\
    undo (mk_stack TEST_LABELS [cmd] [] "ops.corr" "uuid" "hash")
    = (Ok ONone,
       mk_stack [interval 1 (21 # 10) "a"; interval (35 # 10) (42 # 10) "c";
                 interval (47 # 10) 5 "d"]
                [] [inv] "ops.corr" "uuid" "hash").
Proof.
  apply (create_without_stop
           [interval 1 (21 # 10) "a"]
           [interval (35 # 10) (42 # 10) "c"; interval (47 # 10) 5 "d"]
           (interval (21 # 10) (35 # 10) "b") [] [] "ops.corr" "uuid" "hash"
           (OFloat 2) eq_refl).
Defined.

(** * The text of a command *)

Lemma all_chars_app (p : ascii -> bool) (s t : string) :
  all_chars p (s ++ t) = all_chars p s && all_chars p t.
Proof.
  induction s as [|c s IH]; cbn [append all_chars]; [reflexivity|].
  rewrite IH. apply andb_assoc.
Qed.

Lemma all_chars_impl (p q : ascii -> bool) (s : string) :
  (forall c, p c = true -> q c = true) ->
  all_chars p s = true -> all_chars q s = true.
Proof.
  intros Hpq. induction s as [|c s IH]; cbn [all_chars]; [reflexivity|].
  intros H. apply andb_true_iff in H as [Hc Hs].
  rewrite (Hpq c Hc), (IH Hs). reflexivity.
Qed.

Lemma all_chars_count (p : ascii -> bool) (x : ascii) (s : string) :
  p x = false -> all_chars p s = true -> count_char x s = 0%nat.
Proof.
  intros Hx. induction s as [|c s IH]; cbn [all_chars count_char]; [reflexivity|].
  intros H. apply andb_true_iff in H as [Hc Hs]. rewrite (IH Hs).
  unfold char_eqb. destruct (Ascii.eqb_spec c x) as [->|_]; [congruence | reflexivity].
Qed.

Lemma all_chars_last (p : ascii -> bool) (s : string) (c : ascii) :
  all_chars p s = true -> last_char s = Some c -> p c = true.
Proof.
  induction s as [|x s IH]; cbn [all_chars last_char]; [discriminate|].
  intros H. apply andb_true_iff in H as [Hx Hs].
  destruct s as [|y s]; [intros [= <-]; exact Hx | apply IH; exact Hs].
Qed.

Lemma last_char_app (s t : string) :
  t <> EmptyString -> last_char (s ++ t) = last_char t.
Proof.
  intros Ht. induction s as [|x s IH]; cbn [append]; [reflexivity|].
  cbn [last_char]. destruct (s ++ t) eqn:E; [|exact IH].
  destruct s; [cbn in E; contradiction | discriminate].
Qed.

Lemma last_char_some (s : string) :
  s <> EmptyString -> exists c, last_char s = Some c.
Proof.
  induction s as [|x s IH]; [contradiction|]. intros _.
  destruct s as [|y s]; [exists x; reflexivity|].
  destruct IH as [c Hc]; [discriminate|]. exists c. exact Hc.
Qed.

Lemma count_char_app (x : ascii) (s t : string) :
  count_char x (s ++ t) = (count_char x s + count_char x t)%nat.
Proof.
  induction s as [|c s IH]; cbn [append count_char]; [reflexivity|].
  rewrite IH. lia.
Qed.

Lemma count_char_parens (n : nat) : count_char rparen (parens n) = n.
Proof. induction n as [|n IH]; cbn; [reflexivity | rewrite IH; reflexivity]. Qed.

Lemma count_quote_parens (n : nat) : count_char quote (parens n) = 0%nat.
Proof. induction n as [|n IH]; cbn; [reflexivity | exact IH]. Qed.

Lemma spaceless_parens (n : nat) :
  all_chars (fun c => negb (is_space c)) (parens n) = true.
Proof. induction n as [|n IH]; cbn; [reflexivity | exact IH]. Qed.

Lemma string_length_parens (n : nat) : String.length (parens n) = n.
Proof. induction n as [|n IH]; cbn; [reflexivity | rewrite IH; reflexivity]. Qed.

Lemma clean_spec (a : string) : clean a = true -> clean_facts a.
Proof.
  intros H. unfold clean in H.
  destruct a as [|c0 r0] eqn:Ea; [discriminate|]. rewrite <- Ea in *.
  apply andb_true_iff in H as [Hall Hq].
  assert (Hne : a <> EmptyString) by (rewrite Ea; discriminate).
  assert (Hl : count_char lparen a = 0%nat)
    by (eapply all_chars_count; [|exact Hall]; reflexivity).
  assert (Hr : count_char rparen a = 0%nat)
    by (eapply all_chars_count; [|exact Hall]; reflexivity).
  constructor; try assumption.
  - eapply all_chars_impl; [|exact Hall].
    intros c Hc. unfold clean_char in Hc. apply andb_true_iff in Hc as [_ Hc].
    destruct (is_space c); [discriminate | reflexivity].
  - intros c r ->. cbn [all_chars] in Hall.
    apply andb_true_iff in Hall as [Hc _].
    unfold clean_char in Hc. apply andb_true_iff in Hc as [_ Hc].
    destruct (char_eqb c lparen); [|reflexivity].
    rewrite orb_true_r in Hc. discriminate.
  - intros c Hc. pose proof (all_chars_last _ _ _ Hall Hc) as Hp.
    unfold clean_char in Hp. apply andb_true_iff in Hp as [_ Hp].
    destruct (char_eqb c lparen); [rewrite orb_true_r in Hp; discriminate|].
    destruct (char_eqb c rparen); [rewrite orb_true_r in Hp; discriminate|].
    split; reflexivity.
  - apply String.eqb_neq. intros ->. discriminate.
  - apply String.eqb_neq. intros ->. discriminate.
Qed.

(** ** [cmd.split()] on words joined by single spaces *)

Lemma split_from_word (w cur s : string) :
  spaceless w = true -> split_from cur (w ++ s) = split_from (cur ++ w) s.
Proof.
  revert cur. induction w as [|c w IH]; intros cur Hw.
  - rewrite string_app_nil_r. reflexivity.
  - unfold spaceless in Hw. cbn [all_chars] in Hw.
    apply andb_true_iff in Hw as [Hc Hw].
    cbn [append split_from].
    destruct (is_space c); [discriminate|].
    rewrite (IH _ Hw), string_app_assoc. reflexivity.
Qed.

Lemma split_unwords (ws : list string) :
  Forall (fun w => w <> EmptyString /\ spaceless w = true) ws ->
  split (unwords ws) = ws.
Proof.
  unfold split. induction ws as [|w r IH]; intros Hall; [reflexivity|].
  inversion Hall as [|? ? [Hne Hw] Hr]; subst.
  destruct r as [|w2 r].
  - cbn [unwords]. rewrite <- (string_app_nil_r w) at 1.
    rewrite (split_from_word _ _ _ Hw). cbn [append split_from].
    destruct w; [contradiction | reflexivity].
  - change (unwords (w :: w2 :: r)) with (w ++ String " " (unwords (w2 :: r))).
    rewrite (split_from_word _ _ _ Hw). cbn [append].
    change (split_from w (String " " (unwords (w2 :: r))))
      with (match w with
            | EmptyString => split_from EmptyString (unwords (w2 :: r))
            | _ => w :: split_from EmptyString (unwords (w2 :: r))
            end).
    rewrite (IH Hr). destruct w; [contradiction | reflexivity].
Qed.

(** ** The quote pass *)

Lemma second_pass_even (ws acc : list string) :
  Forall (fun w => Nat.even (count_char quote w) = true) ws ->
  second_pass_loop ws acc false = Ok ((acc ++ ws)%list, false).
Proof.
  revert acc. induction ws as [|w r IH]; intros acc Hall.
  - rewrite app_nil_r. reflexivity.
  - inversion Hall as [|? ? Hw Hr]; subst.
    cbn [second_pass_loop]. cbv zeta.
    rewrite <- Nat.negb_even, Hw. cbn [negb andb].
    rewrite andb_false_r. rewrite (IH _ Hr), <- app_assoc. reflexivity.
Qed.

(** ** The parenthesis pass, word by word *)

Lemma repeat_snoc {A} (x : A) (n : nat) :
  (repeat x n ++ [x])%list = x :: repeat x n.
Proof. induction n as [|n IH]; cbn; [reflexivity | rewrite IH; reflexivity]. Qed.

Lemma third_pass_word (w : word) (rest : list string) :
  clean (word_atom w) = true ->
  third_pass_loop (word_text w :: rest)
  = (more <- third_pass_loop rest ;; Ok (word_tokens w ++ more)%list).
Proof.
  intros Hc. apply clean_spec in Hc.
  destruct w as [a|a|a k]; cbn [word_atom word_text word_tokens] in *.
  - (* an opening word *)
    cbn [third_pass_loop].
    change (char_eqb lparen lparen) with true. cbv iota.
    destruct a as [|c r]; [destruct (cf_nonempty _ Hc); reflexivity|].
    cbn [Py.bind]. reflexivity.
  - (* a plain word *)
    destruct a as [|c r] eqn:Ea; [destruct (cf_nonempty _ Hc); reflexivity|].
    rewrite <- Ea in *.
    assert (Hmain : third_pass_loop (a :: rest)
                    = (these <- Ok [a] ;; more <- third_pass_loop rest ;;
                       Ok (these ++ more)%list)).
    { rewrite Ea at 1. cbn [third_pass_loop]. rewrite <- Ea.
      rewrite (cf_first _ Hc c r Ea).
      destruct (last_char_some a (cf_nonempty _ Hc)) as [l Hl].
      rewrite Hl. destruct (cf_last _ Hc l Hl) as [_ Hr]. rewrite Hr.
      reflexivity. }
    rewrite Hmain. reflexivity.
  - (* a closing word *)
    destruct a as [|c r] eqn:Ea; [destruct (cf_nonempty _ Hc); reflexivity|].
    rewrite <- Ea in *.
    set (t := a ++ parens (S k)).
    assert (Ht : t = String c (r ++ parens (S k)))
      by (unfold t; rewrite Ea; reflexivity).
    assert (Hlast : last_char t = Some rparen).
    { unfold t. rewrite last_char_app by discriminate.
      clear. induction k as [|k IH]; [reflexivity|].
      change (parens (S (S k))) with (String rparen (parens (S k))).
      cbn [last_char]. exact IH. }
    assert (Hct : count_char rparen t = S k).
    { unfold t. rewrite count_char_app, (cf_no_rparen _ Hc), count_char_parens.
      reflexivity. }
    assert (Htake : take (String.length t - S k) t = a).
    { unfold t, take. rewrite string_app_length, string_length_parens.
      replace (String.length a + S k - S k)%nat with (String.length a) by lia.
      apply substring_prefix. }
    assert (Hmain : third_pass_loop (t :: rest)
                    = (these <- Ok (a :: repeat ")" (S k)) ;;
                       more <- third_pass_loop rest ;;
                       Ok (these ++ more)%list)).
    { rewrite Ht at 1. cbn [third_pass_loop]. rewrite <- Ht.
      rewrite (cf_first _ Hc c r Ea), Hlast.
      change (char_eqb rparen rparen) with true. cbv iota zeta.
      rewrite Hct, Htake. reflexivity. }
    rewrite Hmain. reflexivity.
Qed.

Lemma third_pass_words (ws : list word) :
  Forall (fun w => clean (word_atom w) = true) ws ->
  third_pass_loop (map word_text ws) = Ok (tokens_of_words ws).
Proof.
  induction ws as [|w r IH]; intros Hall; [reflexivity|].
  inversion Hall as [|? ? Hw Hr]; subst.
  cbn [map]. rewrite (third_pass_word _ _ Hw), (IH Hr). reflexivity.
Qed.

Lemma word_text_facts (w : word) :
  clean (word_atom w) = true ->
  word_text w <> EmptyString /\ spaceless (word_text w) = true /\
  Nat.even (count_char quote (word_text w)) = true.
Proof.
  intros Hc. apply clean_spec in Hc.
  destruct w as [a|a|a k]; cbn [word_atom word_text] in *.
  - split; [discriminate|]. split.
    + unfold spaceless. cbn [all_chars]. exact (cf_spaceless _ Hc).
    + cbn [count_char]. exact (cf_quotes _ Hc).
  - split; [exact (cf_nonempty _ Hc)|]. split;
      [exact (cf_spaceless _ Hc) | exact (cf_quotes _ Hc)].
  - split.
    + destruct a; [destruct (cf_nonempty _ Hc); reflexivity | discriminate].
    + split.
      * unfold spaceless. rewrite all_chars_app, (cf_spaceless _ Hc).
        apply spaceless_parens.
      * rewrite count_char_app, count_quote_parens, Nat.add_0_r.
        exact (cf_quotes _ Hc).
Qed.

(** [tokenize] on the text of a sequence of words returns their tokens. *)
Lemma tokenize_words (ws : list word) :
  Forall (fun w => clean (word_atom w) = true) ws ->
  tokenize (unwords (map word_text ws)) = Ok (tokens_of_words ws).
Proof.
  intros Hall. unfold tokenize.
  rewrite split_unwords.
  - rewrite second_pass_even.
    + cbn [Py.bind app]. apply third_pass_words. exact Hall.
    + apply Forall_map. eapply Forall_impl; [|exact Hall].
      intros w Hw. apply (word_text_facts w Hw).
  - apply Forall_map. eapply Forall_impl; [|exact Hall].
    intros w Hw. destruct (word_text_facts w Hw) as (H1 & H2 & _). split; assumption.
Qed.

(** ** [detokenize] on the tokens of a sequence of words *)

Lemma unwords_spaced (w : string) (r : list string) :
  unwords (w :: r) = w ++ spaced r.
Proof.
  revert w. induction r as [|w2 r IH]; intros w.
  - cbn [unwords spaced]. rewrite string_app_nil_r. reflexivity.
  - change (unwords (w :: w2 :: r)) with (w ++ " " ++ unwords (w2 :: r)).
    rewrite IH. reflexivity.
Qed.

Lemma ends_ok_word (cmd : string) (w : word) :
  clean (word_atom w) = true -> ends_ok (cmd ++ word_text w).
Proof.
  intros Hc. pose proof (word_text_facts w Hc) as (Hne & _ & _).
  apply clean_spec in Hc. unfold ends_ok.
  rewrite last_char_app by exact Hne.
  destruct w as [a|a|a k]; cbn [word_atom word_text] in *.
  - change (String lparen a) with ("(" ++ a).
    rewrite last_char_app by exact (cf_nonempty _ Hc).
    destruct (last_char_some a (cf_nonempty _ Hc)) as [c Hl].
    exists c. split; [exact Hl | apply (cf_last _ Hc c Hl)].
  - destruct (last_char_some a (cf_nonempty _ Hc)) as [c Hl].
    exists c. split; [exact Hl | apply (cf_last _ Hc c Hl)].
  - exists rparen. split; [|reflexivity].
    rewrite last_char_app by discriminate.
    clear. induction k as [|k IH]; [reflexivity|].
    change (parens (S (S k))) with (String rparen (parens (S k))).
    cbn [last_char]. exact IH.
Qed.

Lemma detokenize_loop_parens (n : nat) (cmd : string) (rest : list string) :
  detokenize_loop cmd (repeat ")" n ++ rest)%list
  = detokenize_loop (cmd ++ parens n) rest.
Proof.
  revert cmd. induction n as [|n IH]; intros cmd.
  - cbn [repeat app parens]. rewrite string_app_nil_r. reflexivity.
  - cbn [repeat app detokenize_loop String.eqb Ascii.eqb Bool.eqb Py.bind].
    rewrite IH, string_app_assoc. reflexivity.
Qed.

Lemma detokenize_loop_atom (cmd a : string) (rest : list string) :
  ends_ok cmd -> String.eqb a ")" = false ->
  detokenize_loop cmd (a :: rest) = detokenize_loop (cmd ++ " " ++ a) rest.
Proof.
  intros (c & Hl & Hc) Ha. cbn [detokenize_loop]. rewrite Ha, Hl.
  cbn [Py.of_option Py.bind]. rewrite Hc. cbn [negb].
  rewrite string_app_assoc. reflexivity.
Qed.

Lemma detokenize_loop_word (cmd : string) (w : word) (rest : list string) :
  ends_ok cmd -> clean (word_atom w) = true ->
  detokenize_loop cmd (word_tokens w ++ rest)%list
  = detokenize_loop (cmd ++ " " ++ word_text w) rest.
Proof.
  intros Hend Hc. pose proof (clean_spec _ Hc) as Hf.
  destruct w as [a|a|a k]; cbn [word_atom word_text word_tokens app] in *.
  - rewrite (detokenize_loop_atom cmd "(" _ Hend eq_refl).
    cbn [detokenize_loop]. rewrite (cf_not_close _ Hf).
    rewrite last_char_app by discriminate.
    cbn [last_char append Py.of_option Py.bind].
    change (char_eqb "(" lparen) with true. cbn [negb].
    rewrite !string_app_assoc. reflexivity.
  - apply (detokenize_loop_atom cmd a rest Hend (cf_not_close _ Hf)).
  - rewrite (detokenize_loop_atom cmd a _ Hend (cf_not_close _ Hf)).
    change (")" :: (repeat ")" k ++ rest)%list)
      with ((repeat ")" (S k) ++ rest)%list).
    rewrite detokenize_loop_parens, !string_app_assoc. reflexivity.
Qed.

Lemma detokenize_loop_words (ws : list word) (cmd : string) :
  ends_ok cmd ->
  Forall (fun w => clean (word_atom w) = true) ws ->
  detokenize_loop cmd (tokens_of_words ws)
  = Ok (cmd ++ spaced (map word_text ws)).
Proof.
  revert cmd. induction ws as [|w r IH]; intros cmd Hend Hall.
  - cbn. rewrite string_app_nil_r. reflexivity.
  - inversion Hall as [|? ? Hw Hr]; subst.
    unfold tokens_of_words. cbn [flat_map].
    rewrite (detokenize_loop_word _ _ _ Hend Hw).
    fold (tokens_of_words r). rewrite IH.
    + cbn [map spaced]. rewrite !string_app_assoc. reflexivity.
    + rewrite <- string_app_assoc. apply ends_ok_word. exact Hw.
    + exact Hr.
Qed.

Lemma detokenize_words (ws : list word) :
  ws <> [] ->
  Forall (fun w => clean (word_atom w) = true) ws ->
  detokenize (tokens_of_words ws) = Ok (unwords (map word_text ws)).
Proof.
  intros Hne Hall. destruct ws as [|w r]; [contradiction|].
  inversion Hall as [|? ? Hw Hr]; subst.
  cbn [map]. rewrite unwords_spaced.
  pose proof (ends_ok_word EmptyString w Hw) as Hend. cbn [append] in Hend.
  pose proof (clean_spec _ Hw) as Hf.
  unfold tokens_of_words. cbn [flat_map]. fold (tokens_of_words r).
  destruct w as [a|a|a k]; cbn [word_atom word_text word_tokens app detokenize] in *.
  - cbn [detokenize_loop]. rewrite (cf_not_close _ Hf).
    cbn [last_char Py.of_option Py.bind].
    change (char_eqb "(" lparen) with true. cbn [negb].
    apply detokenize_loop_words; assumption.
  - apply detokenize_loop_words; assumption.
  - change (")" :: (repeat ")" k ++ tokens_of_words r)%list)
      with ((repeat ")" (S k) ++ tokens_of_words r)%list).
    rewrite detokenize_loop_parens.
    apply detokenize_loop_words; assumption.
Qed.

(** ** From command trees to words *)

Lemma obj_nested_ind (P : obj -> Prop) :
  (forall t, (forall l, t <> OList l) -> P t) ->
  (forall l, Forall P l -> P (OList l)) ->
  forall t, P t.
Proof.
  intros Hatom Hlist. fix IH 1. intros t.
  destruct t as [| | | | | |l| | | | |];
    try (apply Hatom; intros l'; discriminate).
  apply Hlist. induction l as [|x l IHl]; constructor; [apply IH | exact IHl].
Qed.

Lemma tokens_of_words_app (a b : list word) :
  tokens_of_words (a ++ b) = (tokens_of_words a ++ tokens_of_words b)%list.
Proof. apply flat_map_app. Qed.

Lemma tokens_close_last (ws : list word) :
  ends_closed ws = true ->
  tokens_of_words (close_last ws) = (tokens_of_words ws ++ [")"])%list.
Proof.
  induction ws as [|w r IH]; [discriminate|]. intros H.
  destruct r as [|w2 r].
  - destruct w as [a|a|a k]; [discriminate | reflexivity |].
    unfold tokens_of_words.
    cbn [close_last close_word flat_map word_tokens].
    rewrite !app_nil_r. cbn [app]. rewrite repeat_snoc. reflexivity.
  - change (close_last (w :: w2 :: r)) with (w :: close_last (w2 :: r)).
    unfold tokens_of_words in *. cbn [flat_map].
    rewrite (IH H), <- app_assoc. reflexivity.
Qed.

Lemma clean_close_last (ws : list word) :
  Forall (fun w => clean (word_atom w) = true) ws ->
  Forall (fun w => clean (word_atom w) = true) (close_last ws).
Proof.
  induction ws as [|w r IH]; intros H; [constructor|].
  inversion H as [|? ? Hw Hr]; subst. destruct r as [|w2 r].
  - constructor; [destruct w; exact Hw | constructor].
  - change (close_last (w :: w2 :: r)) with (w :: close_last (w2 :: r)).
    constructor; [exact Hw | apply IH; exact Hr].
Qed.

Lemma ends_closed_close_last (ws : list word) :
  ends_closed ws = true -> ends_closed (close_last ws) = true.
Proof.
  induction ws as [|w r IH]; [discriminate|]. intros H. destruct r as [|w2 r].
  - destruct w; [discriminate | reflexivity | reflexivity].
  - change (close_last (w :: w2 :: r)) with (w :: close_last (w2 :: r)).
    specialize (IH H).
    destruct (close_last (w2 :: r)) eqn:E; [discriminate | exact IH].
Qed.

Lemma ends_closed_app (a b : list word) :
  ends_closed b = true -> ends_closed (a ++ b) = true.
Proof.
  intros Hb. induction a as [|w a IH]; [exact Hb|].
  cbn [app]. destruct (a ++ b)%list eqn:E; [discriminate | exact IH].
Qed.

Lemma ends_closed_cons (w : word) (ws : list word) :
  ends_closed ws = true -> ends_closed (w :: ws) = true.
Proof. apply (ends_closed_app [w]). Qed.

Section TextRoundTrip.

Variable float_repr : Q -> string.

Lemma storable_OList (l : list obj) :
  storable float_repr (OList l) <->
  match l with
  | OList _ :: _ => False
  | _ :: _ :: _ => True
  | _ => False
  end /\ Forall (storable float_repr) l.
Proof.
  cbn [storable].
  assert (Hall : (fix all (l : list obj) : Prop :=
                    match l with
                    | [] => True
                    | x :: r => storable float_repr x /\ all r
                    end) l <-> Forall (storable float_repr) l).
  { induction l as [|x l IH].
    - split; [constructor | intros; exact I].
    - split.
      + intros [Hx Hl]. constructor; [exact Hx | apply IH; exact Hl].
      + intros H. inversion H as [|? ? Hx Hl]; subst.
        split; [exact Hx | apply IH; exact Hl]. }
  rewrite Hall. reflexivity.
Qed.

Lemma atom_written (t : obj) :
  (forall l, t <> OList l) -> storable float_repr t ->
  exists token,
    tokens_of float_repr t = Ok [token] /\ clean token = true /\
    atomize token = Ok t.
Proof.
  intros Hatom Hs.
  destruct t; try (destruct (Hatom l eq_refl));
    (destruct Hs as (token & Hd & Hc & Hback); exists token;
     cbn [tokens_of]; rewrite Hd; cbn [Py.bind]; auto).
Qed.

Lemma list_written (l : list obj) :
  Forall (fun t => storable float_repr t ->
                   exists toks ws, tokens_of float_repr t = Ok toks
                                   /\ written toks ws) l ->
  Forall (storable float_repr) l -> l <> [] ->
  exists toks ws, tokens_of_list float_repr l = Ok toks /\ written toks ws.
Proof.
  induction l as [|x l IH]; intros HP Hs Hne; [contradiction|].
  inversion HP as [|? ? HPx HPl]; subst.
  inversion Hs as [|? ? Hsx Hsl]; subst.
  destruct (HPx Hsx) as (tx & wx & Htx & -> & Hcx & Hex).
  cbn [tokens_of_list]. rewrite Htx. cbn [Py.bind].
  destruct l as [|y l].
  - exists (tokens_of_words wx), wx. cbn [tokens_of_list Py.bind].
    rewrite app_nil_r. repeat split; assumption.
  - destruct (IH HPl Hsl) as (tr & wr & Htr & -> & Hcr & Her); [discriminate|].
    rewrite Htr. cbn [Py.bind].
    exists (tokens_of_words wx ++ tokens_of_words wr)%list, (wx ++ wr)%list.
    split; [reflexivity|]. split; [symmetry; apply tokens_of_words_app|].
    split; [apply Forall_app; split; assumption | apply ends_closed_app; exact Her].
Qed.

Lemma storable_written (t : obj) :
  storable float_repr t ->
  exists toks ws, tokens_of float_repr t = Ok toks /\ written toks ws.
Proof.
  induction t as [t Hatom | l IH] using obj_nested_ind; intros Hs.
  - destruct (atom_written t Hatom Hs) as (token & Ht & Hc & _).
    exists [token], [WPlain token]. split; [exact Ht|].
    split; [reflexivity|]. split; [repeat constructor; exact Hc | reflexivity].
  - apply storable_OList in Hs as [Hshape Hall].
    destruct l as [|h [|x xs]]; try contradiction.
    { destruct h; contradiction. }
    assert (Hh : forall l', h <> OList l')
      by (intros l' ->; contradiction).
    inversion Hall as [|? ? Hsh Hsr]; subst.
    inversion IH as [|? ? _ IHr]; subst.
    destruct (atom_written h Hh Hsh) as (th & Hth & Hch & _).
    destruct (list_written (x :: xs) IHr Hsr) as (tr & wr & Htr & -> & Hcr & Her);
      [discriminate|].
    rewrite tokens_of_OList.
    change (tokens_of_list float_repr (h :: x :: xs))
      with (a <- tokens_of float_repr h ;;
            b <- tokens_of_list float_repr (x :: xs) ;; Ok (a ++ b)%list).
    rewrite Hth, Htr. cbn [Py.bind app].
    exists ("(" :: (th :: tokens_of_words wr) ++ [")"])%list,
           (WOpen th :: close_last wr).
    split; [reflexivity|]. split; [|split].
    + unfold tokens_of_words. cbn [flat_map word_tokens app].
      fold (tokens_of_words (close_last wr)).
      rewrite (tokens_close_last _ Her). reflexivity.
    + constructor; [exact Hch | apply clean_close_last; exact Hcr].
    + apply ends_closed_cons, ends_closed_close_last, Her.
Qed.

Lemma storable_round_trips (t : obj) :
  storable float_repr t -> round_trips float_repr t.
Proof.
  induction t as [t Hatom | l IH] using obj_nested_ind; intros Hs.
  - assert (Ha : atom_round_trips float_repr t).
    { destruct t; try (destruct (Hatom l eq_refl));
        (destruct Hs as (token & Hd & Hc & Hback); exists token;
         apply clean_spec in Hc;
         split; [exact Hd|]; split; [|split; [|exact Hback]];
         apply String.eqb_neq; [apply (cf_not_open _ Hc) | apply (cf_not_close _ Hc)]). }
    destruct t; try exact Ha. destruct (Hatom l eq_refl).
  - apply storable_OList in Hs as [_ Hall].
    apply round_trips_OList.
    rewrite Forall_forall in *. intros x Hx. apply IH; [exact Hx | apply Hall, Hx].
Qed.

(** Reading the text written for a storable command gives the command
    back. *)
Lemma parse_written (ntl : list obj) :
  storable float_repr (OList ntl) ->
  exists cmd,
    deparse float_repr (OList ntl) = Ok cmd /\
    tokenize cmd = write_to_tokens float_repr ntl /\
    parse cmd = Some (Ok (OList ntl)).
Proof.
  intros Hs.
  destruct (storable_written _ Hs) as (toks & ws & Htoks & -> & Hc & He).
  assert (Hne : ws <> []) by (intros ->; discriminate).
  exists (unwords (map word_text ws)).
  assert (Htk : tokenize (unwords (map word_text ws)) = Ok (tokens_of_words ws))
    by (apply tokenize_words; exact Hc).
  split; [|split].
  - unfold deparse, write_to_tokens. rewrite Htoks. cbn [Py.bind].
    apply detokenize_words; assumption.
  - unfold write_to_tokens. rewrite Htoks. exact Htk.
  - unfold parse. rewrite Htk.
    destruct (read_written float_repr (parse_fuel (tokens_of_words ws)))
      as [Hread _].
    specialize (Hread (OList ntl) (tokens_of_words ws) []
                  (storable_round_trips _ Hs) Htoks).
    rewrite app_nil_r in Hread. rewrite Hread; [reflexivity|].
    unfold parse_fuel. lia.
Qed.

End TextRoundTrip.

(** X25 ([deparse], [detokenize], [write_to_tokens], [tokenize], [parse],
    [read_from_tokens]): a command survives being written as text and read
    back.  For a command tree in which every list starts with an atom and
    has at least two elements (the shape of every generated command) and
    every atom is written to a token of ASCII characters without white
    space and parentheses that reads back as the atom, [deparse] returns a
    text and [parse] applied to that text returns the command. *)
Theorem parse_deparse_storable (float_repr : Q -> string) (ntl : list obj) :
  storable float_repr (OList ntl) ->
  exists cmd,
    deparse float_repr (OList ntl) = Ok cmd /\
    parse cmd = Some (Ok (OList ntl)).
Proof.
  intros Hs. destruct (parse_written float_repr ntl Hs) as (cmd & Hd & _ & Hp).
  exists cmd. split; assumption.
Qed.

Ltac atom_storable_by_computation :=
  eexists; split; [reflexivity | split; reflexivity].

(** X25, witness: the command of [rename(0, 'q')] on the test labels. *)
Lemma parse_deparse_storable_witness :
  exists cmd,
    deparse sample_float_repr (OList RENAME_CMD) = Ok cmd /\
    parse cmd = Some (Ok (OList RENAME_CMD)).
Proof.
  apply (parse_deparse_storable sample_float_repr RENAME_CMD).
  unfold RENAME_CMD. cbn [storable].
  repeat split; atom_storable_by_computation.
Defined.

Lemma atomize_total (token : string) :
  token <> EmptyString -> exists a, atomize token = Ok a.
Proof.
  intros Hne. unfold atomize.
  destruct token as [|c r]; [contradiction|].
  destruct (char_eqb c quote); [eauto|].
  destruct (String.eqb (String c r) "null"); [eauto|].
  destruct (int_of_string (String c r)); [eauto|].
  destruct (float_of_string (String c r)); [eauto|].
  destruct (special_of_string (String c r)); [eauto|].
  cbn [replace_after_first Py.bind].
  destruct (String.eqb _ "#:"); eauto.
Qed.

(** X26 ([tokenize], [deparse], [parse]): a list with a single element is
    not read back.  Its text is one word, [(a)]; the parenthesis pass of
    [tokenize] detaches the opening parenthesis and leaves the rest of the
    word whole, closing parenthesis included, so the list is never closed
    and [parse] raises [IndexError]. *)
Theorem parse_deparse_singleton (float_repr : Q -> string) (a : obj)
    (token : string) :
  deatomize float_repr a = Ok token -> clean token = true ->
  deparse float_repr (OList [a]) = Ok ("(" ++ token ++ ")") /\
  tokenize ("(" ++ token ++ ")") = Ok ["("; token ++ ")"] /\
  parse ("(" ++ token ++ ")") = Some (Raise IndexError).
Proof.
  intros Hd Hc. pose proof (clean_spec _ Hc) as Hf.
  assert (Htoks : tokens_of float_repr a = Ok [token]).
  { destruct a; cbn [tokens_of]; try (rewrite Hd; reflexivity).
    cbn in Hd. discriminate. }
  assert (Hne : token ++ ")" <> EmptyString)
    by (destruct token; discriminate).
  assert (Htk : tokenize ("(" ++ token ++ ")") = Ok ["("; token ++ ")"]).
  { unfold tokenize.
    change ("(" ++ token ++ ")") with (unwords ["(" ++ token ++ ")"]).
    rewrite split_unwords.
    - rewrite second_pass_even.
      + cbn [app Py.bind unwords append third_pass_loop].
        change (char_eqb "(" lparen) with true. cbv iota.
        destruct (token ++ ")") eqn:E; [contradiction | reflexivity].
      + repeat constructor. cbn [append count_char unwords].
        change (char_eqb "(" quote) with false. cbv iota.
        rewrite count_char_app. cbn [count_char].
        change (char_eqb ")" quote) with false. cbv iota.
        rewrite !Nat.add_0_r. exact (cf_quotes _ Hf).
    - repeat constructor; [discriminate|].
      unfold spaceless. cbn [append all_chars].
      rewrite all_chars_app, (cf_spaceless _ Hf). reflexivity. }
  split; [|split].
  - unfold deparse, write_to_tokens. rewrite tokens_of_OList.
    cbn [tokens_of_list]. rewrite Htoks.
    cbn [Py.bind app detokenize detokenize_loop].
    rewrite (cf_not_close _ Hf).
    cbn [last_char Py.of_option Py.bind String.eqb Ascii.eqb Bool.eqb].
    change (char_eqb "(" lparen) with true. cbn [negb].
    rewrite string_app_assoc. reflexivity.
  - exact Htk.
  - unfold parse. rewrite Htk.
    destruct (atomize_total _ Hne) as [x Hx].
    assert (Hclose : String.eqb (token ++ ")") ")" = false).
    { apply String.eqb_neq. destruct token as [|c [|c' r]];
        [destruct (cf_nonempty _ Hf); reflexivity | discriminate | discriminate]. }
    assert (Hopen : String.eqb (token ++ ")") "(" = false).
    { apply String.eqb_neq. destruct token as [|c [|c' r]];
        [destruct (cf_nonempty _ Hf); reflexivity | discriminate | discriminate]. }
    change (parse_fuel ["("; token ++ ")"]) with 6%nat.
    cbn [read_from_tokens String.eqb Ascii.eqb Bool.eqb].
    cbn [read_items]. rewrite Hclose.
    cbn [read_from_tokens]. rewrite Hopen, Hclose, Hx.
    cbn [Py.bind read_items]. reflexivity.
Qed.

(** X26, witness: the one-element list holding the symbol [labels]. *)
Lemma parse_deparse_singleton_witness :
  deparse sample_float_repr (OList [OSym "labels"]) = Ok "(labels)" /\
  tokenize "(labels)" = Ok ["("; "labels)"] /\
  parse "(labels)" = Some (Raise IndexError).
Proof.
  apply (parse_deparse_singleton sample_float_repr (OSym "labels") "labels");
    reflexivity.
Defined.

(** ** Atoms that are storable *)

Lemma uint_chars_clean (d : Decimal.uint) :
  all_chars clean_char (NilEmpty.string_of_uint d) = true /\
  count_char quote (NilEmpty.string_of_uint d) = 0%nat.
Proof.
  induction d as [|d [IH1 IH2]|d [IH1 IH2]|d [IH1 IH2]|d [IH1 IH2]|d [IH1 IH2]
                  |d [IH1 IH2]|d [IH1 IH2]|d [IH1 IH2]|d [IH1 IH2]|d [IH1 IH2]];
    cbn [NilEmpty.string_of_uint all_chars count_char];
    [split; reflexivity|..];
    (split; [rewrite IH1; reflexivity | rewrite IH2; reflexivity]).
Qed.

Lemma atomize_string_of_Z (z : Z) : atomize (string_of_Z z) = Ok (OInt z).
Proof.
  unfold string_of_Z.
  destruct z as [|p|p]; [reflexivity|..];
    cbn [Z.to_int NilZero.string_of_int]; unfold NilZero.string_of_uint;
    pose proof (DecimalPos.Unsigned.to_uint_nonnil p) as Hnil;
    pose proof (DecimalPos.Unsigned.of_to p) as Hof;
    destruct (atomize_uint _ Hnil) as [Hpos Hneg];
    rewrite Hof in Hpos, Hneg;
    destruct (Pos.to_uint p); try contradiction; assumption.
Qed.

Lemma int_storable (float_repr : Q -> string) (z : Z) :
  atom_storable float_repr (OInt z).
Proof.
  exists (string_of_Z z). split; [reflexivity|].
  split; [|apply atomize_string_of_Z].
  unfold string_of_Z.
  destruct z as [|p|p]; [reflexivity|..];
    cbn [Z.to_int NilZero.string_of_int]; unfold NilZero.string_of_uint;
    pose proof (DecimalPos.Unsigned.to_uint_nonnil p) as Hnil;
    destruct (uint_chars_clean (Pos.to_uint p)) as [Hc Hq];
    destruct (Pos.to_uint p) eqn:E; try contradiction;
    unfold clean; cbn [NilEmpty.string_of_uint] in *;
    cbn [all_chars count_char] in *;
    rewrite ?Hc, ?Hq; try reflexivity;
    apply andb_true_iff in Hc as [_ Hc]; cbn in Hq; rewrite Hc, Hq; reflexivity.
Qed.

Lemma str_storable (float_repr : Q -> string) (s : string) :
  clean_name s = true -> atom_storable float_repr (OStr s).
Proof.
  intros H. unfold clean_name in H. apply andb_true_iff in H as [Hc Hq].
  exists (String quote s ++ String quote EmptyString). split; [reflexivity|].
  split.
  - unfold clean. cbn [append].
    change (String quote (s ++ String quote EmptyString))
      with (String quote EmptyString ++ s ++ String quote EmptyString).
    rewrite !all_chars_app, !count_char_app, Hc.
    cbn [all_chars count_char andb].
    change (char_eqb quote quote) with true. cbv iota.
    change (clean_char quote) with true. cbn [andb].
    replace (1 + 0 + (count_char quote s + (1 + 0)))%nat
      with (S (S (count_char quote s))) by lia.
    exact Hq.
  - cbn [append atomize].
    change (char_eqb quote quote) with true. cbv iota.
    rewrite string_app_length. cbn [String.length].
    replace (String.length s + 1 - 1)%nat with (String.length s) by lia.
    unfold take. rewrite substring_prefix. reflexivity.
Qed.

(** X27 ([codegen_rename], [deparse], [parse]): the command of a rename
    survives being written as text and read back when the old and the new
    name are made of ASCII characters other than white space and
    parentheses and hold an even number of double quotes, whatever the
    index. *)
Theorem rename_command_survives (float_repr : Q -> string) (L : labels)
    (i : Z) (r : record) (a b : string) (c : list obj) :
  getitem L i = Ok r -> dict_get r "name" = Some (OStr a) ->
  clean_name a = true -> clean_name b = true ->
  codegen_rename L i (OStr b) = Ok c ->
  exists cmd,
    deparse float_repr (OList c) = Ok cmd /\ parse cmd = Some (Ok (OList c)).
Proof.
  intros Hr Ha Hca Hcb Hgen.
  unfold codegen_rename, field in Hgen. rewrite Hr in Hgen.
  cbn [Py.bind] in Hgen. rewrite Ha in Hgen.
  cbn [Py.bind Py.of_option] in Hgen. injection Hgen as <-.
  destruct (parse_written float_repr
              (_gen_code "set_name" "interval"
                 [("index", OInt i); ("name", OStr a)] [("new_name", OStr b)]))
    as (cmd & Hd & _ & Hp).
  - cbn [storable _gen_code flatten_items flat_map app fst snd].
    repeat split;
      first [ apply int_storable
            | apply str_storable; assumption
            | atom_storable_by_computation ].
  - exists cmd. split; assumption.
Qed.

(** X27, witness: [rename(0, 'q')] on the test labels. *)
Lemma rename_command_survives_witness :
  exists cmd,
    deparse sample_float_repr (OList RENAME_CMD) = Ok cmd /\
    parse cmd = Some (Ok (OList RENAME_CMD)).
Proof.
  apply (rename_command_survives sample_float_repr TEST_LABELS 0
           (interval 1 (21 # 10) "a") "a" "q" RENAME_CMD);
    reflexivity.
Defined.

(** * Reading back the operations file *)

Lemma line_end_is_space (c : ascii) : is_line_end c = true -> is_space c = true.
Proof.
  destruct c as [[] [] [] [] [] [] [] []]; vm_compute; intros H;
    first [reflexivity | discriminate].
Qed.

Lemma lines_from_line (t cur rest : string) :
  all_chars (fun c => negb (is_line_end c)) t = true ->
  lines_from cur (t ++ newline ++ rest)
  = (cur ++ t ++ newline) :: lines_from EmptyString rest.
Proof.
  revert cur. induction t as [|c t IH]; intros cur Ht.
  - cbn [append]. unfold newline. cbn [append lines_from].
    change (is_line_end (ascii_of_nat 10)) with true. cbv iota.
    change (char_eqb (ascii_of_nat 10) (ascii_of_nat 13)) with false.
    cbn [andb]. destruct rest; reflexivity.
  - cbn [all_chars] in Ht. apply andb_true_iff in Ht as [Hc Ht].
    cbn [append lines_from].
    destruct (is_line_end c); [discriminate|].
    rewrite (IH _ Ht), !string_app_assoc. reflexivity.
Qed.

Lemma lines_text_app (texts : list string) (tail : string) :
  Forall (fun t => all_chars (fun c => negb (is_line_end c)) t = true) texts ->
  file_lines (lines_text texts ++ tail)
  = (map (fun t => (t ++ newline)%string) texts ++ file_lines tail)%list.
Proof.
  unfold file_lines. induction texts as [|t r IH]; intros H; [reflexivity|].
  inversion H as [|? ? Ht Hr]; subst.
  cbn [lines_text map app]. rewrite !string_app_assoc.
  rewrite (lines_from_line _ _ _ Ht), (IH Hr). reflexivity.
Qed.

Lemma file_lines_text (texts : list string) :
  Forall (fun t => all_chars (fun c => negb (is_line_end c)) t = true) texts ->
  file_lines (lines_text texts) = map (fun t => t ++ newline) texts.
Proof.
  intros H. rewrite <- (string_app_nil_r (lines_text texts)).
  rewrite (lines_text_app _ _ H). apply app_nil_r.
Qed.

Lemma lstrip_word (s : string) (c : ascii) (r : string) :
  s = String c r -> is_space c = false -> lstrip s = s.
Proof. intros -> H. cbn [lstrip]. rewrite H. reflexivity. Qed.

Lemma rstrip_newline (t : string) (c : ascii) :
  last_char t = Some c -> is_space c = false -> rstrip (t ++ newline) = t.
Proof.
  intros Hl Hc. induction t as [|x r IH]; [discriminate|].
  destruct r as [|y r].
  - injection Hl as ->. cbn [append rstrip].
    change (rstrip newline) with EmptyString. cbv iota. rewrite Hc. reflexivity.
  - cbn [append]. change (String y (r ++ newline)) with (String y r ++ newline).
    cbn [rstrip]. rewrite IH by exact Hl. reflexivity.
Qed.

Lemma unwords_last (ws : list string) :
  ws <> [] -> Forall (fun w => w <> EmptyString /\ spaceless w = true) ws ->
  exists c, last_char (unwords ws) = Some c /\ is_space c = false.
Proof.
  induction ws as [|w r IH]; intros Hne Hall; [contradiction|].
  inversion Hall as [|? ? [Hw Hs] Hr]; subst.
  destruct r as [|w2 r].
  - cbn [unwords]. destruct (last_char_some w Hw) as [c Hc]. exists c.
    split; [exact Hc|].
    pose proof (all_chars_last _ _ _ Hs Hc) as H. cbv beta in H.
    destruct (is_space c); [discriminate | reflexivity].
  - change (unwords (w :: w2 :: r)) with (w ++ String " " (unwords (w2 :: r))).
    rewrite last_char_app by discriminate.
    destruct (IH ltac:(discriminate) Hr) as (c & Hc & Hsp).
    exists c. split; [|exact Hsp].
    cbn [last_char]. destruct (unwords (w2 :: r)); [discriminate | exact Hc].
Qed.

Lemma unwords_no_line_end (ws : list string) :
  Forall (fun w => w <> EmptyString /\ spaceless w = true) ws ->
  all_chars (fun c => negb (is_line_end c)) (unwords ws) = true.
Proof.
  induction ws as [|w r IH]; intros Hall; [reflexivity|].
  inversion Hall as [|? ? [Hw Hs] Hr]; subst.
  assert (Hwl : all_chars (fun c => negb (is_line_end c)) w = true).
  { eapply all_chars_impl; [|exact Hs]. intros c Hc. cbv beta in *.
    destruct (is_line_end c) eqn:E; [|reflexivity].
    rewrite (line_end_is_space c E) in Hc. discriminate. }
  destruct r as [|w2 r]; [exact Hwl|].
  change (unwords (w :: w2 :: r)) with (w ++ String " " (unwords (w2 :: r))).
  rewrite all_chars_app, Hwl. cbn [all_chars andb].
  change (is_line_end " ") with false. cbn [negb andb]. apply IH. exact Hr.
Qed.

Lemma command_text_line (text : string) :
  command_text text ->
  all_chars (fun c => negb (is_line_end c)) text = true /\
  String.eqb (text ++ newline) newline = false /\
  strip (text ++ newline) = text.
Proof.
  intros (ws & Hne & Hc & ->).
  assert (Hall : Forall (fun w => w <> EmptyString /\ spaceless w = true)
                   (map word_text ws)).
  { apply Forall_map. eapply Forall_impl; [|exact Hc].
    intros w Hw. destruct (word_text_facts w Hw) as (H1 & H2 & _). split; assumption. }
  assert (Hne' : map word_text ws <> []) by (destruct ws; [contradiction | discriminate]).
  destruct (unwords_last _ Hne' Hall) as (c & Hlast & Hsp).
  set (text := unwords (map word_text ws)) in *.
  assert (Hfirst : exists c0 r0, text = String c0 r0 /\ is_space c0 = false).
  { unfold text. destruct ws as [|w r]; [contradiction|].
    inversion Hall as [|? ? [Hw Hs] _]; subst.
    cbn [map]. rewrite unwords_spaced.
    destruct (word_text w) as [|c0 r0]; [contradiction|].
    exists c0, (r0 ++ spaced (map word_text r)). split; [reflexivity|].
    unfold spaceless in Hs. cbn [all_chars] in Hs.
    apply andb_true_iff in Hs as [Hs _].
    destruct (is_space c0); [discriminate | reflexivity]. }
  destruct Hfirst as (c0 & r0 & Htext & Hsp0).
  split; [apply unwords_no_line_end; exact Hall|]. split.
  - apply String.eqb_neq. rewrite Htext. unfold newline. cbn [append].
    intros H. injection H as _ H. destruct r0; discriminate.
  - unfold strip.
    rewrite (lstrip_word (text ++ newline) c0 (r0 ++ newline));
      [| rewrite Htext; reflexivity | exact Hsp0].
    apply (rstrip_newline _ c Hlast Hsp).
Qed.

Section LoadingFacts.

Variable float_repr : Q -> string.
Variable yaml_dump : string -> string -> string.
Variable yaml_load : string -> yaml_value.

(** The text [deparse] writes for a storable command, and what [parse]
    makes of it. *)
Lemma deparse_command_text (ntl : list obj) :
  storable float_repr (OList ntl) ->
  exists text,
    deparse float_repr (OList ntl) = Ok text /\ command_text text /\
    parse text = Some (Ok (OList ntl)).
Proof.
  intros Hs.
  destruct (storable_written float_repr _ Hs) as (toks & ws & Htoks & -> & Hc & He).
  assert (Hne : ws <> []) by (intros ->; discriminate).
  exists (unwords (map word_text ws)).
  assert (Htk : tokenize (unwords (map word_text ws)) = Ok (tokens_of_words ws))
    by (apply tokenize_words; exact Hc).
  split; [|split].
  - unfold deparse, write_to_tokens. rewrite Htoks. cbn [Py.bind].
    apply detokenize_words; assumption.
  - exists ws. repeat split; assumption.
  - unfold parse. rewrite Htk.
    destruct (read_written float_repr (parse_fuel (tokens_of_words ws)))
      as [Hread _].
    specialize (Hread (OList ntl) (tokens_of_words ws) []
                  (storable_round_trips float_repr _ Hs) Htoks).
    rewrite app_nil_r in Hread. rewrite Hread; [reflexivity|].
    unfold parse_fuel. lia.
Qed.

Lemma ops_text_lines (ops : list obj) :
  Forall (storable_command float_repr) ops ->
  exists texts,
    ops_text float_repr ops = Ok (lines_text texts) /\
    Forall2 (fun c text => command_text text /\ parse text = Some (Ok c))
            ops texts.
Proof.
  induction ops as [|c ops IH]; intros Hall.
  - exists []. split; [reflexivity | constructor].
  - inversion Hall as [|? ? (ntl & -> & Hs) Hr]; subst.
    destruct (deparse_command_text ntl Hs) as (text & Hd & Hct & Hp).
    destruct (IH Hr) as (texts & Ht & Hf).
    exists (text :: texts). split.
    + cbn [ops_text lines_text]. rewrite Hd, Ht. reflexivity.
    + constructor; [split; assumption | exact Hf].
Qed.

Lemma read_ops_app (ops : list obj) (texts more : list string)
    (cs : CorrectionStack) :
  Forall2 (fun c text => command_text text /\ parse text = Some (Ok c))
          ops texts ->
  read_ops false (map (fun t => (t ++ newline)%string) texts ++ more)%list cs
  = read_ops false more
      (with_stacks cs (undo_stack cs ++ ops) (redo_stack cs)).
Proof.
  intros H. revert cs. induction H as [|c text ops texts [Hct Hp] _ IH]; intros cs.
  - cbn [map app]. rewrite app_nil_r. destruct cs; reflexivity.
  - destruct (command_text_line text Hct) as (_ & Hnl & Hstrip).
    cbn [map app read_ops]. rewrite Hnl.
    unfold parse_line. rewrite Hstrip, Hp. rewrite IH.
    cbn [with_stacks undo_stack redo_stack cs_labels cs_file cs_uuid label_hash].
    rewrite <- app_assoc. reflexivity.
Qed.

Lemma read_ops_lines (ops : list obj) (texts : list string)
    (cs : CorrectionStack) :
  Forall2 (fun c text => command_text text /\ parse text = Some (Ok c))
          ops texts ->
  read_ops false (map (fun t => t ++ newline) texts) cs
  = (Ok tt, with_stacks cs (undo_stack cs ++ ops) (redo_stack cs)).
Proof.
  intros H. rewrite <- (app_nil_r (map _ texts)).
  rewrite (read_ops_app _ _ _ _ H). reflexivity.
Qed.

Lemma command_texts_lines (ops : list obj) (texts : list string) :
  Forall2 (fun c text => command_text text /\ parse text = Some (Ok c))
          ops texts ->
  Forall (fun t => all_chars (fun c => negb (is_line_end c)) t = true) texts.
Proof.
  intros H. induction H as [|c text ops texts [Hct _] _ IH];
    constructor; [apply (command_text_line text Hct) | exact IH].
Qed.

End LoadingFacts.

(** X28 ([write_to_file], [read_from_file], [deparse], [parse]): what
    [write_to_file] saves, [read_from_file] loads.  When every command of
    the undo stack is storable (see X25) and [yaml.safe_load] reads the
    metadata text back to the two values written, then after
    [write_to_file()] a call [read_from_file(file)] on any stack object,
    without applying, sets its undo stack to the saved commands, empties
    its redo stack and takes over the file name, the uuid and the label
    hash; the labels are not touched. *)
Theorem write_then_read (float_repr : Q -> string)
    (yaml_dump : string -> string -> string)
    (yaml_load : string -> yaml_value)
    (cs cs0 : CorrectionStack) (fs : file_system) (file_data : Py.dict string) :
  Forall (storable_command float_repr) (undo_stack cs) ->
  cs_file cs <> EmptyString ->
  yaml_load (metadata_text yaml_dump cs) = YMap file_data ->
  dict_get file_data "uuid" = Some (cs_uuid cs) ->
  dict_get file_data "label_hash" = Some (label_hash cs) ->
  exists fs',
    write_to_file float_repr yaml_dump None (cs, fs) = (Ok tt, (cs, fs')) /\
    read_from_file yaml_load (Some (cs_file cs)) false (cs0, fs')
    = (ReadOk,
       (mk_stack (cs_labels cs0) (undo_stack cs) [] (cs_file cs) (cs_uuid cs)
                 (label_hash cs), fs')).
Proof.
  intros Hops Hfile Hload Huuid Hhash.
  destruct (ops_text_lines float_repr _ Hops) as (texts & Htext & Hlines).
  destruct (write_to_file_default float_repr yaml_dump cs fs _ Htext)
    as (fs' & Hw & Hf & Hmd & _).
  exists fs'. split; [exact Hw|].
  unfold read_from_file.
  destruct (cs_file cs) as [|c0 f0] eqn:Ef; [contradiction|].
  cbn [with_file cs_file]. rewrite Hf.
  rewrite file_lines_text.
  - rewrite (read_ops_lines _ _ _ Hlines).
    cbn [with_file with_stacks undo_stack redo_stack cs_labels cs_file cs_uuid
         label_hash app append] in *.
    rewrite Hmd, Hload, Huuid.
    cbn [with_metadata undo_stack redo_stack cs_labels cs_file cs_uuid label_hash].
    rewrite Hhash. reflexivity.
  - apply (command_texts_lines _ _ Hlines).
Qed.

(** X28, witness: the stack holding the rename command. *)
Lemma write_then_read_witness :
  exists fs',
    write_to_file sample_float_repr sample_yaml_dump None (RENAME_STACK, [])
    = (Ok tt, (RENAME_STACK, fs')) /\
    read_from_file sample_yaml_load (Some "ops.corr") false
      (fresh_stack TEST_LABELS, fs')
    = (ReadOk, (RENAME_STACK, fs')).
Proof.
  apply (write_then_read sample_float_repr sample_yaml_dump sample_yaml_load
           RENAME_STACK (fresh_stack TEST_LABELS) []
           [("label_hash", "hash"); ("uuid", "uuid")]).
  - repeat constructor. exists RENAME_CMD. split; [reflexivity|].
    unfold RENAME_CMD. cbn [storable].
    repeat split; atom_storable_by_computation.
  - discriminate.
  - reflexivity.
  - reflexivity.
  - reflexivity.
Defined.

Lemma lstrip_blank (sp : string) :
  all_chars blank_char sp = true -> lstrip (sp ++ newline) = EmptyString.
Proof.
  induction sp as [|c sp IH]; intros H; [reflexivity|].
  cbn [all_chars] in H. apply andb_true_iff in H as [Hc Hsp].
  unfold blank_char in Hc. apply andb_true_iff in Hc as [Hc _].
  cbn [append lstrip]. rewrite Hc. apply IH. exact Hsp.
Qed.

(** X29 ([read_from_file], [parse]): only a line that is exactly a line
    feed is skipped.  A blank line that holds white space makes
    [read_from_file] raise [SyntaxError] ([parse] of the empty text): the
    stacks have been reset, the undo stack holds the commands of the lines
    before the blank one, and the lines after it and the metadata are not
    read. *)
Theorem read_blank_line (float_repr : Q -> string)
    (yaml_load : string -> yaml_value)
    (cs0 : CorrectionStack) (fs : file_system) (name text sp rest : string)
    (ops : list obj) :
  name <> EmptyString ->
  Forall (storable_command float_repr) ops ->
  ops_text float_repr ops = Ok text ->
  sp <> EmptyString -> all_chars blank_char sp = true ->
  dict_get fs name = Some (text ++ sp ++ newline ++ rest) ->
  read_from_file yaml_load (Some name) false (cs0, fs)
  = (ReadRaise SyntaxError,
     (mk_stack (cs_labels cs0) ops [] name (cs_uuid cs0) (label_hash cs0), fs)).
Proof.
  intros Hname Hops Htext Hsp Hblank Hfile.
  destruct (ops_text_lines float_repr _ Hops) as (texts & Htext' & Hlines).
  rewrite Htext in Htext'. injection Htext' as ->.
  assert (Hnl : all_chars (fun c => negb (is_line_end c)) sp = true).
  { eapply all_chars_impl; [|exact Hblank].
    intros c Hc. unfold blank_char in Hc. apply andb_true_iff in Hc as [_ Hc].
    exact Hc. }
  unfold read_from_file.
  destruct name as [|c0 f0]; [contradiction|].
  cbn [with_file cs_file]. rewrite Hfile.
  rewrite (lines_text_app _ _ (command_texts_lines _ _ Hlines)).
  rewrite (read_ops_app _ _ _ _ Hlines).
  unfold file_lines. rewrite (lines_from_line _ _ _ Hnl).
  cbn [append read_ops].
  assert (Hne : String.eqb (sp ++ newline) newline = false).
  { apply String.eqb_neq. destruct sp as [|c [|c' r]];
      [contradiction | discriminate | discriminate]. }
  rewrite Hne. unfold parse_line, strip.
  rewrite (lstrip_blank _ Hblank).
  reflexivity.
Qed.

(** X29, witness: a rename command, a line holding one space, and another
    line. *)
Lemma read_blank_line_witness :
  read_from_file sample_yaml_load (Some "ops.corr") false
    (fresh_stack TEST_LABELS,
     [("ops.corr",
       RENAME_TEXT ++ newline ++ " " ++ newline ++ "(x y)" ++ newline)])
  = (ReadRaise SyntaxError,
     (mk_stack TEST_LABELS [OList RENAME_CMD] [] "ops.corr" "uuid" "hash",
      [("ops.corr",
        RENAME_TEXT ++ newline ++ " " ++ newline ++ "(x y)" ++ newline)])).
Proof.
  apply (read_blank_line sample_float_repr sample_yaml_load
           (fresh_stack TEST_LABELS) _ "ops.corr"
           (RENAME_TEXT ++ newline) " " ("(x y)" ++ newline)
           [OList RENAME_CMD]).
  - discriminate.
  - repeat constructor. exists RENAME_CMD. split; [reflexivity|].
    unfold RENAME_CMD. cbn [storable].
    repeat split; atom_storable_by_computation.
  - reflexivity.
  - discriminate.
  - reflexivity.
  - reflexivity.
Defined.

Lemma read_ops_push (ops : list obj) (texts : list string)
    (cs cs1 : CorrectionStack) :
  Forall2 (fun c text => command_text text /\ parse text = Some (Ok c))
          ops texts ->
  redo_stack cs = [] ->
  push_all ops cs = (Ok tt, cs1) ->
  read_ops true (map (fun t => t ++ newline) texts) cs = (Ok tt, cs1).
Proof.
  intros H. revert cs. induction H as [|c text ops texts [Hct Hp] _ IH];
    intros cs Hredo Hpush.
  - cbn [push_all] in Hpush. injection Hpush as <-. reflexivity.
  - destruct (command_text_line text Hct) as (_ & Hnl & Hstrip).
    cbn [map read_ops]. rewrite Hnl.
    unfold parse_line. rewrite Hstrip, Hp.
    cbn [push_all] in Hpush. unfold push, _apply in Hpush.
    cbn [with_stacks cs_labels] in Hpush.
    unfold _apply.
    destruct (evaluate c (cs_labels cs)) as [[v|e] L]; [|discriminate].
    destruct cs as [L0 u0 r0 f0 id0 h0]. cbn [redo_stack] in Hredo. subst r0.
    apply IH; [reflexivity | exact Hpush].
Qed.

(** X30 ([read_from_file], [_apply], [push]): loading with [apply=True]
    replays the saved commands.  When pushing the commands of the
    operations file in order on the stack object, with its stacks
    emptied, succeeds, [read_from_file(file, apply=True)] leaves exactly
    the labels and the stacks of those pushes, and takes the uuid and the
    label hash from the metadata file. *)
Theorem read_applies_commands (float_repr : Q -> string)
    (yaml_load : string -> yaml_value)
    (cs0 cs1 : CorrectionStack) (fs : file_system) (name text md uuid hash : string)
    (ops : list obj) (file_data : Py.dict string) :
  name <> EmptyString ->
  Forall (storable_command float_repr) ops ->
  ops_text float_repr ops = Ok text ->
  dict_get fs name = Some text ->
  dict_get fs (name ++ ".yaml") = Some md ->
  yaml_load md = YMap file_data ->
  dict_get file_data "uuid" = Some uuid ->
  dict_get file_data "label_hash" = Some hash ->
  push_all ops (mk_stack (cs_labels cs0) [] [] name (cs_uuid cs0) (label_hash cs0))
  = (Ok tt, cs1) ->
  read_from_file yaml_load (Some name) true (cs0, fs)
  = (ReadOk, (with_metadata cs1 uuid hash, fs)).
Proof.
  intros Hname Hops Htext Hfile Hmd Hload Huuid Hhash Hpush.
  destruct (ops_text_lines float_repr _ Hops) as (texts & Htext' & Hlines).
  rewrite Htext in Htext'. injection Htext' as ->.
  assert (Hfile1 : cs_file cs1 = name).
  { clear - Hpush.
    set (cs := mk_stack (cs_labels cs0) [] [] name (cs_uuid cs0) (label_hash cs0))
      in Hpush.
    assert (Hcs : cs_file cs = name) by reflexivity. clearbody cs.
    revert cs Hcs Hpush. induction ops as [|c ops IH]; intros cs Hcs Hpush.
    - injection Hpush as <-. exact Hcs.
    - cbn [push_all] in Hpush. unfold push, _apply in Hpush.
      cbn [with_stacks cs_labels] in Hpush.
      destruct (evaluate c (cs_labels cs)) as [[v|e] L]; [|discriminate].
      eapply IH; [|exact Hpush]. exact Hcs. }
  unfold read_from_file.
  destruct name as [|c0 f0] eqn:En; [contradiction|]. rewrite <- En in *.
  assert (Hwf : with_stacks (with_file cs0 name) [] []
                = mk_stack (cs_labels cs0) [] [] name (cs_uuid cs0) (label_hash cs0))
    by reflexivity.
  change (cs_file (with_file cs0 name)) with name.
  rewrite Hfile, Hwf.
  rewrite (file_lines_text _ (command_texts_lines _ _ Hlines)).
  rewrite (read_ops_push ops texts _ cs1 Hlines
             (eq_refl : redo_stack (mk_stack _ _ [] _ _ _) = []) Hpush).
  rewrite Hfile1, Hmd, Hload, Huuid. cbn [with_metadata label_hash].
  rewrite Hhash. destruct cs1; reflexivity.
Qed.

(** X30, witness: loading the file of the rename command on the test
    labels renames the first label. *)
Lemma read_applies_commands_witness :
  read_from_file sample_yaml_load (Some "ops.corr") true
    (fresh_stack TEST_LABELS,
     [("ops.corr", RENAME_TEXT ++ newline); ("ops.corr.yaml", "uuid: uuid")])
  = (ReadOk,
     (mk_stack (interval 1 (21 # 10) "q" :: tl TEST_LABELS)
               [OList RENAME_CMD] [] "ops.corr" "uuid" "hash",
      [("ops.corr", RENAME_TEXT ++ newline); ("ops.corr.yaml", "uuid: uuid")])).
Proof.
  apply (read_applies_commands sample_float_repr sample_yaml_load
           (fresh_stack TEST_LABELS)
           (mk_stack (interval 1 (21 # 10) "q" :: tl TEST_LABELS)
                     [OList RENAME_CMD] [] "ops.corr" "uuid" "hash")
           _ "ops.corr" (RENAME_TEXT ++ newline) "uuid: uuid" "uuid" "hash"
           [OList RENAME_CMD] [("label_hash", "hash"); ("uuid", "uuid")]).
  - discriminate.
  - repeat constructor. exists RENAME_CMD. split; [reflexivity|].
    unfold RENAME_CMD. cbn [storable].
    repeat split; atom_storable_by_computation.
  - reflexivity.
  - reflexivity.
  - reflexivity.
  - reflexivity.
  - reflexivity.
  - reflexivity.
  - reflexivity.
Defined.

(** ** The tokenizer on an open quoted region *)

Lemma second_pass_flag (tokens : list string) :
  forall (sp : list string) (b : bool) (sp' : list string) (b' : bool),
  second_pass_loop tokens sp b = Ok (sp', b') ->
  b' = xorb b (Nat.odd (List.length (filter odd_quotes tokens))).
Proof.
  induction tokens as [|token rest IH]; intros sp b sp' b' H.
  - cbn in H. injection H as _ <-. destruct b; reflexivity.
  - cbn [second_pass_loop] in H. cbn [filter]. unfold odd_quotes at 1.
    destruct (Nat.odd (count_char quote token)) eqn:E.
    + cbn [List.length]. rewrite Nat.odd_succ, <- Nat.negb_odd.
      destruct b; cbn [andb negb] in H.
      * destruct (extend_last sp token) as [sp2|e]; cbn [Py.bind] in H;
          [|discriminate].
        rewrite (IH _ _ _ _ H).
        destruct (Nat.odd _); reflexivity.
      * rewrite (IH _ _ _ _ H). destruct (Nat.odd _); reflexivity.
    + cbn [andb] in H.
      destruct (Nat.eqb (count_char quote token) 0 && b).
      * destruct (extend_last sp token) as [sp2|e]; cbn [Py.bind] in H;
          [|discriminate].
        exact (IH _ _ _ _ H).
      * exact (IH _ _ _ _ H).
Qed.

Lemma second_pass_join (ws : list string) :
  forall tok : string,
  Forall (fun w => count_char quote w = 0%nat) ws ->
  second_pass_loop ws [tok] true = Ok ([tok ++ spaced ws], true).
Proof.
  induction ws as [|w ws IH]; intros tok Hall.
  - cbn [second_pass_loop spaced]. rewrite string_app_nil_r. reflexivity.
  - inversion Hall as [|? ? Hw Hrest]; subst.
    cbn [second_pass_loop]. rewrite Hw.
    cbn [Nat.odd Nat.even andb negb Nat.eqb extend_last Py.bind].
    rewrite (IH _ Hrest). cbn [spaced].
    rewrite !string_app_assoc. reflexivity.
Qed.

Lemma tokenize_open_region (cmd : string) (c0 : ascii) (r : string)
    (ws : list string) :
  split cmd = String c0 r :: ws ->
  Nat.odd (count_char quote (String c0 r)) = true ->
  Forall (fun w => count_char quote w = 0%nat) ws ->
  char_eqb c0 lparen = false ->
  (forall c, last_char (unwords (String c0 r :: ws)) = Some c ->
             char_eqb c rparen = false) ->
  tokenize cmd = Ok [unwords (String c0 r :: ws)].
Proof.
  intros Hsplit Hodd Hall Hfirst Hlast.
  unfold tokenize. rewrite Hsplit. cbn [second_pass_loop].
  rewrite Hodd. cbn [andb negb app].
  rewrite (second_pass_join ws _ Hall). cbn [Py.bind].
  rewrite <- unwords_spaced.
  remember (unwords (String c0 r :: ws)) as t eqn:Ht.
  assert (Hc : exists rest, t = String c0 rest).
  { rewrite Ht, unwords_spaced. eexists. reflexivity. }
  destruct Hc as [rest ->].
  cbn [third_pass_loop]. rewrite Hfirst.
  destruct (last_char (String c0 rest)) as [c|] eqn:El.
  - rewrite (Hlast c eq_refl). reflexivity.
  - reflexivity.
Qed.

Lemma tokenize_total (cmd : string) :
  exists second_pass in_string token_list,
    second_pass_loop (split cmd) [] false = Ok (second_pass, in_string) /\
    in_string = Nat.odd (List.length (filter odd_quotes (split cmd))) /\
    third_pass_loop second_pass = Ok token_list /\
    tokenize cmd = Ok token_list.
Proof.
  destruct (second_pass_loop_ok (split cmd) [] false) as (sp & b & Hsp & Hall).
  - apply split_from_nonempty.
  - constructor.
  - discriminate.
  - destruct (third_pass_loop_ok sp Hall) as [out Hout].
    exists sp, b, out. split; [exact Hsp|]. split.
    + apply (second_pass_flag _ _ _ _ _ Hsp).
    + split; [exact Hout|]. unfold tokenize. rewrite Hsp. exact Hout.
Qed.

(** C7 (as amended).  [tokenize] never raises.  For every command text the
    first loop ends with some token list and some value of [in_string],
    the second loop turns that list into the result, and [tokenize] returns
    it; [in_string] is not looked at after the first loop.  A quoted region
    is still open at the end of the input ([in_string] is true) exactly
    when the number of words with an odd number of quote characters is
    odd.  In particular: when the first word has an odd number of quote
    characters and no later word has any, the region stays open and the
    first loop joins all words by single spaces into one token; if the
    first word does not start with an opening parenthesis and the last
    word does not end with a closing one, that token is the result. *)
Theorem tokenize_never_raises :
  (forall cmd : string,
     exists second_pass in_string token_list,
       second_pass_loop (split cmd) [] false = Ok (second_pass, in_string) /\
       in_string = Nat.odd (List.length (filter odd_quotes (split cmd))) /\
       third_pass_loop second_pass = Ok token_list /\
       tokenize cmd = Ok token_list) /\
  (forall (cmd : string) (c0 : ascii) (r : string) (ws : list string),
     split cmd = String c0 r :: ws ->
     odd_quotes (String c0 r) = true ->
     Forall (fun w => count_char quote w = 0%nat) ws ->
     char_eqb c0 lparen = false ->
     (forall c, last_char (unwords (String c0 r :: ws)) = Some c ->
                char_eqb c rparen = false) ->
     second_pass_loop (split cmd) [] false
     = Ok ([unwords (String c0 r :: ws)], true) /\
     tokenize cmd = Ok [unwords (String c0 r :: ws)]).
Proof.
  split.
  - exact tokenize_total.
  - intros cmd c0 r ws Hsplit Hodd Hall Hfirst Hlast. split.
    + rewrite Hsplit. cbn [second_pass_loop]. unfold odd_quotes in Hodd.
      rewrite Hodd. cbn [andb negb app].
      rewrite (second_pass_join ws _ Hall), <- unwords_spaced. reflexivity.
    + exact (tokenize_open_region cmd c0 r ws Hsplit Hodd Hall Hfirst Hlast).
Qed.

(** C7, witness: a text of two words whose first word starts with the
    only quote character. *)
Lemma tokenize_never_raises_witness :
  split UNCLOSED_TEXT = [String quote "abc"; "def"] /\
  odd_quotes (String quote "abc") = true /\
  second_pass_loop (split UNCLOSED_TEXT) [] false = Ok ([UNCLOSED_TEXT], true) /\
  tokenize UNCLOSED_TEXT = Ok [UNCLOSED_TEXT].
Proof.
  split; [reflexivity|]. split; [reflexivity|].
  apply (proj2 tokenize_never_raises UNCLOSED_TEXT quote "abc" ["def"]).
  - reflexivity.
  - reflexivity.
  - repeat constructor.
  - reflexivity.
  - intros c H. vm_compute in H. injection H as <-. reflexivity.
Defined.

(** C7, counterexample: the text ["abc def] opens a quoted region that is
    never closed, and [tokenize] returns the one token ["abc def]. *)
Lemma unclosed_quote_tokenizes :
  Nat.odd (count_char quote UNCLOSED_TEXT) = true /\
  tokenize UNCLOSED_TEXT = Ok [UNCLOSED_TEXT].
Proof. split; reflexivity. Qed.

(** ** What [invert] does to its argument *)

Lemma invert_frame (s_expr returned after : list obj) :
  invert s_expr = Ok (returned, after) ->
  List.length after = List.length s_expr /\
  nth_error after 0 = nth_error s_expr 0 /\
  exists op inverse,
    nth_error s_expr 0 = Some op /\
    inverse_of op = Ok inverse /\
    returned = OSym inverse :: tl after.
Proof.
  unfold invert.
  destruct (nth_error s_expr 0) as [op|] eqn:Hop; cbn [Py.bind Py.of_option]; [|discriminate].
  destruct (inverse_of op) as [inverse|e] eqn:Hinv; cbn [Py.bind Py.of_option]; [|discriminate].
  destruct (index_str s_expr "target") as [k|e]; cbn [Py.bind Py.of_option]; [|discriminate].
  destruct (nth_error s_expr (S k)) as [target|]; cbn [Py.bind Py.of_option]; [|discriminate].
  destruct (invert_loop _ _ _ _) as [st|e] eqn:Hloop; cbn [Py.bind Py.of_option]; [|discriminate].
  intros H. injection H as <- <-.
  apply invert_loop_shape in Hloop. cbn [ist_sexpr] in Hloop. destruct Hloop as [Hlen Hhd].
  assert (Hc : List.length (ist_contents (S k) st) = List.length s_expr
               /\ nth_error (ist_contents (S k) st) 0 = Some op).
  { unfold ist_contents. destruct (ist_attached st).
    - rewrite set_nth_length, set_nth_head. split; congruence.
    - split; congruence. }
  destruct Hc as [Hc1 Hc2]. repeat split; auto.
  exists op, inverse. auto.
Qed.

Lemma invert_without_new_keys (s_expr returned after : list obj) :
  invert s_expr = Ok (returned, after) ->
  Forall (fun x => is_new_key x = None) s_expr ->
  after = s_expr.
Proof.
  intros H Hall. pose proof H as H0. unfold invert in H0.
  destruct (nth_error s_expr 0) as [op|] eqn:Hop; cbn [Py.bind Py.of_option] in H0; [|discriminate].
  destruct (inverse_of op) as [inverse|e] eqn:Hinv; cbn [Py.bind Py.of_option] in H0; [|discriminate].
  destruct (index_str s_expr "target") as [k|e] eqn:Hk; cbn [Py.bind Py.of_option] in H0; [|discriminate].
  destruct (nth_error s_expr (S k)) as [target|] eqn:Ht; cbn [Py.bind Py.of_option] in H0; [|discriminate].
  clear H0.
  rewrite (invert_no_new_keys _ _ _ _ _ Hop Hinv Hk Ht Hall) in H.
  injection H as _ <-. reflexivity.
Qed.

Lemma set_command_changed (column : string) (i : Z) (old new : obj) :
  old <> new -> set_command column i new old <> set_command column i old new.
Proof.
  intros Hne Heq. apply Hne.
  cbv [set_command _gen_code flatten_items flat_map app fst snd] in Heq.
  congruence.
Qed.

Lemma merge_shape_changed (op : string) (i : Z) (a b c d w x y z : obj) :
  (a, b, c, d) <> (w, x, y, z) ->
  merge_shape op i w x y z a b c d <> merge_shape op i a b c d w x y z.
Proof.
  intros Hne Heq. apply Hne.
  cbv [merge_shape _gen_code flatten_items flat_map app fst snd] in Heq.
  congruence.
Qed.

Lemma split_shape_changed (op : string) (i : Z) (a b c d w x y z : obj) :
  (a, b, c, d) <> (w, x, y, z) ->
  split_shape op i w x y z a b c d <> split_shape op i a b c d w x y z.
Proof.
  intros Hne Heq. apply Hne.
  cbv [split_shape _gen_code flatten_items flat_map app fst snd] in Heq.
  congruence.
Qed.

(** C3 (as amended).  [invert(C)] builds a new top-level list headed by
    the paired operation, but it updates [C] itself.
    - Whenever it returns, [C] has kept its length and its head, and the
      elements after the head of the returned list are those of [C] as
      updated (the [target] sub-list is shared with [C], not copied); a
      [C] without [new_] arguments is left as it was.
    - On a command of [codegen_rename], [codegen_set_start] or
      [codegen_set_stop], for the field [column] holding [old] and the
      new value [v] (values that evaluate to themselves: numbers,
      strings, null), the value of [column] in
      the target and the value of the [new_] argument are exchanged, in
      [C] and in the returned command alike; [C] then differs from what
      it was unless [old = v].
    - On a merge or split command of the shape that [codegen_merge_next]
      and [codegen_split] build for records without extra fields, whose
      eight values are numbers, strings other than [stop], [next_start]
      and [next_name], or null, the four target values and the four
      [new_] values are exchanged in [C], and the returned command is [C]
      as updated under the paired head; [C] differs from what it was
      unless the two quadruples are equal. *)
Theorem invert_updates_argument :
  (forall s_expr returned after : list obj,
     invert s_expr = Ok (returned, after) ->
     List.length after = List.length s_expr /\
     nth_error after 0 = nth_error s_expr 0 /\
     (exists op inverse,
        nth_error s_expr 0 = Some op /\
        inverse_of op = Ok inverse /\
        returned = OSym inverse :: tl after) /\
     (Forall (fun x => is_new_key x = None) s_expr -> after = s_expr)) /\
  (forall (L : labels) (i : Z) (v : obj) (C : list obj),
     codegen_rename L i v = Ok C \/ codegen_set_start L i v = Ok C
     \/ codegen_set_stop L i v = Ok C ->
     exists column r old,
       In column ["name"; "start"; "stop"] /\
       getitem L i = Ok r /\ dict_get r column = Some old /\
       C = set_command column i old v /\
       (self_evaluating old = true -> self_evaluating v = true ->
        invert C = Ok (set_command column i v old, set_command column i v old)
        /\ (old <> v -> set_command column i v old <> C))) /\
  (forall (op inverse : string) (i : Z) (a b c d w x y z : obj),
     (op = "merge_next" /\ inverse = "split")
     \/ (op = "split" /\ inverse = "merge_next") ->
     Forall pair_value [a; b; c; d; w; x; y; z] ->
     (invert (merge_shape op i a b c d w x y z)
      = Ok (merge_shape inverse i w x y z a b c d,
            merge_shape op i w x y z a b c d) /\
      invert (split_shape op i a b c d w x y z)
      = Ok (split_shape inverse i w x y z a b c d,
            split_shape op i w x y z a b c d)) /\
     ((a, b, c, d) <> (w, x, y, z) ->
      merge_shape op i w x y z a b c d <> merge_shape op i a b c d w x y z /\
      split_shape op i w x y z a b c d <> split_shape op i a b c d w x y z)).
Proof.
  split; [|split].
  - intros s_expr returned after H.
    destruct (invert_frame _ _ _ H) as (H1 & H2 & H3).
    repeat split; try assumption.
    apply (invert_without_new_keys _ _ _ H).
  - intros L i v C Hgen.
    destruct (codegen_set_shape _ _ _ _ Hgen)
      as (col & r & old & Hcol & Hget & Hold & ->).
    exists col, r, old.
    split; [exact Hcol|]. split; [exact Hget|]. split; [exact Hold|].
    split; [reflexivity|]. intros Ho Hv. split.
    + apply invert_set_command; assumption.
    + apply set_command_changed.
  - intros op inverse i a b c d w x y z Hop Hall. split; [split|].
    + apply invert_merge_shape; assumption.
    + apply invert_split_shape; assumption.
    + intros Hne. split.
      * apply merge_shape_changed; assumption.
      * apply split_shape_changed; assumption.
Qed.

(** C3, witness: the rename command and the merge command of the test
    labels. *)
Lemma invert_updates_argument_witness :
  (codegen_rename TEST_LABELS 0 (OStr "q") = Ok RENAME_CMD /\
   invert RENAME_CMD = Ok (RENAME_INVERTED, RENAME_INVERTED)) /\
  (List.length RENAME_INVERTED = List.length RENAME_CMD /\
   nth_error RENAME_INVERTED 0 = nth_error RENAME_CMD 0 /\
   (exists op inverse,
      nth_error RENAME_CMD 0 = Some op /\
      inverse_of op = Ok inverse /\
      RENAME_INVERTED = OSym inverse :: tl RENAME_INVERTED) /\
   (Forall (fun x => is_new_key x = None) RENAME_CMD ->
    RENAME_INVERTED = RENAME_CMD)) /\
  (codegen_merge_next TEST_LABELS 0 (OStr "ab") = Ok MERGE_CMD /\
   MERGE_CMD = merge_shape "merge_next" 0 (OStr "a") (OFloat (21 # 10))
                 (OFloat (21 # 10)) (OStr "b") (OStr "ab") ONone ONone ONone) /\
  invert MERGE_CMD
  = Ok (merge_shape "split" 0 (OStr "ab") ONone ONone ONone
          (OStr "a") (OFloat (21 # 10)) (OFloat (21 # 10)) (OStr "b"),
        merge_shape "merge_next" 0 (OStr "ab") ONone ONone ONone
          (OStr "a") (OFloat (21 # 10)) (OFloat (21 # 10)) (OStr "b")).
Proof.
  split; [split; reflexivity|]. split.
  - apply (proj1 invert_updates_argument RENAME_CMD RENAME_INVERTED
             RENAME_INVERTED).
    reflexivity.
  - split; [split; reflexivity|].
    apply (proj2 (proj2 invert_updates_argument) "merge_next" "split" 0
             (OStr "a") (OFloat (21 # 10)) (OFloat (21 # 10)) (OStr "b")
             (OStr "ab") ONone ONone ONone).
    + left. split; reflexivity.
    + repeat (apply Forall_cons; [repeat split; reflexivity|]).
      apply Forall_nil.
Defined.

(** C3, counterexample: after [invert(RENAME_CMD)] the argument no longer
    has the value it had before the call: its target now carries the new
    name and its [new_name] argument the old one. *)
Lemma invert_mutates_argument :
  exists returned after,
    invert RENAME_CMD = Ok (returned, after) /\ after <> RENAME_CMD.
Proof.
  exists RENAME_INVERTED, RENAME_INVERTED. split.
  - reflexivity.
  - discriminate.
Qed.
